(** * otp_export: decoding of otpauth-migration links (parse.py)

    A shallow embedding of [parse.py] and of the slice of the Python
    standard library it calls ([urllib.parse], [base64], [binascii]),
    followed by the properties of the decode pipeline.

    Conventions.
    - A Python [str] is represented by its UTF-8 encoding, a Rocq [string]
      (one [ascii] per byte); a Python [bytes] object is a [list byte].
    - A Python [int] is a [Z].
    - A call that may raise returns [result A = exception + A]; code that
      also prints or touches files runs in the monad [M] over a [world]. *)

From Stdlib Require Import ZArith NArith String Ascii List Lia ZifyNat DecimalString.
From Stdlib Require DecimalZ DecimalFacts.
From stdpp Require Import base option gmap strings list.

Open Scope string_scope.
Open Scope list_scope.
Open Scope Z_scope.

(** ** Exceptions and results *)

(** The exception classes that can reach [parse.py].  [binascii_Error] is
    Python's [binascii.Error], a subclass of [ValueError]; [DecodeError] is
    [google.protobuf.message.DecodeError]; [UnicodeDecodeError] is a
    subclass of [ValueError] too. *)
Inductive exception : Type :=
| TypeError (msg : string)
| ValueError (msg : string)
| binascii_Error (msg : string)
| UnicodeDecodeError (msg : string)
| IndexError (msg : string)
| DecodeError (msg : string)
| SystemExit (code : Z).

(** [str(e)]: the text [eprint(e)] prints. *)
Definition exception_str (e : exception) : string :=
  match e with
  | TypeError m | ValueError m | binascii_Error m
  | UnicodeDecodeError m | IndexError m | DecodeError m => m
  | SystemExit c => NilZero.string_of_int (Z.to_int c)
  end.

(** [isinstance(e, (TypeError, ValueError))], subclasses included. *)
Definition is_TypeError_or_ValueError (e : exception) : bool :=
  match e with
  | TypeError _ | ValueError _ | binascii_Error _ | UnicodeDecodeError _ => true
  | IndexError _ | DecodeError _ | SystemExit _ => false
  end.

Definition result (A : Type) : Type := exception + A.

Definition ok {A} (a : A) : result A := inr a.
Definition raise {A} (e : exception) : result A := inl e.

Definition rbind {A B} (r : result A) (k : A -> result B) : result B :=
  match r with
  | inl e => inl e
  | inr a => k a
  end.

Declare Scope result_scope.
Delimit Scope result_scope with result.
Notation "x <- r ;; k" := (rbind r (fun x => k))
  (at level 100, r at next level, right associativity) : result_scope.

(** ** Python built-ins on text and bytes *)

Module Py.

(** [str(n)] for an [int]. *)
Definition str_int (n : Z) : string := NilZero.string_of_int (Z.to_int n).

Definition ord (c : ascii) : Z := Z.of_N (N_of_ascii c).
Definition chr (n : Z) : ascii := ascii_of_N (Z.to_N n).

Abbreviation byte := Byte.byte.

Definition byte_val (b : byte) : Z := Z.of_N (Byte.to_N b).
Definition byte_of_Z (n : Z) : byte :=
  match Byte.of_N (Z.to_N n) with
  | Some b => b
  | None => Byte.x00
  end.

(** The text whose bytes are [l]. *)
Definition of_codes (l : list Z) : string :=
  fold_right (fun n s => String (chr n) s) EmptyString l.

(** [c in s] for a one-character [c]. *)
Fixpoint contains (c : ascii) (s : string) : bool :=
  match s with
  | EmptyString => false
  | String a s' => if Ascii.eqb a c then true else contains c s'
  end.

(** [s.partition(c)] when [c] occurs in [s]: the text before the first
    occurrence and the text after it; [None] when [c] does not occur. *)
Fixpoint partition (c : ascii) (s : string) : option (string * string) :=
  match s with
  | EmptyString => None
  | String a s' =>
      if Ascii.eqb a c then Some (EmptyString, s')
      else match partition c s' with
           | Some (l, r) => Some (String a l, r)
           | None => None
           end
  end.

(** [s.split(c)]: never empty, one more piece than occurrences of [c]. *)
Fixpoint split (c : ascii) (s : string) : list string :=
  match s with
  | EmptyString => [EmptyString]
  | String a s' =>
      if Ascii.eqb a c then EmptyString :: split c s'
      else match split c s' with
           | h :: t => String a h :: t
           | [] => [String a EmptyString]
           end
  end.

(** [s.replace(c, d)] for one-character [c] and [d]. *)
Fixpoint replace (c d : ascii) (s : string) : string :=
  match s with
  | EmptyString => EmptyString
  | String a s' => String (if Ascii.eqb a c then d else a) (replace c d s')
  end.

(** [s.replace(c, "")]. *)
Fixpoint remove (c : ascii) (s : string) : string :=
  match s with
  | EmptyString => EmptyString
  | String a s' => if Ascii.eqb a c then remove c s' else String a (remove c s')
  end.

(** [sep.join(l)]. *)
Fixpoint join (sep : string) (l : list string) : string :=
  match l with
  | [] => EmptyString
  | [x] => x
  | x :: l' => x +:+ sep +:+ join sep l'
  end.

Definition is_upper (c : ascii) : bool := (65 <=? ord c) && (ord c <=? 90).

(** [s.lower()] on text whose cased characters are ASCII (schemes and
    enum names are). *)
Fixpoint lower (s : string) : string :=
  match s with
  | EmptyString => EmptyString
  | String a s' => String (if is_upper a then chr (ord a + 32) else a) (lower s')
  end.

Definition is_ascii_char (c : ascii) : bool := ord c <? 128.

(** [s.isascii()]. *)
Fixpoint isascii (s : string) : bool :=
  match s with
  | EmptyString => true
  | String a s' => is_ascii_char a && isascii s'
  end.

(** [s.startswith(p)]. *)
Fixpoint startswith (p s : string) : bool :=
  match p, s with
  | EmptyString, _ => true
  | String a p', String b s' => Ascii.eqb a b && startswith p' s'
  | String _ _, EmptyString => false
  end.

(** [p in s]: [p] occurs in [s] as a substring. *)
Fixpoint occurs (p s : string) : bool :=
startswith p s
|| match s with
   | EmptyString => false
   | String _ s' => occurs p s'
   end.

(** [s[n:]]. *)
Fixpoint drop_chars (n : nat) (s : string) : string :=
  match n, s with
  | O, _ => s
  | S n', String _ s' => drop_chars n' s'
  | S _, EmptyString => EmptyString
  end.

(** [s[::-1]]. *)
Definition reverse (s : string) : string := String.rev s.

(** The characters [str.strip()] removes, as UTF-8 sequences: the code
    points for which [str.isspace()] holds. *)
Definition whitespace : list string :=
  map of_codes
    [ [9]; [10]; [11]; [12]; [13]; [28]; [29]; [30]; [31]; [32];
      [194; 133]; [194; 160]; [225; 154; 128];
      [226; 128; 128]; [226; 128; 129]; [226; 128; 130]; [226; 128; 131];
      [226; 128; 132]; [226; 128; 133]; [226; 128; 134]; [226; 128; 135];
      [226; 128; 136]; [226; 128; 137]; [226; 128; 138]; [226; 128; 168];
      [226; 128; 169]; [226; 128; 175]; [226; 129; 159]; [227; 128; 128] ].

Definition strip_one (ws : list string) (s : string) : option string :=
  match List.find (fun w => startswith w s) ws with
  | Some w => Some (drop_chars (String.length w) s)
  | None => None
  end.

Fixpoint lstrip_go (fuel : nat) (ws : list string) (s : string) : string :=
  match fuel with
  | O => s
  | S fuel' =>
      match strip_one ws s with
      | Some s' => lstrip_go fuel' ws s'
      | None => s
      end
  end.

(** [s.lstrip()] over the set [ws]; a stripped character is at least one
    byte, so [length s] rounds are enough. *)
Definition lstrip_set (ws : list string) (s : string) : string :=
  lstrip_go (String.length s) ws s.

(** [s.strip()]. *)
Definition strip (s : string) : string :=
  reverse (lstrip_set (map reverse whitespace)
             (reverse (lstrip_set whitespace s))).

(** [s.rpartition(c)] when [c] occurs in [s]: the text before the last
    occurrence and the text after it. *)
Definition rpartition (c : ascii) (s : string) : option (string * string) :=
  match partition c (reverse s) with
  | Some (l, r) => Some (reverse r, reverse l)
  | None => None
  end.

(** The bytes of a text and the text of UTF-8 bytes. *)
Definition encode (s : string) : list byte := list_byte_of_string s.
Definition text_of (bs : list byte) : string := string_of_list_byte bs.

(** *** UTF-8 decoding

    [utf8_scan] reads bytes as CPython's decoder does and yields, in order,
    [Some] of each well-formed sequence and [None] for each maximal
    ill-formed one (what [errors='replace'] turns into U+FFFD and
    [errors='strict'] raises on). *)
Definition utf8_lead (v : Z) : option (nat * Z * Z) :=
  if (194 <=? v) && (v <=? 223) then Some (1%nat, 128, 191)
  else if v =? 224 then Some (2%nat, 160, 191)
  else if v =? 237 then Some (2%nat, 128, 159)
  else if (225 <=? v) && (v <=? 239) then Some (2%nat, 128, 191)
  else if v =? 240 then Some (3%nat, 144, 191)
  else if v =? 244 then Some (3%nat, 128, 143)
  else if (241 <=? v) && (v <=? 243) then Some (3%nat, 128, 191)
  else None.

Fixpoint utf8_scan (pend : list byte) (need : nat) (lo hi : Z)
    (bs : list byte) : list (option (list byte)) :=
  match bs with
  | [] => match pend with [] => [] | _ :: _ => [None] end
  | b :: bs' =>
      let v := byte_val b in
      let fresh :=
        if v <? 128 then Some [b] :: utf8_scan [] 0 0 0 bs'
        else match utf8_lead v with
             | Some (n, l, h) => utf8_scan [b] n l h bs'
             | None => None :: utf8_scan [] 0 0 0 bs'
             end in
      match pend with
      | [] => fresh
      | _ :: _ =>
          if (lo <=? v) && (v <=? hi) then
            match need with
            | 1%nat => Some (pend ++ [b]) :: utf8_scan [] 0 0 0 bs'
            | _ => utf8_scan (pend ++ [b]) (need - 1) 128 191 bs'
            end
          else None :: fresh
      end
  end.

(** U+FFFD in UTF-8. *)
Definition REPLACEMENT : list byte := [Byte.xef; Byte.xbf; Byte.xbd].

(** [bs.decode('utf-8', 'replace')]. *)
Definition decode_replace (bs : list byte) : string :=
  text_of (concat (map (fun o => match o with
                                 | Some c => c
                                 | None => REPLACEMENT
                                 end) (utf8_scan [] 0 0 0 bs))).

(** [bs.decode()]: UTF-8, strict. *)
Definition decode (bs : list byte) : result string :=
  if forallb (fun o : option (list byte) => match o with
                                            | Some _ => true
                                            | None => false
                                            end) (utf8_scan [] 0 0 0 bs)
  then ok (text_of bs)
  else raise (UnicodeDecodeError "'utf-8' codec can't decode bytes").

End Py.

(** ** urllib.parse (CPython 3.11) *)

(** What [urlsplit] asks of modules that are not embedded here: the
    address parser of [ipaddress] and the NFKC normal form of
    [unicodedata].  Both are consulted only for an authority that has a
    bracketed host or a non-ASCII character.  [ip_address] gives the kind
    of a well-formed address and the message of the [ValueError] raised on
    any other text. *)
Inductive ip_version : Type := IPv4Address | IPv6Address.

Class Unicodedata_Ipaddress : Type := {
  ip_address : string -> string + ip_version;
  normalize_NFKC : string -> string
}.

Module urllib.

Import Py.

Definition hexval (c : ascii) : option Z :=
  let v := ord c in
  if (48 <=? v) && (v <=? 57) then Some (v - 48)
  else if (65 <=? v) && (v <=? 70) then Some (v - 55)
  else if (97 <=? v) && (v <=? 102) then Some (v - 87)
  else None.

(** One piece of [string.split('%')] after the first: a decoded byte and
    the rest when it starts with two hex digits, else the piece with its
    ['%'] put back. *)
Definition unquote_item (item : string) : list byte :=
  match item with
  | String a (String b rest) =>
      match hexval a, hexval b with
      | Some h, Some l => byte_of_Z (16 * h + l) :: encode rest
      | _, _ => encode (String "%" item)
      end
  | _ => encode (String "%" item)
  end.

Definition unquote_to_bytes (s : string) : list byte :=
  match split "%" s with
  | [] => []
  | first :: items => encode first ++ concat (map unquote_item items)
  end.

(** The pieces of [_asciire.split]: maximal runs of ASCII and of
    non-ASCII characters, each with [true] when it is ASCII. *)
Fixpoint ascii_runs (s : string) : list (bool * string) :=
  match s with
  | EmptyString => []
  | String a s' =>
      let isa := is_ascii_char a in
      match ascii_runs s' with
      | (b, r) :: t =>
          if Bool.eqb b isa then (b, String a r) :: t
          else (isa, String a EmptyString) :: (b, r) :: t
      | [] => [(isa, String a EmptyString)]
      end
  end.

(** [unquote(string)], with the defaults [encoding='utf-8'] and
    [errors='replace']. *)
Definition unquote (s : string) : string :=
  if contains "%" s then
    String.concat ""
      (map (fun '(isa, r) =>
              if isa : bool then decode_replace (unquote_to_bytes r) else r)
         (ascii_runs s))
  else s.

Definition ALWAYS_SAFE (v : Z) : bool :=
  ((65 <=? v) && (v <=? 90)) || ((97 <=? v) && (v <=? 122))
  || ((48 <=? v) && (v <=? 57))
  || (v =? 95) || (v =? 46) || (v =? 45) || (v =? 126).

(** The safe set of [quote]'s default [safe='/']. *)
Definition is_safe (b : byte) : bool :=
  ALWAYS_SAFE (byte_val b) || (byte_val b =? 47).

Definition hexdigit (n : Z) : ascii :=
  if n <? 10 then chr (48 + n) else chr (55 + n).

(** [_Quoter.__missing__]: the byte itself when safe, else ['%XX']. *)
Definition quoter (b : byte) : string :=
  if is_safe b then String (ascii_of_byte b) EmptyString
  else String "%" (String (hexdigit (byte_val b / 16))
                     (String (hexdigit (byte_val b mod 16)) EmptyString)).

Definition quote_from_bytes (bs : list byte) : string :=
  if forallb is_safe bs then text_of bs
  else String.concat "" (map quoter bs).

(** [quote(string)] with the default [safe='/']. *)
Definition quote (s : string) : string := quote_from_bytes (encode s).

Record ParseResult : Type := {
  scheme : string;
  netloc : string;
  path : string;
  params : string;
  query : string;
  fragment : string
}.

Fixpoint all_chars (p : ascii -> bool) (s : string) : bool :=
  match s with
  | EmptyString => true
  | String a s' => p a && all_chars p s'
  end.

Definition is_ascii_alpha (c : ascii) : bool :=
  let v := ord c in
  ((65 <=? v) && (v <=? 90)) || ((97 <=? v) && (v <=? 122)).

Definition is_digit (c : ascii) : bool := (48 <=? ord c) && (ord c <=? 57).

Definition scheme_chars (c : ascii) : bool :=
  is_ascii_alpha c || is_digit c
  || (ord c =? 43) || (ord c =? 45) || (ord c =? 46).

Definition uses_params : list string :=
  [ ""; "ftp"; "hdl"; "prospero"; "http"; "imap"; "https"; "shttp"; "rtsp";
    "rtspu"; "sip"; "sips"; "mms"; "sftp"; "tel" ].

(** [url.lstrip(_WHATWG_C0_CONTROL_OR_SPACE)]. *)
Fixpoint lstrip_C0 (url : string) : string :=
  match url with
  | EmptyString => EmptyString
  | String a url' => if ord a <=? 32 then lstrip_C0 url' else url
  end.

(** The scheme of [url] and what follows its [':'], or the default scheme
    [''] and [url] itself. *)
Definition split_scheme (url : string) : string * string :=
  match partition ":" url with
  | Some (String a pre, rest) =>
      if is_ascii_char a && is_ascii_alpha a
         && all_chars scheme_chars (String a pre)
      then (lower (String a pre), rest)
      else (EmptyString, url)
  | _ => (EmptyString, url)
  end.

(** [_splitnetloc(url, 2)] on [url[2:]]: the authority runs up to the
    first of ['/'], ['?'], ['#']. *)
Fixpoint splitnetloc (s : string) : string * string :=
  match s with
  | EmptyString => (EmptyString, EmptyString)
  | String a s' =>
      if (ord a =? 47) || (ord a =? 63) || (ord a =? 35)
      then (EmptyString, s)
      else let '(n, r) := splitnetloc s' in (String a n, r)
  end.

Fixpoint take_hex (s : string) : string * string :=
  match s with
  | EmptyString => (EmptyString, EmptyString)
  | String a s' =>
      match hexval a with
      | Some _ => let '(h, r) := take_hex s' in (String a h, r)
      | None => (EmptyString, s)
      end
  end.

(** [re.match(r"\Av[a-fA-F0-9]+\..+\Z", hostname)] for a [hostname]
    that starts with ['v']. *)
Definition IPvFuture (hostname : string) : bool :=
  match hostname with
  | String _ s =>
      match take_hex s with
      | (String _ _, String dot (String _ _)) => ord dot =? 46
      | _ => false
      end
  | EmptyString => false
  end.

Section Urlsplit.

Context `{Unicodedata_Ipaddress}.

Definition check_bracketed_host (hostname : string) : result unit :=
  if startswith "v" hostname then
    if IPvFuture hostname then ok tt
    else raise (ValueError "IPvFuture address is invalid")
  else
    match ip_address hostname with
    | inl msg => raise (ValueError msg)
    | inr IPv4Address =>
        raise (ValueError "An IPv4 address cannot be in brackets")
    | inr IPv6Address => ok tt
    end.

Definition check_bracketed_netloc (netloc : string) : result unit :=
  let hostname_and_port :=
    match rpartition "@" netloc with
    | Some (_, r) => r
    | None => netloc
    end in
  match partition "[" hostname_and_port with
  | Some (before_bracket, bracketed) =>
      match before_bracket with
      | String _ _ => raise (ValueError "Invalid IPv6 URL")
      | EmptyString =>
          let '(hostname, port) :=
            match partition "]" bracketed with
            | Some (h, p) => (h, p)
            | None => (bracketed, EmptyString)
            end in
          match port with
          | String c _ =>
              if ord c =? 58 then check_bracketed_host hostname
              else raise (ValueError "Invalid IPv6 URL")
          | EmptyString => check_bracketed_host hostname
          end
      end
  | None =>
      check_bracketed_host
        match partition ":" hostname_and_port with
        | Some (h, _) => h
        | None => hostname_and_port
        end
  end.

Definition checknetloc (netloc : string) : result unit :=
  if String.eqb netloc EmptyString || isascii netloc then ok tt
  else
    let n := remove "?" (remove "#" (remove ":" (remove "@" netloc))) in
    let netloc2 := normalize_NFKC n in
    if String.eqb n netloc2 then ok tt
    else if existsb (fun c => contains c netloc2)
              (list_ascii_of_string "/?#@:")
    then raise (ValueError ("netloc '" +:+ netloc +:+
                  "' contains invalid characters under NFKC normalization"))
    else ok tt.

(** [urlsplit(url)]: scheme, netloc, path, query, fragment. *)
Definition urlsplit (url : string)
    : result (string * string * string * string * string) :=
  let url := lstrip_C0 url in
  let url := remove "010" (remove "013" (remove "009" url)) in
  let '(scheme, url) := split_scheme url in
  (nu <- (if startswith "//" url then
            let '(netloc, url) := splitnetloc (drop_chars 2 url) in
            if xorb (contains "[" netloc) (contains "]" netloc)
            then raise (ValueError "Invalid IPv6 URL")
            else
              (_ <- (if contains "[" netloc && contains "]" netloc
                     then check_bracketed_netloc netloc else ok tt) ;;
               ok (netloc, url))
          else ok (EmptyString, url)) ;;
   let '(netloc, url) := nu in
   let '(url, fragment) :=
     match partition "#" url with
     | Some (u, f) => (u, f)
     | None => (url, EmptyString)
     end in
   let '(url, query) :=
     match partition "?" url with
     | Some (u, q) => (u, q)
     | None => (url, EmptyString)
     end in
   _ <- checknetloc netloc ;;
   ok (scheme, netloc, url, query, fragment))%result.

(** [_splitparams(url)], called when [';'] occurs in [url]. *)
Definition splitparams (url : string) : string * string :=
  match rpartition "/" url with
  | Some (before, after) =>
      match partition ";" after with
      | Some (l, r) => (before +:+ "/" +:+ l, r)
      | None => (url, EmptyString)
      end
  | None =>
      match partition ";" url with
      | Some (l, r) => (l, r)
      | None => (url, EmptyString)
      end
  end.

Definition urlparse (url : string) : result ParseResult :=
  (r <- urlsplit url ;;
   let '(scheme, netloc, url, query, fragment) := r in
   let '(url, params) :=
     if existsb (String.eqb scheme) uses_params && contains ";" url
     then splitparams url else (url, EmptyString) in
   ok {| scheme := scheme; netloc := netloc; path := url;
         params := params; query := query; fragment := fragment |})%result.

End Urlsplit.

(** [parse_qsl(qs)] with its defaults: fields are separated by ['&'], a
    field without ['='] or with an empty value is dropped, ['+'] reads
    as a space and both sides are percent-decoded. *)
Definition parse_qsl (qs : string) : list (string * string) :=
  let query_args :=
    match qs with
    | EmptyString => []
    | String _ _ => split "&" qs
    end in
  flat_map (fun name_value =>
              match partition "=" name_value with
              | Some (n, String c v) =>
                  [(unquote (replace "+" " " n),
                    unquote (replace "+" " " (String c v)))]
              | _ => []
              end) query_args.

(** [parse_qs(qs)]: the values of each name, in order of appearance. *)
Definition parse_qs (qs : string) : gmap string (list string) :=
  fold_left (fun (parsed_result : gmap string (list string)) nv =>
               match parsed_result !! nv.1 with
               | Some values => <[nv.1 := values ++ [nv.2]]> parsed_result
               | None => <[nv.1 := [nv.2]]> parsed_result
               end) (parse_qsl qs) ∅.

End urllib.

(** ** base64 and binascii (CPython 3.11) *)

Module base64.

Import Py.

(** [table_a2b_base64]: the value of a base64 digit. *)
Definition b64_value (c : byte) : option Z :=
  let v := byte_val c in
  if (65 <=? v) && (v <=? 90) then Some (v - 65)
  else if (97 <=? v) && (v <=? 122) then Some (v - 71)
  else if (48 <=? v) && (v <=? 57) then Some (v + 4)
  else if v =? 43 then Some 62
  else if v =? 47 then Some 63
  else None.

(** [binascii.a2b_base64(data, strict_mode=False)]: characters outside
    the alphabet are skipped, a pad that completes a quad ends the
    reading, and data that stops inside a quad is an error. *)
Fixpoint a2b_base64_go (quad_pos leftchar pads : Z) (bin_data : list byte)
    (ascii_data : list byte) : result (list byte) :=
  match ascii_data with
  | [] =>
      if quad_pos =? 0 then ok bin_data
      else if quad_pos =? 1 then
        raise (binascii_Error
                 ("Invalid base64-encoded string: number of data characters ("
                  +:+ str_int (Z.of_nat (length bin_data) / 3 * 4 + 1)
                  +:+ ") cannot be 1 more than a multiple of 4"))
      else raise (binascii_Error "Incorrect padding")
  | this_ch :: rest =>
      if byte_val this_ch =? 61 then
        if (2 <=? quad_pos) && (4 <=? quad_pos + (pads + 1)) then ok bin_data
        else a2b_base64_go quad_pos leftchar
               (if 2 <=? quad_pos then pads + 1 else pads) bin_data rest
      else
        match b64_value this_ch with
        | None => a2b_base64_go quad_pos leftchar pads bin_data rest
        | Some v =>
            if quad_pos =? 0 then a2b_base64_go 1 v 0 bin_data rest
            else if quad_pos =? 1 then
              a2b_base64_go 2 (Z.land v 15) 0
                (bin_data ++ [byte_of_Z (Z.lor (Z.shiftl leftchar 2) (Z.shiftr v 4))])
                rest
            else if quad_pos =? 2 then
              a2b_base64_go 3 (Z.land v 3) 0
                (bin_data ++ [byte_of_Z (Z.lor (Z.shiftl leftchar 4) (Z.shiftr v 2))])
                rest
            else
              a2b_base64_go 0 0 0
                (bin_data ++ [byte_of_Z (Z.lor (Z.shiftl leftchar 6) v)])
                rest
        end
  end.

Definition a2b_base64 (data : list byte) : result (list byte) :=
  a2b_base64_go 0 0 0 [] data.

(** [b64decode(s)] for a [str]: the text must be ASCII. *)
Definition b64decode (s : string) : result (list byte) :=
  if isascii s then a2b_base64 (encode s)
  else raise (ValueError "string argument should contain only ASCII characters").

Definition b32alphabet : list byte := encode "ABCDEFGHIJKLMNOPQRSTUVWXYZ234567".

Definition b32tab (i : Z) : byte := nth (Z.to_nat i) b32alphabet Byte.x00.

(** [_b32tab2[alphabet][i]]: the two digits of a 10-bit group. *)
Definition b32tab2 (i : Z) : list byte := [b32tab (i / 32); b32tab (i mod 32)].

(** [int.from_bytes(bs)], big endian. *)
Definition from_bytes (bs : list byte) : Z :=
  fold_left (fun acc b => acc * 256 + byte_val b) bs 0.

Definition b32_quantum (c : Z) : list byte :=
  b32tab2 (Z.shiftr c 30) ++ b32tab2 (Z.land (Z.shiftr c 20) 1023)
  ++ b32tab2 (Z.land (Z.shiftr c 10) 1023) ++ b32tab2 (Z.land c 1023).

(** The loop [for i in range(0, len(s), 5)] over whole quanta. *)
Fixpoint b32_quanta (s : list byte) : list byte :=
  match s with
  | b0 :: b1 :: b2 :: b3 :: b4 :: rest =>
      b32_quantum (from_bytes [b0; b1; b2; b3; b4]) ++ b32_quanta rest
  | _ => []
  end.

(** [encoded[-k:] = b'=' * k]. *)
Definition set_tail (k : nat) (encoded : list byte) : list byte :=
  take (length encoded - k) encoded ++ replicate k Byte.x3d.

(** [b32encode(s)]. *)
Definition b32encode (s : list byte) : list byte :=
  let leftover := (length s mod 5)%nat in
  let s := if (leftover =? 0)%nat then s
           else s ++ replicate (5 - leftover) Byte.x00 in
  let encoded := b32_quanta s in
  match leftover with
  | 1%nat => set_tail 6 encoded
  | 2%nat => set_tail 4 encoded
  | 3%nat => set_tail 3 encoded
  | 4%nat => set_tail 1 encoded
  | _ => encoded
  end.

End base64.

(** ** The protobuf binding [OtpMigration_pb2] *)

Module otp.

Import Py.

Record OtpParameter : Type := {
  secret : list byte;
  name : string;
  issuer : string;
  algorithm : Z;
  digits : Z;
  type : Z;
  counter : Z
}.

Record MigrationPayload : Type := {
  otp_parameters : list OtpParameter;
  version : Z;
  batch_size : Z;
  batch_index : Z;
  batch_id : Z
}.

(** [EnumTypeWrapper.Name]: the name declared for the number, or
    [ValueError]. *)
Definition enum_Name (enum : string) (names : list (Z * string)) (number : Z)
    : result string :=
  match List.find (fun p => fst p =? number) names with
  | Some p => ok (snd p)
  | None => raise (ValueError ("Enum " +:+ enum +:+
                     " has no name defined for value " +:+ str_int number))
  end.

(** Modelled from the spec: the enum declarations of the generated
    binding [OtpMigration_pb2], which is not part of the sources; the
    names are those of the data model, numbered in the order it lists
    them. *)
Module Algorithm.
Definition UNSPECIFIED : Z := 0.
Definition SHA1 : Z := 1.
Definition SHA256 : Z := 2.
Definition SHA512 : Z := 3.
Definition MD5 : Z := 4.
Definition Name : Z -> result string :=
  enum_Name "Algorithm"
    [ (UNSPECIFIED, "UNSPECIFIED"); (SHA1, "SHA1"); (SHA256, "SHA256");
      (SHA512, "SHA512"); (MD5, "MD5") ].
End Algorithm.

(** Modelled from the spec: the declaration of [DigitCount] in
    [OtpMigration_pb2], as for [Algorithm]. *)
Module DigitCount.
Definition UNSPECIFIED : Z := 0.
Definition SIX : Z := 1.
Definition EIGHT : Z := 2.
Definition Name : Z -> result string :=
  enum_Name "DigitCount"
    [ (UNSPECIFIED, "UNSPECIFIED"); (SIX, "SIX"); (EIGHT, "EIGHT") ].
End DigitCount.

(** Modelled from the spec: the declaration of [OtpType] in
    [OtpMigration_pb2], as for [Algorithm]. *)
Module OtpType.
Definition UNSPECIFIED : Z := 0.
Definition HOTP : Z := 1.
Definition TOTP : Z := 2.
Definition Name : Z -> result string :=
  enum_Name "OtpType"
    [ (UNSPECIFIED, "UNSPECIFIED"); (HOTP, "HOTP"); (TOTP, "TOTP") ].
End OtpType.

(** *** The wire decoder *)

Definition malformed {A} : result A :=
  raise (DecodeError "Error parsing message").

(** A varint: 7-bit groups, least significant first, the high bit of a
    byte set when another follows. *)
Fixpoint read_varint_go (shift acc : Z) (bs : list byte)
    : option (Z * list byte) :=
  match bs with
  | [] => None
  | b :: bs' =>
      let acc := acc + Z.shiftl (Z.land (byte_val b) 127) shift in
      if byte_val b <? 128 then Some (acc, bs')
      else read_varint_go (shift + 7) acc bs'
  end.

Definition read_varint (bs : list byte) : option (Z * list byte) :=
  read_varint_go 0 0 bs.

Inductive field : Type :=
| Varint (number value : Z)
| LengthDelimited (number : Z) (data : list byte).

(** One field: a tag (field number and wire type), then a varint, or a
    length and that many bytes. *)
Definition read_field (bs : list byte) : option (field * list byte) :=
  match read_varint bs with
  | None => None
  | Some (tag, bs) =>
      let number := Z.shiftr tag 3 in
      let wire_type := Z.land tag 7 in
      if wire_type =? 0 then
        match read_varint bs with
        | Some (v, bs) => Some (Varint number v, bs)
        | None => None
        end
      else if wire_type =? 2 then
        match read_varint bs with
        | Some (len, bs) =>
            if Z.of_nat (length bs) <? len then None
            else Some (LengthDelimited number (take (Z.to_nat len) bs),
                       drop (Z.to_nat len) bs)
        | None => None
        end
      else None
  end.

(** The fields of a message; a field takes at least one byte, so [fuel]
    above the length of [bs] is never used up. *)
Fixpoint read_fields (fuel : nat) (bs : list byte) : result (list field) :=
  match bs, fuel with
  | [], _ => ok []
  | _ :: _, O => malformed
  | _ :: _, S fuel' =>
      match read_field bs with
      | None => malformed
      | Some (f, rest) =>
          (fs <- read_fields fuel' rest ;; ok (f :: fs))%result
      end
  end.

Definition no_parameter : OtpParameter :=
  {| secret := []; name := ""; issuer := ""; algorithm := 0; digits := 0;
     type := 0; counter := 0 |}.

(** The dispatch table of [OtpParameter]; other fields are skipped. *)
Definition set_parameter_field (p : OtpParameter) (f : field) : OtpParameter :=
  match f with
  | LengthDelimited 1 d =>
      {| secret := d; name := name p; issuer := issuer p;
         algorithm := algorithm p; digits := digits p; type := type p;
         counter := counter p |}
  | LengthDelimited 2 d =>
      {| secret := secret p; name := text_of d; issuer := issuer p;
         algorithm := algorithm p; digits := digits p; type := type p;
         counter := counter p |}
  | LengthDelimited 3 d =>
      {| secret := secret p; name := name p; issuer := text_of d;
         algorithm := algorithm p; digits := digits p; type := type p;
         counter := counter p |}
  | Varint 4 v =>
      {| secret := secret p; name := name p; issuer := issuer p;
         algorithm := v; digits := digits p; type := type p;
         counter := counter p |}
  | Varint 5 v =>
      {| secret := secret p; name := name p; issuer := issuer p;
         algorithm := algorithm p; digits := v; type := type p;
         counter := counter p |}
  | Varint 6 v =>
      {| secret := secret p; name := name p; issuer := issuer p;
         algorithm := algorithm p; digits := digits p; type := v;
         counter := counter p |}
  | Varint 7 v =>
      {| secret := secret p; name := name p; issuer := issuer p;
         algorithm := algorithm p; digits := digits p; type := type p;
         counter := v |}
  | _ => p
  end.

Definition parse_parameter (bs : list byte) : result OtpParameter :=
  (fs <- read_fields (S (length bs)) bs ;;
   ok (fold_left set_parameter_field fs no_parameter))%result.

Definition no_payload : MigrationPayload :=
  {| otp_parameters := []; version := 0; batch_size := 0; batch_index := 0;
     batch_id := 0 |}.

(** The dispatch table of [MigrationPayload]. *)
Definition set_payload_field (r : result MigrationPayload) (f : field)
    : result MigrationPayload :=
  (m <- r ;;
   match f with
   | LengthDelimited 1 d =>
       p <- parse_parameter d ;;
       ok {| otp_parameters := otp_parameters m ++ [p]; version := version m;
             batch_size := batch_size m; batch_index := batch_index m;
             batch_id := batch_id m |}
   | Varint 2 v =>
       ok {| otp_parameters := otp_parameters m; version := v;
             batch_size := batch_size m; batch_index := batch_index m;
             batch_id := batch_id m |}
   | Varint 3 v =>
       ok {| otp_parameters := otp_parameters m; version := version m;
             batch_size := v; batch_index := batch_index m;
             batch_id := batch_id m |}
   | Varint 4 v =>
       ok {| otp_parameters := otp_parameters m; version := version m;
             batch_size := batch_size m; batch_index := v;
             batch_id := batch_id m |}
   | Varint 5 v =>
       ok {| otp_parameters := otp_parameters m; version := version m;
             batch_size := batch_size m; batch_index := batch_index m;
             batch_id := v |}
   | _ => ok m
   end)%result.

(** Modelled from the spec: [MigrationPayload.FromString], the wire
    decoder of the generated binding, which is not part of the sources.
    Tags, varints and length-delimited fields are read as the wire-format
    section describes; fields with unknown numbers are skipped; a
    truncated field or length, or a wire type other than the two it
    supports, fails. *)
Definition FromString (bs : list byte) : result MigrationPayload :=
  (fs <- read_fields (S (length bs)) bs ;;
   fold_left set_payload_field fs (ok no_payload))%result.

End otp.

(** ** The world of a run and the monad of [parse.py] *)

(** What a run can observe and change: the lines printed on the two
    streams and the text files, by path. *)
Record world : Type := {
  stderr : list string;
  stdout : list string;
  files : gmap string string
}.

Definition M (A : Type) : Type := world -> result A * world.

Definition ret {A} (a : A) : M A := fun w => (ok a, w).
Definition throw {A} (e : exception) : M A := fun w => (raise e, w).
Definition lift {A} (r : result A) : M A := fun w => (r, w).

Definition bind {A B} (m : M A) (k : A -> M B) : M B :=
  fun w => match m w with
           | (inl e, w') => (inl e, w')
           | (inr a, w') => k a w'
           end.

Declare Scope M_scope.
Delimit Scope M_scope with M.
Notation "x <- m ;; k" := (bind m (fun x => k))
  (at level 100, m at next level, right associativity) : M_scope.
Notation "m ;; k" := (bind m (fun _ => k))
  (at level 100, right associativity) : M_scope.

(** [print(text)]. *)
Definition print (text : string) : M unit :=
  fun w => (ok tt, {| stderr := stderr w; stdout := stdout w ++ [text];
                      files := files w |}).

(** [os.path.exists(path)]. *)
Definition path_exists (path : string) : M bool :=
  fun w => (ok (bool_decide (is_Some (files w !! path))), w).

(** Text mode with universal newlines: ["\r\n"] and ["\r"] read as
    ["\n"]. *)
Fixpoint universal_newlines (s : string) : string :=
  match s with
  | EmptyString => EmptyString
  | String a s' =>
      if Py.ord a =? 13 then
        match s' with
        | String b s'' =>
            if Py.ord b =? 10 then String b (universal_newlines s'')
            else String "010" (universal_newlines s')
        | EmptyString => String "010" EmptyString
        end
      else String a (universal_newlines s')
  end.

(** The lines a text yields when iterated, each with its newline. *)
Fixpoint lines_of (s : string) : list string :=
  match s with
  | EmptyString => []
  | String a s' =>
      if Py.ord a =? 10 then String a EmptyString :: lines_of s'
      else match lines_of s' with
           | l :: ls => String a l :: ls
           | [] => [String a EmptyString]
           end
  end.

(** [open(path, "r")], iterated. *)
Definition read_lines (path : string) : M (list string) :=
  fun w => match files w !! path with
           | Some text => (ok (lines_of (universal_newlines text)), w)
           | None => (ok [], w)
           end.

(** [open(path, "w")] and [file.write(text)]. *)
Definition write_file (path text : string) : M unit :=
  fun w => (ok tt, {| stderr := stderr w; stdout := stdout w;
                      files := <[path := text]> (files w) |}).

(** ** parse.py *)

Import Py urllib base64 otp.

(** [eprint(e)]: one line on the error stream. *)
Definition eprint (text : string) : M unit :=
  fun w => (ok tt, {| stderr := stderr w ++ [text]; stdout := stdout w;
                      files := files w |}).

Definition num_digits (digit_count : Z) : result Z :=
  if digit_count =? DigitCount.SIX then ok 6
  else if digit_count =? DigitCount.EIGHT then ok 8
  else raise (ValueError "Invalid DigitCount, expecting SIX or EIGHT").

(** [repr] of a [bytes] object, as an f-string renders it. *)
Definition bytes_repr_char (quote_char : Z) (b : byte) : string :=
  let v := byte_val b in
  if (v =? quote_char) || (v =? 92) then String "\" (String (chr v) "")
  else if v =? 9 then "\t"
  else if v =? 10 then "\n"
  else if v =? 13 then "\r"
  else if (v <? 32) || (127 <=? v) then
    String "\" (String "x" (String (chr (if v / 16 <? 10 then 48 + v / 16 else 87 + v / 16))
      (String (chr (if v mod 16 <? 10 then 48 + v mod 16 else 87 + v mod 16)) "")))
  else String (chr v) "".

Definition bytes_repr (bs : list byte) : string :=
  let has c := existsb (fun b => byte_val b =? c) bs in
  let q := if has 39 && negb (has 34) then 34 else 39 in
  String "b" (String (chr q) (String.concat "" (map (bytes_repr_char q) bs)))
  +:+ String (chr q) "".

Section Parse.

Context `{Unicodedata_Ipaddress}.

Definition parse_url (url : string) : result string :=
  (parsed_url <- urlparse url ;;
   if negb (String.eqb (scheme parsed_url) "otpauth-migration") then
     raise (TypeError "Only otpauth-migration URLs can be parsed")
   else
     let qs := parse_qs (query parsed_url) in
     match qs !! "data" with
     | None => raise (ValueError "Missing `data` field in query string")
     | Some values =>
         match values with
         | v :: _ => ok (unquote v)
         | [] => raise (IndexError "list index out of range")
         end
     end)%result.

End Parse.

Definition decode_qs (data : string) : result (list byte) :=
  let decoded_url_data := unquote data in
  b64decode decoded_url_data.

(** The argument of [decode_secrets]: a decoded message, or the bytes of
    one. *)
Inductive payload_arg : Type :=
| Message (payload : MigrationPayload)
| Bytes (payload : list byte).

(** The body of the loop of [decode_secrets]: the lines it appends to
    [_data] for one entry. *)
Definition decode_secrets_entry (params : OtpParameter) : result (list string) :=
  (let otpauth_url := "otpauth://" in
   type_name <- OtpType.Name (type params) ;;
   let otpauth_url := otpauth_url +:+ lower type_name in
   let otpauth_url := otpauth_url +:+ "/" in
   let otpauth_url := otpauth_url +:+ quote (issuer params) in
   let otpauth_url := otpauth_url +:+ ":" in
   let otpauth_url := otpauth_url +:+ quote (name params) in
   secret_text <- decode (b32encode (secret params)) ;;
   let otpauth_url := otpauth_url +:+ ("?secret=" +:+ secret_text) in
   let otpauth_url := otpauth_url +:+ ("&issuer=" +:+ quote (issuer params)) in
   algorithm_name <- Algorithm.Name (algorithm params) ;;
   let otpauth_url := otpauth_url +:+ ("&algorithm=" +:+ lower algorithm_name) in
   n <- num_digits (algorithm params) ;;
   let otpauth_url := otpauth_url +:+ ("&digits=" +:+ str_int n) in
   let otpauth_url := otpauth_url +:+ ("&counter=" +:+ str_int (counter params)) in
   algorithm_name <- Algorithm.Name (algorithm params) ;;
   digits_name <- DigitCount.Name (digits params) ;;
   type_name <- OtpType.Name (type params) ;;
   ok [ "  " +:+ otpauth_url;
        "  secret: " +:+ bytes_repr (b32encode (secret params));
        "  name: " +:+ name params;
        "  issuer: " +:+ issuer params;
        "  algorithm: " +:+ algorithm_name;
        "  digits: " +:+ digits_name;
        "  type: " +:+ type_name;
        ("  counter: " +:+ str_int (counter params)) +:+ String "010" "" ])%result.

(** The loop [for params in payload.otp_parameters] over [_data]. *)
Fixpoint decode_secrets_loop (_data : list string) (l : list OtpParameter)
    : result (list string) :=
  match l with
  | [] => ok _data
  | params :: l' =>
      (block <- decode_secrets_entry params ;;
       decode_secrets_loop (_data ++ block) l')%result
  end.

Definition decode_secrets (payload : payload_arg) : result string :=
  (payload <- match payload with
              | Message p => ok p
              | Bytes bs => FromString bs
              end ;;
   let _data := [] in
   let _data := _data ++ ["version: " +:+ str_int (version payload)] in
   let _data := _data ++ ["batch_size: " +:+ str_int (batch_size payload)] in
   let _data := _data ++ ["batch_index: " +:+ str_int (batch_index payload)] in
   let _data := _data ++ ["batch_id: " +:+ str_int (batch_id payload)] in
   let _data := _data ++ ["otp_parameters:"] in
   _data <- decode_secrets_loop _data (otp_parameters payload) ;;
   ok (join (String "010" "") _data))%result.

(** The parsed command line. *)
Record Namespace : Type := {
  input : string;
  file : bool;
  output : option string
}.

(** What [parser.parse_args()] (lines 93 to 105) makes of the command
    line of a run.  In CPython 3.11 it ends in one of three ways: it
    returns the [Namespace] of the arguments; or the action of [-h] and
    [--help] calls [print_help()], which writes the help on the standard
    output, and [exit()], which raises [SystemExit(0)]; or [error()]
    writes the usage and then the message on the error stream and raises
    [SystemExit(2)].  How [argparse] reads a command line is not
    modelled: a run is given with what [argparse] makes of its command
    line, and the texts are those it writes, each less its final
    newline. *)
Inductive command_line : Type :=
| Parsed (args : Namespace)
| Help (text : string)
| Rejected (usage message : string).

Definition parse_args (argv : command_line) : M Namespace :=
  match argv with
  | Parsed args => ret args
  | Help text => (print text ;; throw (SystemExit 0))%M
  | Rejected usage message =>
      (eprint usage ;; eprint message ;; throw (SystemExit 2))%M
  end.

Section Main.

Context `{Unicodedata_Ipaddress}.

Definition process_url (url_input : string) : M (option string) :=
  match parse_url url_input with
  | inl e =>
      if is_TypeError_or_ValueError e
      then (eprint (exception_str e) ;; ret None)%M
      else throw e
  | inr data =>
      lift (decoded_data <- decode_qs data ;;
            payload <- FromString decoded_data ;;
            report <- decode_secrets (Message payload) ;;
            ok (Some report))%result
  end.

(** The loop [for line in file] over [results]. *)
Fixpoint process_lines (results : list string) (lines : list string)
    : M (list string) :=
  match lines with
  | [] => ret results
  | line :: lines' =>
      let url_input := strip line in
      match url_input with
      | String _ _ =>
          (result <- process_url url_input ;;
           match result with
           | Some r => process_lines (results ++ [r]) lines'
           | None => process_lines results lines'
           end)%M
      | EmptyString => process_lines results lines'
      end
  end.

Definition main (argv : command_line) : M unit :=
  (args <- parse_args argv ;;
   let results := [] in
   results <-
     (if file args then
        found <- path_exists (input args) ;;
        if found : bool then
          lines <- read_lines (input args) ;;
          process_lines results lines
        else
          eprint ("File not found: " +:+ input args) ;;
          throw (SystemExit 4)
      else
        result <- process_url (input args) ;;
        match result with
        | Some r => ret (results ++ [r])
        | None => ret results
        end) ;;
   let output_text := join (String "010" "") results in
   match output args with
   | Some (String c p) =>
       write_file (String c p) output_text ;;
       print ("Output written to " +:+ String c p)
   | _ => print output_text
   end)%M.

End Main.

(** ** Vocabulary of the properties *)

(** The number of pad characters RFC 4648 gives a final quantum of
    [leftover] bytes. *)
Definition b32_padding (leftover : nat) : nat :=
  match leftover with
  | 1 => 6
  | 2 => 4
  | 3 => 3
  | 4 => 1
  | _ => 0
  end%nat.

(** A character of a base32 text: a digit of the alphabet or the pad. *)
Definition b32_char (c : byte) : Prop := In c (b32alphabet ++ [Byte.x3d]).

(** The URI of an entry whose enum names and digit count are resolved. *)
Definition otpauth_uri (type_name algorithm_name : string) (n : Z)
    (params : OtpParameter) : string :=
  "otpauth://" +:+ lower type_name +:+ "/" +:+ quote (issuer params) +:+ ":"
  +:+ quote (name params)
  +:+ "?secret=" +:+ text_of (b32encode (secret params))
  +:+ "&issuer=" +:+ quote (issuer params)
  +:+ "&algorithm=" +:+ lower algorithm_name
  +:+ "&digits=" +:+ str_int n
  +:+ "&counter=" +:+ str_int (counter params).

(** The characters the URI syntax reserves around the label and in the
    query: [':'], ['@'], ['?'] and ['&']. *)
Definition reserved : list ascii := [":"; "@"; "?"; "&"]%char.

(** A query string with a [data] parameter that has a value: one of its
    fields, cut at ['&'], reads [name=value] with a value that is not
    empty and a name that decodes to [data]. *)
Definition has_data_value (qs : string) : Prop :=
exists field name value,
  In field (split "&" qs)
  /\ partition "=" field = Some (name, value)
  /\ value <> ""
  /\ unquote (replace "+" " " name) = "data".

(** The entry of the concrete scenario: a secret of ten zero bytes for
    alice@example.com at Example, SHA1, six digits, time-based. *)
Definition scenario_entry : OtpParameter :=
{| secret := replicate 10 Byte.x00; name := "alice@example.com";
   issuer := "Example"; algorithm := Algorithm.SHA1;
   digits := DigitCount.SIX; type := OtpType.TOTP; counter := 0 |}.

(** The payload of the concrete scenario. *)
Definition scenario_payload : MigrationPayload :=
{| otp_parameters := [scenario_entry]; version := 1; batch_size := 1;
   batch_index := 0; batch_id := 42 |}.

(** The entry of the scenario with SHA256 in place of SHA1: its [digits]
    field is SIX (1), its [algorithm] field SHA256 (2). *)
Definition sha256_entry : OtpParameter :=
{| secret := replicate 10 Byte.x00; name := "alice@example.com";
   issuer := "Example"; algorithm := Algorithm.SHA256;
   digits := DigitCount.SIX; type := OtpType.TOTP; counter := 0 |}.

(** The entry of the scenario with SHA512 in place of SHA1. *)
Definition sha512_entry : OtpParameter :=
{| secret := replicate 10 Byte.x00; name := "alice@example.com";
   issuer := "Example"; algorithm := Algorithm.SHA512;
   digits := DigitCount.SIX; type := OtpType.TOTP; counter := 0 |}.

(** The lines of the report of the scenario payload. *)
Definition scenario_lines : list string :=
[ "version: 1"; "batch_size: 1"; "batch_index: 0"; "batch_id: 42";
  "otp_parameters:";
  "  otpauth://totp/Example:alice%40example.com?secret=AAAAAAAAAAAAAAAA&issuer=Example&algorithm=sha1&digits=6&counter=0";
  "  secret: b'AAAAAAAAAAAAAAAA'"; "  name: alice@example.com";
  "  issuer: Example"; "  algorithm: SHA1"; "  digits: SIX";
  "  type: TOTP"; "  counter: 0" +:+ String "010" "" ].

(** A call that raises nothing but [ValueError]. *)
Definition raises_only_ValueError {A} (r : result A) : Prop :=
match r with
| inl (ValueError _) => True
| inl _ => False
| inr _ => True
end.

(** A world with nothing printed and no file. *)
Definition empty_world : world :=
{| stderr := []; stdout := []; files := ∅ |}.

(** The world [w] after [diagnostics] went to the error stream. *)
Definition logged (w : world) (diagnostics : list string) : world :=
{| stderr := stderr w ++ diagnostics; stdout := stdout w; files := files w |}.

(** The world [w] after [text] was printed. *)
Definition printed (w : world) (text : string) : world :=
{| stderr := stderr w; stdout := stdout w ++ [text]; files := files w |}.

(** The world [w] after [main] has handed over the report [text]: written
    to the file at the [--output] path, with the confirmation printed,
    or, without a path or with an empty one, printed. *)
Definition delivered (w : world) (path : option string) (text : string)
    : world :=
match path with
| Some (String c p) =>
    {| stderr := stderr w;
       stdout := stdout w ++ ["Output written to " +:+ String c p];
       files := <[String c p := text]> (files w) |}
| _ => printed w text
end.

Section Reports.

Context `{Unicodedata_Ipaddress}.

(** What [process_url] returns for a URL and what it prints on the error
    stream, read off a run in the empty world. *)
Definition url_outcome (url : string) : result (option string) * list string :=
(fst (process_url url empty_world), stderr (snd (process_url url empty_world))).

(** The reports of the lines of a batch that are decoded, in the order of
    the lines. *)
Fixpoint reports_in_order (lines : list string) : list string :=
match lines with
| [] => []
| line :: lines' =>
    match strip line with
    | EmptyString => reports_in_order lines'
    | String c u =>
        match fst (url_outcome (String c u)) with
        | inr (Some report) => report :: reports_in_order lines'
        | _ => reports_in_order lines'
        end
    end
end.


(** A line that is blank or whose URL [parse_url] rejects. *)
Definition fails_in_parse_url (line : string) : Prop :=
strip line = "" \/ exists e, parse_url (strip line) = raise e.

(** The diagnostics of a batch in which every line fails in [parse_url]:
    one per line that is not blank. *)
Fixpoint parse_diagnostics (lines : list string) : list string :=
match lines with
| [] => []
| line :: lines' =>
    match strip line with
    | EmptyString => parse_diagnostics lines'
    | String c u =>
        match parse_url (String c u) with
        | inl e => exception_str e :: parse_diagnostics lines'
        | inr _ => parse_diagnostics lines'
        end
    end
end.

End Reports.

(** The instance the closed examples run with.  Every URL in them has an
    ASCII authority without brackets, for which [urlsplit] consults
    neither function. *)
#[local] Instance plain_authority : Unicodedata_Ipaddress :=
{| ip_address := fun _ => inl "not an IPv4 or IPv6 address";
   normalize_NFKC := fun s => s |}.

(** A migration link whose data is the single base64 digit [A]. *)
Definition bad_base64_url : string := "otpauth-migration://offline?data=A".

(** The migration link of the scenario payload. *)
Definition scenario_url : string :=
"otpauth-migration://offline?data=CjAKCgAAAAAAAAAAAAASEWFsaWNlQGV4YW1wbGUuY29tGgdFeGFtcGxlIAEoATACOAAQARgBIAAoKg%3D%3D".

(** A link whose data is percent-encoded three times over [QQ==]. *)
Definition thrice_encoded_url : string :=
"otpauth-migration://offline?data=QQ%25253D%25253D".

(** A world whose file [batch.txt] holds three lines: a link with the
    scheme [http], a blank line and a migration link without [data]. *)
Definition rejected_batch_world : world :=
{| stderr := []; stdout := [];
   files := {[ "batch.txt" :=
               "http://example.com/?data=QQ%3D%3D" +:+ String "010" ""
               +:+ String "010" ""
               +:+ "otpauth-migration://offline?date=QQ%3D%3D"
               +:+ String "010" "" ]} |}.

(** A counter-based entry with a secret of one byte. *)
Definition one_byte_entry : OtpParameter :=
{| secret := [Byte.x61]; name := "bob"; issuer := "ACME";
   algorithm := Algorithm.SHA1; digits := DigitCount.SIX;
   type := OtpType.HOTP; counter := 7 |}.

(** * Properties *)

(** ** Digit-count resolution *)

(** C5: digit-count resolution returns 6 for SIX and 8 for EIGHT, and
    raises the digit-count [ValueError] for every other value of the enum
    field, [UNSPECIFIED] and undeclared numbers included; so a resolved
    count is 6 or 8. *)
Theorem num_digits_resolves_six_and_eight (digit_count : Z) :
  (digit_count = DigitCount.SIX -> num_digits digit_count = ok 6)
  /\ (digit_count = DigitCount.EIGHT -> num_digits digit_count = ok 8)
  /\ (digit_count <> DigitCount.SIX -> digit_count <> DigitCount.EIGHT ->
      num_digits digit_count
      = raise (ValueError "Invalid DigitCount, expecting SIX or EIGHT"))
  /\ (forall n, num_digits digit_count = ok n -> n = 6 \/ n = 8).
Proof.
  unfold num_digits.
  repeat split.
  - intros ->. reflexivity.
  - intros ->. reflexivity.
  - intros Hsix Height.
    destruct (Z.eqb_spec digit_count DigitCount.SIX); [contradiction|].
    destruct (Z.eqb_spec digit_count DigitCount.EIGHT); [contradiction|].
    reflexivity.
  - intros n.
    destruct (digit_count =? DigitCount.SIX);
      [|destruct (digit_count =? DigitCount.EIGHT)];
      unfold ok, raise; intros Hn; inversion Hn; auto.
Qed.

Lemma num_digits_resolves_six_and_eight_witness :
  num_digits DigitCount.SIX = ok 6
  /\ num_digits DigitCount.EIGHT = ok 8
  /\ num_digits DigitCount.UNSPECIFIED
     = raise (ValueError "Invalid DigitCount, expecting SIX or EIGHT")
  /\ num_digits 7
     = raise (ValueError "Invalid DigitCount, expecting SIX or EIGHT").
Proof.
  split; [|split; [|split]].
  - apply (num_digits_resolves_six_and_eight DigitCount.SIX). reflexivity.
  - apply (num_digits_resolves_six_and_eight DigitCount.EIGHT). reflexivity.
  - apply (num_digits_resolves_six_and_eight DigitCount.UNSPECIFIED);
      vm_compute; discriminate.
  - apply (num_digits_resolves_six_and_eight 7); vm_compute; discriminate.
Defined.

(** ** Base32 text of a secret *)

Lemma byte_val_range (b : byte) : 0 <= byte_val b < 256.
Proof. destruct b; vm_compute; split; congruence. Qed.

Lemma b32tab_digit (i : Z) : 0 <= i < 32 -> In (b32tab i) b32alphabet.
Proof.
  intros Hi. unfold b32tab. apply nth_In.
  change (length b32alphabet) with 32%nat. lia.
Qed.

Lemma b32tab2_digits (i : Z) :
  0 <= i < 1024 -> Forall (fun c => In c b32alphabet) (b32tab2 i).
Proof.
  intros Hi. unfold b32tab2.
  constructor; [apply b32tab_digit; lia|].
  constructor; [apply b32tab_digit; lia|].
  constructor.
Qed.

Lemma b32_quantum_digits (c : Z) :
  0 <= c < 2 ^ 40 ->
  length (b32_quantum c) = 8%nat
  /\ Forall (fun d => In d b32alphabet) (b32_quantum c).
Proof.
  intros Hc. split; [reflexivity|].
  unfold b32_quantum.
  change 1023 with (Z.ones 10).
  rewrite !Z.land_ones, !Z.shiftr_div_pow2 by lia.
  repeat (apply Forall_app; split); apply b32tab2_digits; lia.
Qed.

Lemma from_bytes_5_range (b0 b1 b2 b3 b4 : byte) :
  0 <= from_bytes [b0; b1; b2; b3; b4] < 2 ^ 40.
Proof.
  unfold from_bytes; simpl.
  pose proof (byte_val_range b0). pose proof (byte_val_range b1).
  pose proof (byte_val_range b2). pose proof (byte_val_range b3).
  pose proof (byte_val_range b4). lia.
Qed.

Lemma b32_quanta_digits (n : nat) (s : list byte) :
  (length s <= n)%nat ->
  length (b32_quanta s) = (8 * (length s / 5))%nat
  /\ Forall (fun d => In d b32alphabet) (b32_quanta s).
Proof.
  revert s. induction n as [|n IH]; intros s Hlen.
  - destruct s; [|simpl in Hlen; lia]. split; [reflexivity|constructor].
  - destruct s as [|b0 [|b1 [|b2 [|b3 [|b4 rest]]]]];
      try (split; [reflexivity|constructor]).
    destruct (IH rest) as [IHlen IHall]; [simpl in Hlen; lia|].
    destruct (b32_quantum_digits (from_bytes [b0; b1; b2; b3; b4])
                (from_bytes_5_range b0 b1 b2 b3 b4)) as [Hq Hall].
    change (b32_quanta (b0 :: b1 :: b2 :: b3 :: b4 :: rest))
      with (b32_quantum (from_bytes [b0; b1; b2; b3; b4]) ++ b32_quanta rest).
    split.
    + rewrite length_app, Hq, IHlen. simpl length. lia.
    + apply Forall_app; split; assumption.
Qed.

Lemma set_tail_shape (k : nat) (encoded : list byte) :
  (k <= length encoded)%nat ->
  Forall (fun d => In d b32alphabet) encoded ->
  length (set_tail k encoded) = length encoded
  /\ exists body, set_tail k encoded = body ++ replicate k Byte.x3d
                  /\ Forall (fun d => In d b32alphabet) body.
Proof.
  intros Hk Hall. unfold set_tail. split.
  - rewrite length_app, length_take, length_replicate. lia.
  - exists (take (length encoded - k) encoded). split; [reflexivity|].
    apply Forall_take. assumption.
Qed.

Lemma b32encode_shape (s : list byte) :
  length (b32encode s) = (8 * ((length s + 4) / 5))%nat
  /\ exists body,
       b32encode s = body ++ replicate (b32_padding (length s mod 5)) Byte.x3d
       /\ Forall (fun d => In d b32alphabet) body.
Proof.
  unfold b32encode.
  remember (length s mod 5)%nat as leftover eqn:Hleft.
  set (padded := if (leftover =? 0)%nat then s
                 else s ++ replicate (5 - leftover) Byte.x00).
  assert (Hpad : length padded = (5 * ((length s + 4) / 5))%nat).
  { subst padded. destruct (Nat.eqb_spec leftover 0).
    - lia.
    - rewrite length_app, length_replicate. lia. }
  destruct (b32_quanta_digits (length padded) padded (Nat.le_refl _))
    as [Hlen Hall].
  assert (Hlen' : length (b32_quanta padded) = (8 * ((length s + 4) / 5))%nat)
    by (rewrite Hlen, Hpad; lia).
  assert (Hbig : leftover <> 0%nat -> (8 <= length (b32_quanta padded))%nat)
    by (intros; lia).
  destruct leftover as [|[|[|[|[|l]]]]]; simpl b32_padding.
  - split; [assumption|]. exists (b32_quanta padded).
    split; [rewrite app_nil_r; reflexivity|assumption].
  - destruct (set_tail_shape 6 (b32_quanta padded)) as [H1 H2];
      [lia|assumption|]. split; [lia|assumption].
  - destruct (set_tail_shape 4 (b32_quanta padded)) as [H1 H2];
      [lia|assumption|]. split; [lia|assumption].
  - destruct (set_tail_shape 3 (b32_quanta padded)) as [H1 H2];
      [lia|assumption|]. split; [lia|assumption].
  - destruct (set_tail_shape 1 (b32_quanta padded)) as [H1 H2];
      [lia|assumption|]. split; [lia|assumption].
  - lia.
Qed.

Lemma b32encode_chars (s : list byte) : Forall b32_char (b32encode s).
Proof.
  destruct (b32encode_shape s) as [_ (body & -> & Hbody)].
  apply Forall_app; split.
  - eapply Forall_impl; [exact Hbody|].
    intros c Hc. unfold b32_char. apply in_or_app. left. exact Hc.
  - apply Forall_replicate. unfold b32_char. apply in_or_app. right. left.
    reflexivity.
Qed.

Lemma b32_char_cases (P : byte -> Prop) (c : byte) :
  b32_char c ->
  Forall P (b32alphabet ++ [Byte.x3d]) -> P c.
Proof.
  intros Hc HP. rewrite List.Forall_forall in HP. apply HP. exact Hc.
Qed.

Ltac b32_cases c Hc :=
  pattern c; apply (b32_char_cases _ c Hc);
  repeat (apply List.Forall_cons; [vm_compute; reflexivity|]);
  apply List.Forall_nil.

Lemma b32_char_ascii (c : byte) : b32_char c -> (byte_val c <? 128) = true.
Proof. intros Hc. b32_cases c Hc. Qed.

Lemma utf8_scan_ascii (bs : list byte) :
  Forall (fun b => (byte_val b <? 128) = true) bs ->
  utf8_scan [] 0 0 0 bs = map (fun b => Some [b]) bs.
Proof.
  induction 1 as [|b bs Hb _ IH]; [reflexivity|].
  cbn [utf8_scan map]. rewrite Hb, IH. reflexivity.
Qed.

Lemma decode_ascii (bs : list byte) :
  Forall (fun b => (byte_val b <? 128) = true) bs ->
  decode bs = ok (text_of bs).
Proof.
  intros Hbs. unfold decode. rewrite (utf8_scan_ascii bs Hbs).
  replace (forallb _ _) with true; [reflexivity|].
  symmetry. clear Hbs. induction bs as [|b bs IH]; [reflexivity|exact IH].
Qed.

Lemma decode_b32encode (s : list byte) :
  decode (b32encode s) = ok (text_of (b32encode s)).
Proof.
  apply decode_ascii.
  eapply Forall_impl; [apply b32encode_chars|].
  intros c Hc. apply b32_char_ascii, Hc.
Qed.

Lemma concat_singletons (f : byte -> string) (bs : list byte) :
  Forall (fun b => f b = String (ascii_of_byte b) "") bs ->
  String.concat "" (map f bs) = text_of bs.
Proof.
  induction 1 as [|b bs Hb Hbs IH]; [reflexivity|].
  cbn [map]. destruct bs as [|b' bs'].
  - cbn. rewrite Hb. reflexivity.
  - change (String.concat "" (f b :: map f (b' :: bs')))
      with (f b +:+ ("" +:+ String.concat "" (map f (b' :: bs')))).
    rewrite IH, Hb. reflexivity.
Qed.

Lemma bytes_repr_char_b32 (c : byte) :
  b32_char c -> bytes_repr_char 39 c = String (ascii_of_byte c) "".
Proof. intros Hc. b32_cases c Hc. Qed.

Lemma not_quote_b32 (c : byte) : b32_char c -> (byte_val c =? 39) = false.
Proof. intros Hc. b32_cases c Hc. Qed.

(** The repr of a base32 text is that text between [b'] and [']. *)
Lemma bytes_repr_b32encode (s : list byte) :
  bytes_repr (b32encode s) = "b'" +:+ text_of (b32encode s) +:+ "'".
Proof.
  pose proof (b32encode_chars s) as Hchars.
  unfold bytes_repr.
  assert (Hno : existsb (fun b => byte_val b =? 39) (b32encode s) = false).
  { apply not_true_is_false. intros Hex.
    apply existsb_exists in Hex as (c & Hin & Hc).
    rewrite List.Forall_forall in Hchars.
    rewrite (not_quote_b32 c (Hchars c Hin)) in Hc. discriminate. }
  rewrite Hno. cbn [andb].
  rewrite (concat_singletons (bytes_repr_char 39)).
  - reflexivity.
  - eapply Forall_impl; [exact Hchars|].
    intros c Hc. apply bytes_repr_char_b32, Hc.
Qed.

(** ** Text lemmas *)

Lemma append_cons (a : ascii) (s t : string) :
  String a s +:+ t = String a (s +:+ t).
Proof. reflexivity. Qed.

Lemma append_nil_l (s : string) : "" +:+ s = s.
Proof. reflexivity. Qed.

Lemma append_nil_r (s : string) : s +:+ "" = s.
Proof. induction s as [|a s IH]; [reflexivity|]. rewrite append_cons, IH. reflexivity. Qed.

Lemma append_assoc (s t u : string) : (s +:+ t) +:+ u = s +:+ (t +:+ u).
Proof.
  induction s as [|a s IH]; [reflexivity|].
  rewrite !append_cons, IH. reflexivity.
Qed.

Lemma contains_append (c : ascii) (s t : string) :
  contains c (s +:+ t) = contains c s || contains c t.
Proof.
  induction s as [|a s IH]; [reflexivity|].
  rewrite append_cons. cbn [contains]. destruct (Ascii.eqb a c); [reflexivity|exact IH].
Qed.

Lemma startswith_append (p s : string) : startswith p (p +:+ s) = true.
Proof.
  induction p as [|a p IH]; [reflexivity|].
  rewrite append_cons. cbn [startswith]. rewrite Ascii.eqb_refl. exact IH.
Qed.

(** ** The lines of one entry *)

(** An entry that decodes has its three enum fields named and the digit
    count of its [algorithm] field resolved, and yields eight lines: the
    URI and the field dump. *)
Lemma decode_secrets_entry_ok (params : OtpParameter) (block : list string) :
  decode_secrets_entry params = ok block ->
  exists type_name algorithm_name digits_name n,
    OtpType.Name (type params) = ok type_name
    /\ Algorithm.Name (algorithm params) = ok algorithm_name
    /\ DigitCount.Name (digits params) = ok digits_name
    /\ num_digits (algorithm params) = ok n
    /\ block =
       [ "  " +:+ otpauth_uri type_name algorithm_name n params;
         "  secret: b'" +:+ text_of (b32encode (secret params)) +:+ "'";
         "  name: " +:+ name params;
         "  issuer: " +:+ issuer params;
         "  algorithm: " +:+ algorithm_name;
         "  digits: " +:+ digits_name;
         "  type: " +:+ type_name;
         "  counter: " +:+ str_int (counter params) +:+ String "010" "" ].
Proof.
  unfold decode_secrets_entry.
  rewrite decode_b32encode, bytes_repr_b32encode.
  destruct (OtpType.Name (type params)) as [e|type_name]; [discriminate|].
  destruct (Algorithm.Name (algorithm params)) as [e|algorithm_name];
    [discriminate|].
  destruct (num_digits (algorithm params)) as [e|n]; [discriminate|].
  destruct (DigitCount.Name (digits params)) as [e|digits_name];
    [discriminate|].
  cbn [rbind ok]. intros Hblock.
  exists type_name, algorithm_name, digits_name, n.
  repeat (split; [reflexivity|]).
  injection Hblock as <-. unfold otpauth_uri.
  rewrite !append_assoc. reflexivity.
Qed.

(** The converse: the entry decodes whenever the four resolutions
    succeed. *)
Lemma decode_secrets_entry_total (params : OtpParameter)
    (type_name algorithm_name digits_name : string) (n : Z) :
  OtpType.Name (type params) = ok type_name ->
  Algorithm.Name (algorithm params) = ok algorithm_name ->
  DigitCount.Name (digits params) = ok digits_name ->
  num_digits (algorithm params) = ok n ->
  exists block, decode_secrets_entry params = ok block.
Proof.
  intros Ht Ha Hd Hn. unfold decode_secrets_entry.
  rewrite decode_b32encode, Ht, Ha, Hn, Hd. cbn [rbind ok].
  eexists. reflexivity.
Qed.

(** C8: base32 encoding of a secret is a total function of the bytes: the
    empty secret gives the empty text, every secret gives eight characters
    per started group of five bytes, made of digits of the RFC 4648
    alphabet followed by the pad characters the RFC prescribes, and the
    text is never rejected when it is turned into a string; the URI and
    the dump of an entry carry that text whole, pad characters
    included. *)
Theorem b32encode_total_with_padding (s : list byte) :
  b32encode [] = []
  /\ length (b32encode s) = (8 * ((length s + 4) / 5))%nat
  /\ (exists body,
        b32encode s = body ++ replicate (b32_padding (length s mod 5)) Byte.x3d
        /\ Forall (fun d => In d b32alphabet) body)
  /\ decode (b32encode s) = ok (text_of (b32encode s))
  /\ (forall params block,
        secret params = s ->
        decode_secrets_entry params = ok block ->
        exists before after,
          nth_error block 0
          = Some (before +:+ "?secret=" +:+ text_of (b32encode s)
                  +:+ "&issuer=" +:+ after)
          /\ nth_error block 1
             = Some ("  secret: b'" +:+ text_of (b32encode s) +:+ "'")).
Proof.
  split; [reflexivity|].
  destruct (b32encode_shape s) as [Hlen Hbody].
  split; [exact Hlen|]. split; [exact Hbody|].
  split; [apply decode_b32encode|].
  intros params block <- Hblock.
  destruct (decode_secrets_entry_ok params block Hblock)
    as (type_name & algorithm_name & digits_name & n & _ & _ & _ & _ & ->).
  exists ("  otpauth://" +:+ lower type_name +:+ "/" +:+ quote (issuer params)
          +:+ ":" +:+ quote (name params)).
  exists (quote (issuer params) +:+ "&algorithm=" +:+ lower algorithm_name
          +:+ "&digits=" +:+ str_int n
          +:+ "&counter=" +:+ str_int (counter params)).
  split; [|reflexivity].
  cbn [nth_error]. unfold otpauth_uri.
  rewrite !append_assoc. reflexivity.
Qed.

Lemma b32encode_total_with_padding_witness :
  (exists body,
     b32encode [Byte.x61] = body ++ replicate 6 Byte.x3d
     /\ Forall (fun d => In d b32alphabet) body)
  /\ exists before after,
       nth_error
         [ "  otpauth://hotp/ACME:bob?secret=ME======&issuer=ACME&algorithm=sha1&digits=6&counter=7";
           "  secret: b'ME======'"; "  name: bob"; "  issuer: ACME";
           "  algorithm: SHA1"; "  digits: SIX"; "  type: HOTP";
           "  counter: 7" +:+ String "010" "" ] 0
       = Some (before +:+ "?secret=" +:+ "ME======" +:+ "&issuer=" +:+ after)
       /\ nth_error
            [ "  otpauth://hotp/ACME:bob?secret=ME======&issuer=ACME&algorithm=sha1&digits=6&counter=7";
              "  secret: b'ME======'"; "  name: bob"; "  issuer: ACME";
              "  algorithm: SHA1"; "  digits: SIX"; "  type: HOTP";
              "  counter: 7" +:+ String "010" "" ] 1
          = Some ("  secret: b'" +:+ "ME======" +:+ "'").
Proof.
  destruct (b32encode_total_with_padding [Byte.x61])
    as (_ & _ & Hbody & _ & Hentry).
  split; [exact Hbody|].
  exact (Hentry one_byte_entry _ eq_refl eq_refl).
Defined.

(** C10: in the block of an entry the field dump shows the base32 secret
    as a bytes literal, between [b'] and ['], while the [secret=]
    parameter of the URI of the same block is the same base32 text as it
    is. *)
Theorem secret_dump_is_bytes_literal (params : OtpParameter)
    (block : list string) :
  decode_secrets_entry params = ok block ->
  exists before after,
    nth_error block 0
    = Some (before +:+ "?secret=" +:+ text_of (b32encode (secret params))
            +:+ "&issuer=" +:+ after)
    /\ nth_error block 1
       = Some ("  secret: b'" +:+ text_of (b32encode (secret params)) +:+ "'").
Proof.
  intros Hblock.
  destruct (decode_secrets_entry_ok params block Hblock)
    as (type_name & algorithm_name & digits_name & n & _ & _ & _ & _ & ->).
  exists ("  otpauth://" +:+ lower type_name +:+ "/" +:+ quote (issuer params)
          +:+ ":" +:+ quote (name params)).
  exists (quote (issuer params) +:+ "&algorithm=" +:+ lower algorithm_name
          +:+ "&digits=" +:+ str_int n
          +:+ "&counter=" +:+ str_int (counter params)).
  split; [|reflexivity].
  cbn [nth_error]. unfold otpauth_uri.
  rewrite !append_assoc. reflexivity.
Qed.

(** ** Percent-encoding of issuer and name *)

Lemma quoter_safe (b : byte) :
  is_safe b = true -> quoter b = String (ascii_of_byte b) "".
Proof. intros Hb. unfold quoter. rewrite Hb. reflexivity. Qed.

(** [quote_from_bytes] maps every byte through the quoter; the shortcut
    it takes for text that is all safe gives the same result. *)
Lemma quote_from_bytes_bytewise (bs : list byte) :
  quote_from_bytes bs = String.concat "" (map quoter bs).
Proof.
  unfold quote_from_bytes. destruct (forallb is_safe bs) eqn:Hsafe; [|reflexivity].
  symmetry. apply concat_singletons.
  apply List.Forall_forall. intros b Hb. apply quoter_safe.
  rewrite forallb_forall in Hsafe. apply Hsafe, Hb.
Qed.

Lemma contains_concat (c : ascii) (l : list string) :
  contains c (String.concat "" l) = existsb (contains c) l.
Proof.
  induction l as [|x l IH]; [reflexivity|].
  destruct l as [|y l].
  - cbn. rewrite orb_false_r. reflexivity.
  - change (String.concat "" (x :: y :: l))
      with (x +:+ ("" +:+ String.concat "" (y :: l))).
    rewrite append_nil_l, contains_append, IH. reflexivity.
Qed.

Lemma quoter_no_reserved (c : ascii) (b : byte) :
  In c reserved -> contains c (quoter b) = false.
Proof.
  intros Hc. unfold reserved in Hc. cbn [In] in Hc.
  destruct Hc as [<-|[<-|[<-|[<-|[]]]]]; destruct b; vm_compute; reflexivity.
Qed.

Lemma quote_no_reserved (c : ascii) (s : string) :
  In c reserved -> contains c (quote s) = false.
Proof.
  intros Hc. unfold quote.
  rewrite quote_from_bytes_bytewise, contains_concat.
  apply not_true_is_false. intros Hex.
  apply existsb_exists in Hex as (q & Hq & Hcq).
  apply in_map_iff in Hq as (b & <- & _).
  rewrite (quoter_no_reserved c b Hc) in Hcq. discriminate.
Qed.

(** C7: the URI of an entry carries the issuer and the name through
    [quote]: byte by byte, a safe byte is kept and any other becomes
    [%XX]; [':'], ['@'], ['?'] and ['&'] become [%3A], [%40], [%3F] and
    [%26], so none of them is left in the encoded issuer or name. *)
Theorem issuer_and_name_are_percent_encoded (params : OtpParameter)
    (block : list string) :
  decode_secrets_entry params = ok block ->
  (exists type_name after,
     nth_error block 0
     = Some ("  otpauth://" +:+ type_name +:+ "/" +:+ quote (issuer params)
             +:+ ":" +:+ quote (name params) +:+ "?secret="
             +:+ text_of (b32encode (secret params))
             +:+ "&issuer=" +:+ quote (issuer params) +:+ after))
  /\ (forall s, quote s = String.concat "" (map quoter (encode s)))
  /\ (quote ":" = "%3A" /\ quote "@" = "%40" /\ quote "?" = "%3F"
      /\ quote "&" = "%26")
  /\ (forall c, In c reserved ->
        contains c (quote (issuer params)) = false
        /\ contains c (quote (name params)) = false).
Proof.
  intros Hblock.
  destruct (decode_secrets_entry_ok params block Hblock)
    as (type_name & algorithm_name & digits_name & n & _ & _ & _ & _ & ->).
  split; [|split; [|split]].
  - exists (lower type_name).
    exists ("&algorithm=" +:+ lower algorithm_name +:+ "&digits=" +:+ str_int n
            +:+ "&counter=" +:+ str_int (counter params)).
    reflexivity.
  - intros s. apply quote_from_bytes_bytewise.
  - repeat split; reflexivity.
  - intros c Hc. split; apply quote_no_reserved, Hc.
Qed.

Lemma issuer_and_name_are_percent_encoded_witness :
  (exists type_name after,
     nth_error
       [ "  otpauth://totp/Example:alice%40example.com?secret=AAAAAAAAAAAAAAAA&issuer=Example&algorithm=sha1&digits=6&counter=0";
         "  secret: b'AAAAAAAAAAAAAAAA'"; "  name: alice@example.com";
         "  issuer: Example"; "  algorithm: SHA1"; "  digits: SIX";
         "  type: TOTP"; "  counter: 0" +:+ String "010" "" ] 0
     = Some ("  otpauth://" +:+ type_name +:+ "/" +:+ quote "Example"
             +:+ ":" +:+ quote "alice@example.com" +:+ "?secret="
             +:+ text_of (b32encode (replicate 10 Byte.x00))
             +:+ "&issuer=" +:+ quote "Example" +:+ after))
  /\ contains "@" (quote "alice@example.com") = false.
Proof.
  destruct (issuer_and_name_are_percent_encoded scenario_entry _ eq_refl)
    as (Huri & _ & _ & Hreserved).
  split; [exact Huri|].
  apply (Hreserved "@"%char). right. left. reflexivity.
Defined.

Lemma secret_dump_is_bytes_literal_witness :
  exists before after,
    nth_error
      [ "  otpauth://totp/Example:alice%40example.com?secret=AAAAAAAAAAAAAAAA&issuer=Example&algorithm=sha1&digits=6&counter=0";
        "  secret: b'AAAAAAAAAAAAAAAA'"; "  name: alice@example.com";
        "  issuer: Example"; "  algorithm: SHA1"; "  digits: SIX";
        "  type: TOTP"; "  counter: 0" +:+ String "010" "" ] 0
    = Some (before +:+ "?secret=" +:+ "AAAAAAAAAAAAAAAA" +:+ "&issuer=" +:+ after)
    /\ nth_error
         [ "  otpauth://totp/Example:alice%40example.com?secret=AAAAAAAAAAAAAAAA&issuer=Example&algorithm=sha1&digits=6&counter=0";
           "  secret: b'AAAAAAAAAAAAAAAA'"; "  name: alice@example.com";
           "  issuer: Example"; "  algorithm: SHA1"; "  digits: SIX";
           "  type: TOTP"; "  counter: 0" +:+ String "010" "" ] 1
       = Some ("  secret: b'" +:+ "AAAAAAAAAAAAAAAA" +:+ "'").
Proof.
  exact (secret_dump_is_bytes_literal scenario_entry _ eq_refl).
Defined.

(** ** The digits parameter of the URI *)

(** C1: the entry with six digits and SHA256 has the digit count of its
    [digits] field resolved to 6, yet its URI says [digits=8], the count
    [num_digits] gives the number of its [algorithm] field; the dump of
    the same block names the [digits] field SIX.  With SHA512 the same
    entry is not decoded at all. *)
Theorem digits_parameter_resolves_algorithm_field :
  num_digits (digits sha256_entry) = ok 6
  /\ decode_secrets_entry sha256_entry
     = ok [ "  otpauth://totp/Example:alice%40example.com?secret=AAAAAAAAAAAAAAAA&issuer=Example&algorithm=sha256&digits=8&counter=0";
            "  secret: b'AAAAAAAAAAAAAAAA'"; "  name: alice@example.com";
            "  issuer: Example"; "  algorithm: SHA256"; "  digits: SIX";
            "  type: TOTP"; "  counter: 0" +:+ String "010" "" ]
  /\ num_digits (digits sha512_entry) = ok 6
  /\ decode_secrets_entry sha512_entry
     = raise (ValueError "Invalid DigitCount, expecting SIX or EIGHT").
Proof. repeat split; vm_compute; reflexivity. Qed.

(** ** The concrete scenario *)

(** The report of the scenario payload holds no URI that begins as
    [otpauth://totp/Example%3Aalice%40example.com?secret=AAAAAAAAAAAAAAAA====]:
    the colon between issuer and name is written as it is, and the base32
    text of ten bytes has no padding. *)
Lemma scenario_uri_has_plain_colon_and_no_padding :
  exists report,
    decode_secrets (Message scenario_payload) = ok report
    /\ occurs "otpauth://totp/Example%3Aalice%40example.com?secret=AAAAAAAAAAAAAAAA===="
         report = false
    /\ occurs "Example%3Aalice" report = false
    /\ occurs "AAAAAAAAAAAAAAAA=" report = false.
Proof. eexists. repeat split; vm_compute; reflexivity. Qed.

(** C3: decoding the scenario payload yields a report that contains
    [issuer: Example] and [digits: SIX], each on a line of its own with two
    spaces before it, and a URI that begins
    [otpauth://totp/Example:alice%40example.com?secret=AAAAAAAAAAAAAAAA&issuer=Example]:
    a plain colon between issuer and name, and sixteen base32 digits with
    no padding. *)
Theorem scenario_report :
  decode_secrets (Message scenario_payload)
  = ok (join (String "010" "") scenario_lines)
  /\ In "  issuer: Example" scenario_lines
  /\ In "  digits: SIX" scenario_lines
  /\ (exists uri_rest,
        In ("  otpauth://totp/Example:alice%40example.com?secret=AAAAAAAAAAAAAAAA&issuer=Example"
            +:+ uri_rest) scenario_lines)
  /\ occurs "issuer: Example" (join (String "010" "") scenario_lines) = true
  /\ occurs "digits: SIX" (join (String "010" "") scenario_lines) = true
  /\ occurs "otpauth://totp/Example:alice%40example.com?secret=AAAAAAAAAAAAAAAA&issuer=Example"
       (join (String "010" "") scenario_lines) = true.
Proof.
  split; [vm_compute; reflexivity|].
  split; [unfold scenario_lines; cbn [In]; tauto|].
  split; [unfold scenario_lines; cbn [In]; tauto|].
  split; [exists "&algorithm=sha1&digits=6&counter=0";
          unfold scenario_lines; cbn [In]; tauto|].
  repeat split; vm_compute; reflexivity.
Qed.

(** ** Transport decoding *)

Lemma rbind_only_ValueError {A B} (r : result A) (k : A -> result B) :
  raises_only_ValueError r ->
  (forall a, raises_only_ValueError (k a)) ->
  raises_only_ValueError (rbind r k).
Proof. intros Hr Hk. destruct r as [e|a]; [exact Hr|apply Hk]. Qed.

Lemma parse_qs_values_nonempty (qs k : string) (values : list string) :
  parse_qs qs !! k = Some values -> values <> [].
Proof.
  unfold parse_qs.
  assert (Hgen : forall (l : list (string * string))
                   (m : gmap string (list string)),
             (forall k vs, m !! k = Some vs -> vs <> []) ->
             forall k vs,
               fold_left (fun (parsed_result : gmap string (list string)) nv =>
                            match parsed_result !! nv.1 with
                            | Some values => <[nv.1 := values ++ [nv.2]]> parsed_result
                            | None => <[nv.1 := [nv.2]]> parsed_result
                            end) l m !! k = Some vs -> vs <> []).
  { induction l as [|[n v] l IH]; intros m Hm k' vs; [apply Hm|].
    cbn [fold_left]. apply IH. clear k' vs. intros k' vs. cbn [fst snd].
    destruct (m !! n) as [old|] eqn:Hold.
    - destruct (decide (n = k')) as [->|Hne].
      + rewrite lookup_insert_eq. intros [= <-]. destruct old; discriminate.
      + rewrite lookup_insert_ne by exact Hne. apply Hm.
    - destruct (decide (n = k')) as [->|Hne].
      + rewrite lookup_insert_eq. intros [= <-]. discriminate.
      + rewrite lookup_insert_ne by exact Hne. apply Hm. }
  apply Hgen. intros k' vs. rewrite lookup_empty. discriminate.
Qed.

Section Transport.

Context `{Unicodedata_Ipaddress}.

Lemma check_bracketed_host_raises (hostname : string) :
  raises_only_ValueError (check_bracketed_host hostname).
Proof.
  unfold check_bracketed_host.
  destruct (startswith "v" hostname).
  - destruct (IPvFuture hostname); exact I.
  - destruct (ip_address hostname) as [msg|[|]]; exact I.
Qed.

Lemma check_bracketed_netloc_raises (netloc : string) :
  raises_only_ValueError (check_bracketed_netloc netloc).
Proof.
  unfold check_bracketed_netloc.
  destruct (partition "[" _) as [[before bracketed]|].
  - destruct before; [|exact I].
    destruct (partition "]" bracketed) as [[h p]|].
    + destruct p as [|c p]; [apply check_bracketed_host_raises|].
      destruct (ord c =? 58); [apply check_bracketed_host_raises|exact I].
    + apply check_bracketed_host_raises.
  - apply check_bracketed_host_raises.
Qed.

Lemma checknetloc_raises (netloc : string) :
  raises_only_ValueError (checknetloc netloc).
Proof.
  unfold checknetloc.
  destruct (_ || _); [exact I|].
  destruct (String.eqb _ _); [exact I|].
  destruct (existsb _ _); exact I.
Qed.

Lemma urlsplit_raises (url : string) : raises_only_ValueError (urlsplit url).
Proof.
  unfold urlsplit.
  destruct (split_scheme _) as [scheme rest].
  apply rbind_only_ValueError.
  - destruct (startswith "//" rest); [|exact I].
    destruct (splitnetloc _) as [netloc rest'].
    destruct (xorb _ _); [exact I|].
    apply rbind_only_ValueError; [|intros; exact I].
    destruct (_ && _); [apply check_bracketed_netloc_raises|exact I].
  - intros [netloc rest'].
    destruct (match partition "#" rest' with
              | Some (u, f) => (u, f)
              | None => (rest', "")
              end) as [u fragment].
    destruct (match partition "?" u with
              | Some (u0, q) => (u0, q)
              | None => (u, "")
              end) as [u' query].
    apply rbind_only_ValueError; [apply checknetloc_raises|intros; exact I].
Qed.

Lemma urlparse_raises (url : string) : raises_only_ValueError (urlparse url).
Proof.
  unfold urlparse. apply rbind_only_ValueError; [apply urlsplit_raises|].
  intros [[[[scheme netloc] path] query] fragment].
  destruct (if _ && _ then _ else _). exact I.
Qed.

(** What [parse_url] does with a URL that [urlparse] accepts. *)
Lemma parse_url_parsed (url : string) (parsed : ParseResult) :
  urlparse url = ok parsed ->
  parse_url url
  = if negb (String.eqb (scheme parsed) "otpauth-migration") then
      raise (TypeError "Only otpauth-migration URLs can be parsed")
    else match parse_qs (query parsed) !! "data" with
         | None => raise (ValueError "Missing `data` field in query string")
         | Some [] => raise (IndexError "list index out of range")
         | Some (v :: _) => ok (unquote v)
         end.
Proof.
  intros Hparsed. unfold parse_url. rewrite Hparsed. cbn [rbind ok].
  destruct (negb _); [reflexivity|].
  destruct (parse_qs (query parsed) !! "data") as [[|v values]|]; reflexivity.
Qed.

(** Every exception of [parse_url] is one that [process_url] catches. *)
Lemma parse_url_raises (url : string) (e : exception) :
  parse_url url = raise e -> is_TypeError_or_ValueError e = true.
Proof.
  destruct (urlparse url) as [e'|parsed] eqn:Hparsed.
  - pose proof (urlparse_raises url) as Hraises. rewrite Hparsed in Hraises.
    unfold parse_url. rewrite Hparsed. cbn [rbind].
    intros [= <-]. destruct e'; try contradiction. reflexivity.
  - rewrite (parse_url_parsed url parsed Hparsed).
    destruct (negb _); [intros [= <-]; reflexivity|].
    destruct (parse_qs (query parsed) !! "data") as [[|v values]|] eqn:Hdata.
    + exfalso. exact (parse_qs_values_nonempty _ _ _ Hdata eq_refl).
    + discriminate.
    + intros [= <-]. reflexivity.
Qed.

(** A failure of [parse_url] costs one line on the error stream and yields
    no report. *)
Lemma process_url_parse_failure (url : string) (e : exception) (w : world) :
  parse_url url = raise e ->
  process_url url w
  = (ok None, {| stderr := stderr w ++ [exception_str e]; stdout := stdout w;
                 files := files w |}).
Proof.
  intros Hfail. unfold process_url.
  rewrite Hfail. unfold raise.
  rewrite (parse_url_raises url e Hfail). reflexivity.
Qed.

(** Past [parse_url] nothing is caught and nothing is printed. *)
Lemma process_url_parsed (url data : string) (w : world) :
  parse_url url = ok data ->
  process_url url w
  = ((decoded_data <- decode_qs data ;;
      payload <- FromString decoded_data ;;
      report <- decode_secrets (Message payload) ;;
      ok (Some report))%result, w).
Proof. intros Hdata. unfold process_url. rewrite Hdata. reflexivity. Qed.

End Transport.

Lemma split_without_separator (c : ascii) (s : string) :
  contains c s = false -> split c s = [s].
Proof.
  induction s as [|a s IH]; [reflexivity|].
  cbn [contains split]. destruct (Ascii.eqb a c); [discriminate|].
  intros Hs. rewrite (IH Hs). reflexivity.
Qed.

(** The query [data=raw], of one field: its value is read with ['+'] as a
    space and percent-decoded. *)
Lemma parse_qs_data_field (raw : string) :
  raw <> "" -> contains "&" raw = false ->
  parse_qs ("data=" +:+ raw) !! "data" = Some [unquote (replace "+" " " raw)].
Proof.
  intros Hraw Hamp. unfold parse_qs, parse_qsl.
  change ("data=" +:+ raw)
    with (String "d" (String "a" (String "t" (String "a" (String "=" raw))))).
  rewrite split_without_separator by exact Hamp.
  destruct raw as [|c raw]; [contradiction|].
  cbn [flat_map partition Ascii.eqb Bool.eqb app fold_left fst snd].
  change (unquote (replace "+" " " "data")) with "data".
  rewrite lookup_empty, lookup_insert_eq. reflexivity.
Qed.

(** The step of the loop of [parse_qs]. *)
Definition parse_qs_step (parsed_result : gmap string (list string))
    (nv : string * string) : gmap string (list string) :=
match parsed_result !! nv.1 with
| Some values => <[nv.1 := values ++ [nv.2]]> parsed_result
| None => <[nv.1 := [nv.2]]> parsed_result
end.

(** The values of the fields named [k], in order. *)
Definition values_of (k : string) (pairs : list (string * string)) : list string :=
map snd (List.filter (fun nv => String.eqb (fst nv) k) pairs).

Lemma parse_qs_fold_lookup (pairs : list (string * string))
    (m : gmap string (list string)) (k : string) :
  fold_left parse_qs_step pairs m !! k
  = match m !! k with
    | Some old => Some (old ++ values_of k pairs)
    | None => match values_of k pairs with
              | [] => None
              | v :: vs => Some (v :: vs)
              end
    end.
Proof.
  revert m. induction pairs as [|[n v] pairs IH]; intros m.
  - cbn. destruct (m !! k); [rewrite app_nil_r|]; reflexivity.
  - cbn [fold_left]. rewrite IH. unfold values_of. cbn [List.filter fst].
    unfold parse_qs_step at 1. cbn [fst snd].
    destruct (String.eqb_spec n k) as [->|Hne].
    + cbn [map snd]. destruct (m !! k) as [old|] eqn:Hold.
      * rewrite lookup_insert_eq, <- app_assoc. reflexivity.
      * rewrite lookup_insert_eq. reflexivity.
    + destruct (m !! n) as [old|]; rewrite lookup_insert_ne by exact Hne;
        reflexivity.
Qed.

(** [parse_qs] gives each name the values of its fields, in order. *)
Lemma parse_qs_lookup (qs k : string) :
  parse_qs qs !! k
  = match values_of k (parse_qsl qs) with
    | [] => None
    | v :: vs => Some (v :: vs)
    end.
Proof.
  unfold parse_qs.
  change (fold_left _ (parse_qsl qs) ∅)
    with (fold_left parse_qs_step (parse_qsl qs) ∅).
  rewrite parse_qs_fold_lookup, lookup_empty. reflexivity.
Qed.

Lemma values_of_find (k : string) (pairs : list (string * string)) :
  match values_of k pairs with
  | [] => List.find (fun nv => String.eqb (fst nv) k) pairs = None
  | v :: _ => exists n, List.find (fun nv => String.eqb (fst nv) k) pairs
                        = Some (n, v)
  end.
Proof.
  unfold values_of. induction pairs as [|[n v] pairs IH]; [reflexivity|].
  cbn [List.filter List.find fst].
  destruct (String.eqb n k); [exists n; reflexivity|exact IH].
Qed.

(** [parse_qs] has no entry for [data] exactly when the query has no
    [data] parameter with a value. *)
Lemma parse_qs_data_absent (qs : string) :
  parse_qs qs !! "data" = None <-> ~ has_data_value qs.
Proof.
  rewrite parse_qs_lookup. unfold has_data_value, values_of.
  assert (Hpairs : forall n v,
             In (n, v) (parse_qsl qs)
             <-> exists field name value,
                   In field (split "&" qs)
                   /\ partition "=" field = Some (name, value)
                   /\ value <> ""
                   /\ unquote (replace "+" " " name) = n
                   /\ unquote (replace "+" " " value) = v).
  { intros n v. unfold parse_qsl. rewrite in_flat_map. split.
    - intros (field & Hin & Hpair).
      destruct qs as [|a qs]; [destruct Hin|].
      destruct (partition "=" field) as [[name [|c value]]|] eqn:Hfield;
        try (destruct Hpair; fail).
      destruct Hpair as [[= <- <-]|[]].
      exists field, name, (String c value).
      repeat split; [exact Hin|exact Hfield|discriminate].
    - intros (field & name & value & Hin & Hfield & Hvalue & <- & <-).
      exists field. split.
      + destruct qs as [|a qs]; [|exact Hin].
        cbn [split In] in Hin. destruct Hin as [<-|[]]. discriminate.
      + rewrite Hfield. destruct value as [|c value]; [contradiction|].
        left. reflexivity. }
  split.
  - intros Hnone (field & name & value & Hin & Hfield & Hvalue & Hname).
    assert (Hpair : In ("data", unquote (replace "+" " " value))
                      (parse_qsl qs)).
    { apply Hpairs. exists field, name, value. repeat split; assumption. }
    destruct (List.filter _ (parse_qsl qs)) as [|nv kept] eqn:Hkept;
      [|discriminate].
    assert (Hin' : In ("data", unquote (replace "+" " " value))
                     (List.filter (fun nv => String.eqb (fst nv) "data")
                        (parse_qsl qs)))
      by (apply filter_In; split; [exact Hpair|reflexivity]).
    rewrite Hkept in Hin'. destruct Hin'.
  - intros Hno.
    destruct (List.filter _ (parse_qsl qs)) as [|[n v] kept] eqn:Hkept;
      [reflexivity|].
    exfalso. apply Hno.
    assert (Hin : In (n, v) (List.filter (fun nv => String.eqb (fst nv) "data")
                               (parse_qsl qs)))
      by (rewrite Hkept; left; reflexivity).
    apply filter_In in Hin as [Hin Hname]. cbn [fst] in Hname.
    apply String.eqb_eq in Hname. subst n.
    apply Hpairs in Hin as (field & name & value & H1 & H2 & H3 & H4 & _).
    exists field, name, value. repeat split; assumption.
Qed.

Section TransportClaims.

Context `{Unicodedata_Ipaddress}.

(** C4: for a URL that [urlparse] accepts, transport decoding fails with
    the scheme error exactly when the scheme is not [otpauth-migration],
    and with the missing-data error exactly when the scheme is
    [otpauth-migration] and no field of the query is a [data] parameter
    with a value that is not empty; in either case [process_url] prints
    exactly one diagnostic, the text of that error, and returns no
    report. *)
Theorem transport_failures (url : string) (parsed : ParseResult) (w : world) :
  urlparse url = ok parsed ->
  (parse_url url = raise (TypeError "Only otpauth-migration URLs can be parsed")
   <-> scheme parsed <> "otpauth-migration")
  /\ (parse_url url = raise (ValueError "Missing `data` field in query string")
      <-> scheme parsed = "otpauth-migration"
          /\ ~ has_data_value (query parsed))
  /\ (scheme parsed <> "otpauth-migration" ->
      process_url url w
      = (ok None, logged w ["Only otpauth-migration URLs can be parsed"]))
  /\ (scheme parsed = "otpauth-migration" ->
      ~ has_data_value (query parsed) ->
      process_url url w
      = (ok None, logged w ["Missing `data` field in query string"])).
Proof.
  intros Hparsed.
  pose proof (parse_url_parsed url parsed Hparsed) as Hurl.
  pose proof (parse_qs_data_absent (query parsed)) as Habsent.
  destruct (String.eqb_spec (scheme parsed) "otpauth-migration") as [Hs|Hs];
    cbn [negb] in Hurl.
  - destruct (parse_qs (query parsed) !! "data") as [[|v values]|] eqn:Hdata.
    + exfalso. exact (parse_qs_values_nonempty _ _ _ Hdata eq_refl).
    + assert (Hhas : ~ ~ has_data_value (query parsed)).
      { intros Hno. apply Habsent in Hno. discriminate. }
      rewrite Hurl. split; [|split; [|split]].
      * split; [discriminate|intros Hne; contradiction].
      * split; [discriminate|intros [_ Hno]; contradiction].
      * intros Hne. contradiction.
      * intros _ Hno. contradiction.
    + assert (Hno : ~ has_data_value (query parsed))
        by (apply Habsent; reflexivity).
      split; [|split; [|split]].
      * rewrite Hurl. split; [discriminate|intros Hne; contradiction].
      * split; [intros _; split; [exact Hs|exact Hno]|intros _; exact Hurl].
      * intros Hne. contradiction.
      * intros _ _. apply (process_url_parse_failure _ _ w Hurl).
  - split; [|split; [|split]].
    + split; [intros _; exact Hs|intros _; exact Hurl].
    + rewrite Hurl. split; [discriminate|intros [Heq _]; contradiction].
    + intros _. apply (process_url_parse_failure _ _ w Hurl).
    + intros Heq. contradiction.
Qed.

(** C6: the [data] value is percent-decoded three times before base64
    decoding: by [parse_qs], which also reads ['+'] as a space, by
    [parse_url] and by [decode_qs].  Whatever value [parse_qs] gives for
    [data], two more decodings follow it; for a query that is the one
    field [data=raw], the text handed to [b64decode] is [raw] decoded
    three times. *)
Theorem data_is_percent_decoded_three_times (url : string)
    (parsed : ParseResult) :
  urlparse url = ok parsed ->
  scheme parsed = "otpauth-migration" ->
  (forall v values,
     parse_qs (query parsed) !! "data" = Some (v :: values) ->
     parse_url url = ok (unquote v)
     /\ (data <- parse_url url ;; decode_qs data)%result
        = b64decode (unquote (unquote v)))
  /\ (forall raw,
        query parsed = "data=" +:+ raw ->
        raw <> "" -> contains "&" raw = false ->
        (data <- parse_url url ;; decode_qs data)%result
        = b64decode (unquote (unquote (unquote (replace "+" " " raw))))).
Proof.
  intros Hparsed Hscheme.
  pose proof (parse_url_parsed url parsed Hparsed) as Hurl.
  rewrite Hscheme in Hurl. cbn [String.eqb Ascii.eqb Bool.eqb negb] in Hurl.
  assert (Hgen : forall v values,
             parse_qs (query parsed) !! "data" = Some (v :: values) ->
             parse_url url = ok (unquote v)
             /\ (data <- parse_url url ;; decode_qs data)%result
                = b64decode (unquote (unquote v))).
  { intros v values Hdata. rewrite Hdata in Hurl.
    split; [exact Hurl|]. rewrite Hurl. reflexivity. }
  split; [exact Hgen|].
  intros raw Hquery Hraw Hamp.
  apply (Hgen _ []). rewrite Hquery. apply parse_qs_data_field; assumption.
Qed.

End TransportClaims.

(** Neither direction of "the missing-data error exactly when the query
    has no [data] parameter" holds.  A URL with the scheme [http] and an
    empty query fails with the scheme error, not with the missing-data
    error; and a migration link whose query is [data=] has a [data]
    parameter and fails with the missing-data error, because [parse_qs]
    drops a parameter without a value. *)
Lemma missing_data_error_differs_from_absent_data :
  (exists parsed,
     urlparse "http://example.com/" = ok parsed
     /\ query parsed = ""
     /\ parse_url "http://example.com/"
        = raise (TypeError "Only otpauth-migration URLs can be parsed")
     /\ parse_url "http://example.com/"
        <> raise (ValueError "Missing `data` field in query string"))
  /\ (exists parsed,
        urlparse "otpauth-migration://offline?data=" = ok parsed
        /\ scheme parsed = "otpauth-migration"
        /\ query parsed = "data="
        /\ parse_url "otpauth-migration://offline?data="
           = raise (ValueError "Missing `data` field in query string")).
Proof.
  split.
  - eexists. split; [vm_compute; reflexivity|].
    split; [vm_compute; reflexivity|].
    split; [vm_compute; reflexivity|]. vm_compute. discriminate.
  - eexists. split; [vm_compute; reflexivity|].
    repeat split; vm_compute; reflexivity.
Qed.

Lemma transport_failures_witness :
  process_url "http://example.com/?data=QQ%3D%3D" empty_world
  = (ok None, logged empty_world ["Only otpauth-migration URLs can be parsed"])
  /\ process_url "otpauth-migration://offline?data=&date=QQ%3D%3D" empty_world
     = (ok None, logged empty_world ["Missing `data` field in query string"]).
Proof.
  split.
  - eapply (transport_failures "http://example.com/?data=QQ%3D%3D" _ empty_world).
    + vm_compute. reflexivity.
    + vm_compute. discriminate.
  - eapply (transport_failures
              "otpauth-migration://offline?data=&date=QQ%3D%3D" _ empty_world).
    + vm_compute. reflexivity.
    + vm_compute. reflexivity.
    + apply parse_qs_data_absent. vm_compute. reflexivity.
Defined.

(** With the data [QQ%25253D%25253D], [parse_qs] gives [QQ%253D%253D]; one
    more decoding gives [QQ%3D%3D], which is not base64 text, yet the
    pipeline decodes the link to the byte [A]: it decodes once more. *)
Lemma third_decoding_reaches_base64 :
  exists parsed,
    urlparse thrice_encoded_url = ok parsed
    /\ parse_qs (query parsed) !! "data" = Some ["QQ%253D%253D"]
    /\ unquote "QQ%253D%253D" = "QQ%3D%3D"
    /\ b64decode "QQ%3D%3D" = raise (binascii_Error "Incorrect padding")
    /\ (data <- parse_url thrice_encoded_url ;; decode_qs data)%result
       = ok [Byte.x41].
Proof.
  eexists. split; [vm_compute; reflexivity|].
  repeat split; vm_compute; reflexivity.
Qed.

Lemma data_is_percent_decoded_three_times_witness :
  (data <- parse_url thrice_encoded_url ;; decode_qs data)%result
  = b64decode (unquote (unquote (unquote (replace "+" " " "QQ%25253D%25253D")))).
Proof.
  eapply (data_is_percent_decoded_three_times thrice_encoded_url).
  - vm_compute. reflexivity.
  - reflexivity.
  - reflexivity.
  - discriminate.
  - reflexivity.
Defined.

(** ** The batch *)

Lemma logged_nil (w : world) : logged w [] = w.
Proof. destruct w. unfold logged. cbn. rewrite app_nil_r. reflexivity. Qed.

Lemma logged_logged (w : world) (a b : list string) :
  logged (logged w a) b = logged w (a ++ b).
Proof. unfold logged. cbn. rewrite app_assoc. reflexivity. Qed.

Section Batch.

Context `{Unicodedata_Ipaddress}.

(** [process_url] returns and prints the same in every world. *)
Lemma process_url_outcome (url : string) (w : world) :
  process_url url w = (fst (url_outcome url), logged w (snd (url_outcome url))).
Proof.
  unfold url_outcome.
  destruct (parse_url url) as [e|data] eqn:Hurl.
  - rewrite !(process_url_parse_failure url e) by exact Hurl. reflexivity.
  - rewrite !(process_url_parsed url data) by exact Hurl.
    cbn [fst snd stderr empty_world]. rewrite logged_nil. reflexivity.
Qed.

(** One step of the loop on a line that is not blank. *)
Lemma process_lines_step (results lines : list string) (line : string)
    (w : world) :
  strip line <> "" ->
  process_lines results (line :: lines) w
  = match process_url (strip line) w with
    | (inl e, w') => (inl e, w')
    | (inr (Some report), w') => process_lines (results ++ [report]) lines w'
    | (inr None, w') => process_lines results lines w'
    end.
Proof.
  intros Hline. cbn [process_lines].
  destruct (strip line) as [|c u]; [contradiction|].
  unfold bind. destruct (process_url (String c u) w) as [[e|[report|]] w'];
    reflexivity.
Qed.

Lemma process_lines_blank (results lines : list string) (line : string)
    (w : world) :
  strip line = "" ->
  process_lines results (line :: lines) w = process_lines results lines w.
Proof. intros Hline. cbn [process_lines]. rewrite Hline. reflexivity. Qed.

(** C2: a failure of [parse_url] on a line (a [TypeError] or [ValueError]:
    wrong scheme, no [data] parameter, a URL that [urlparse] rejects) is
    caught at the line: one diagnostic is printed, the line adds nothing
    to the results and the loop goes on with the remaining lines.  A
    failure after [parse_url] (base64 decoding, wire decoding, building
    the URI) is not caught: it leaves [process_url] and ends the loop,
    with no diagnostic. *)
Theorem parse_failures_are_isolated (results lines : list string)
    (line : string) (w : world) :
  strip line <> "" ->
  (forall e,
     parse_url (strip line) = raise e ->
     process_url (strip line) w = (ok None, logged w [exception_str e])
     /\ process_lines results (line :: lines) w
        = process_lines results lines (logged w [exception_str e]))
  /\ (forall data e,
        parse_url (strip line) = ok data ->
        (decoded_data <- decode_qs data ;;
         payload <- FromString decoded_data ;;
         report <- decode_secrets (Message payload) ;;
         ok (Some report))%result = raise e ->
        process_url (strip line) w = (raise e, w)
        /\ process_lines results (line :: lines) w = (raise e, w)).
Proof.
  intros Hline. split.
  - intros e Hfail.
    pose proof (process_url_parse_failure _ e w Hfail) as Hurl.
    split; [exact Hurl|].
    rewrite process_lines_step by exact Hline.
    unfold logged. rewrite Hurl. reflexivity.
  - intros data e Hdata Hfail.
    pose proof (process_url_parsed _ data w Hdata) as Hurl.
    rewrite Hfail in Hurl.
    split; [exact Hurl|].
    rewrite process_lines_step by exact Hline.
    rewrite Hurl. reflexivity.
Qed.

End Batch.

(** A batch of two lines, the first with data that is not base64 and the
    second the scenario link: the loop ends on the first line with the
    error of [b64decode], prints no diagnostic and never reads the second
    line, which alone is decoded. *)
Lemma bad_base64_line_ends_the_batch :
  process_lines [] [bad_base64_url +:+ String "010" "";
                    scenario_url +:+ String "010" ""] empty_world
  = (raise (binascii_Error
       "Invalid base64-encoded string: number of data characters (1) cannot be 1 more than a multiple of 4"),
     empty_world)
  /\ process_lines [] [scenario_url +:+ String "010" ""] empty_world
     = (ok [join (String "010" "") scenario_lines], empty_world).
Proof. split; vm_compute; reflexivity. Qed.

Lemma parse_failures_are_isolated_witness :
  process_lines [] ["http://example.com/?data=QQ%3D%3D" +:+ String "010" "";
                    scenario_url +:+ String "010" ""] empty_world
  = process_lines [] [scenario_url +:+ String "010" ""]
      (logged empty_world ["Only otpauth-migration URLs can be parsed"])
  /\ process_lines [] [bad_base64_url +:+ String "010" "";
                       scenario_url +:+ String "010" ""] empty_world
     = (raise (binascii_Error
          "Invalid base64-encoded string: number of data characters (1) cannot be 1 more than a multiple of 4"),
        empty_world).
Proof.
  pose proof (parse_failures_are_isolated [] [scenario_url +:+ String "010" ""]
                ("http://example.com/?data=QQ%3D%3D" +:+ String "010" "")
                empty_world) as Hcaught.
  pose proof (parse_failures_are_isolated [] [scenario_url +:+ String "010" ""]
                (bad_base64_url +:+ String "010" "") empty_world) as Hraised.
  assert (Hline1 : strip ("http://example.com/?data=QQ%3D%3D" +:+ String "010" "")
                   <> "") by (vm_compute; discriminate).
  assert (Hline2 : strip (bad_base64_url +:+ String "010" "") <> "")
    by (vm_compute; discriminate).
  destruct (Hcaught Hline1) as [Hcaught' _].
  destruct (Hraised Hline2) as [_ Hraised'].
  assert (Hfail : parse_url (strip ("http://example.com/?data=QQ%3D%3D"
                                    +:+ String "010" ""))
                  = raise (TypeError "Only otpauth-migration URLs can be parsed"))
    by (vm_compute; reflexivity).
  assert (Hdata : parse_url (strip (bad_base64_url +:+ String "010" "")) = ok "A")
    by (vm_compute; reflexivity).
  split.
  - exact (proj2 (Hcaught' _ Hfail)).
  - refine (proj2 (Hraised' "A" _ Hdata _)). vm_compute. reflexivity.
Defined.

(** ** The report *)

(** The loop of [decode_secrets] appends the blocks of the entries in
    their order. *)
Lemma decode_secrets_loop_blocks (l : list OtpParameter)
    (_data lines : list string) :
  decode_secrets_loop _data l = ok lines ->
  exists blocks,
    Forall2 (fun params block => decode_secrets_entry params = ok block)
      l blocks
    /\ lines = _data ++ concat blocks.
Proof.
  revert _data. induction l as [|params l IH]; intros _data.
  - cbn. intros [= <-]. exists []. split; [constructor|].
    cbn. rewrite app_nil_r. reflexivity.
  - cbn [decode_secrets_loop].
    destruct (decode_secrets_entry params) as [e|block] eqn:Hentry;
      [discriminate|].
    cbn [rbind]. intros Hloop.
    destruct (IH _ Hloop) as (blocks & Hblocks & ->).
    exists (block :: blocks). split; [constructor; assumption|].
    cbn [concat]. rewrite app_assoc. reflexivity.
Qed.

Section Report.

Context `{Unicodedata_Ipaddress}.

(** The results of a loop that ends are the reports of the decoded lines,
    in the order of the lines. *)
Lemma process_lines_order (lines results rs : list string) (w w' : world) :
  process_lines results lines w = (ok rs, w') ->
  rs = results ++ reports_in_order lines.
Proof.
  revert results w. induction lines as [|line lines IH]; intros results w.
  - cbn. intros [= <- _]. rewrite app_nil_r. reflexivity.
  - destruct (strip line) as [|c u] eqn:Hline.
    + rewrite process_lines_blank by exact Hline.
      cbn [reports_in_order]. rewrite Hline. apply IH.
    + rewrite process_lines_step by (rewrite Hline; discriminate).
      cbn [reports_in_order]. rewrite Hline.
      rewrite (process_url_outcome (String c u) w).
      destruct (fst (url_outcome (String c u))) as [e|[report|]].
      * discriminate.
      * intros Hrest. rewrite (IH _ _ Hrest), <- app_assoc. reflexivity.
      * apply IH.
Qed.

(** A batch whose lines all fail in [parse_url] runs to its end with no
    result and one diagnostic per line that is not blank. *)
Lemma process_lines_all_rejected (lines results : list string) (w : world) :
  Forall fails_in_parse_url lines ->
  process_lines results lines w
  = (ok results, logged w (parse_diagnostics lines)).
Proof.
  intros Hall. revert w.
  induction Hall as [|line lines Hline _ IH]; intros w.
  - cbn. rewrite logged_nil. reflexivity.
  - destruct (strip line) as [|c u] eqn:Hstrip.
    + rewrite process_lines_blank by exact Hstrip.
      cbn [parse_diagnostics]. rewrite Hstrip. apply IH.
    + destruct Hline as [Hblank|[e Hfail]];
        [rewrite Hstrip in Hblank; discriminate|].
      rewrite process_lines_step by (rewrite Hstrip; discriminate).
      rewrite Hstrip. rewrite Hstrip in Hfail.
      rewrite (process_url_parse_failure _ e w Hfail).
      cbn [parse_diagnostics]. rewrite Hstrip, Hfail. unfold raise.
      change (exception_str e :: parse_diagnostics lines)
        with ([exception_str e] ++ parse_diagnostics lines).
      rewrite <- logged_logged. apply IH.
Qed.

(** The first part of [main] once the arguments are parsed: the results
    of the input, a file of links or one link; then the report is handed
    over. *)
Lemma main_gathers (args : Namespace) (w : world) :
  main (Parsed args) w
  = match (if file args then
             match files w !! input args with
             | Some text =>
                 process_lines [] (lines_of (universal_newlines text)) w
             | None =>
                 (raise (SystemExit 4),
                  logged w ["File not found: " +:+ input args])
             end
           else
             match process_url (input args) w with
             | (inl e, w') => (inl e, w')
             | (inr (Some report), w') => (ok [report], w')
             | (inr None, w') => (ok [], w')
             end) with
    | (inl e, w') => (inl e, w')
    | (inr results, w') =>
        (ok tt, delivered w' (output args) (join (String "010" "") results))
    end.
Proof.
  unfold main, parse_args, bind, path_exists, read_lines, eprint, throw, ret,
    print, write_file, delivered, printed, logged, ok, raise.
  destruct (file args).
  - destruct (files w !! input args) as [text|] eqn:Htext.
    + replace (bool_decide (is_Some (Some text))) with true by reflexivity.
      cbv beta iota. rewrite Htext. cbv beta iota.
      destruct (process_lines [] _ w) as [[e|results] w']; [reflexivity|].
      destruct (output args) as [[|c p]|]; reflexivity.
    + replace (bool_decide (is_Some (@None string))) with false by reflexivity.
      reflexivity.
  - destruct (process_url (input args) w) as [[e|[report|]] w'];
      [reflexivity| |];
      destruct (output args) as [[|c p]|]; reflexivity.
Qed.

(** A run whose command line [argparse] does not accept ends there. *)
Lemma main_unparsed (w : world) :
  (forall text, main (Help text) w = (raise (SystemExit 0), printed w text))
  /\ (forall usage message,
        main (Rejected usage message) w
        = (raise (SystemExit 2), logged w [usage; message])).
Proof.
  split; [reflexivity|]. intros usage message.
  unfold main, parse_args, bind, eprint, throw, logged. cbn [stderr stdout files].
  rewrite <- app_assoc. reflexivity.
Qed.

(** C9: the report of a decoded payload is its four header lines and the
    line [otp_parameters:] followed by the block of each entry, in wire
    order; the results of a batch are the reports of the decoded lines in
    the order of the lines; and when every input fails in [parse_url]
    (wrong scheme, no [data] parameter, a URL that [urlparse] rejects)
    the run ends normally, printing one diagnostic per input, and hands
    over an empty report: printed, or written to the [--output] file. *)
Theorem report_layout_and_order (w : world) :
  (forall payload report,
     decode_secrets (Message payload) = ok report ->
     exists blocks,
       Forall2 (fun params block => decode_secrets_entry params = ok block)
         (otp_parameters payload) blocks
       /\ report
          = join (String "010" "")
              ([ "version: " +:+ str_int (version payload);
                 "batch_size: " +:+ str_int (batch_size payload);
                 "batch_index: " +:+ str_int (batch_index payload);
                 "batch_id: " +:+ str_int (batch_id payload);
                 "otp_parameters:" ] ++ concat blocks))
  /\ (forall lines rs w',
        process_lines [] lines w = (ok rs, w') -> rs = reports_in_order lines)
  /\ (forall args text,
        file args = true ->
        files w !! input args = Some text ->
        Forall fails_in_parse_url (lines_of (universal_newlines text)) ->
        main (Parsed args) w
        = (ok tt,
           delivered
             (logged w (parse_diagnostics (lines_of (universal_newlines text))))
             (output args) ""))
  /\ (forall args e,
        file args = false ->
        parse_url (input args) = raise e ->
        main (Parsed args) w
        = (ok tt, delivered (logged w [exception_str e]) (output args) "")).
Proof.
  split; [|split; [|split]].
  - intros payload report. unfold decode_secrets. cbn [rbind ok].
    destruct (decode_secrets_loop _ _) as [e|lines] eqn:Hloop; [discriminate|].
    cbn [rbind]. intros [= <-].
    destruct (decode_secrets_loop_blocks _ _ _ Hloop) as (blocks & Hblocks & ->).
    exists blocks. split; [exact Hblocks|reflexivity].
  - intros lines rs w' Hrun. apply (process_lines_order _ _ _ _ _ Hrun).
  - intros args text Hfile Htext Hall.
    rewrite main_gathers, Hfile, Htext.
    rewrite (process_lines_all_rejected _ [] w Hall). reflexivity.
  - intros args e Hfile Hfail.
    rewrite main_gathers, Hfile.
    rewrite (process_url_parse_failure _ e w Hfail). reflexivity.
Qed.

End Report.

(** A single input whose data is not base64 fails, and the run does not
    end normally: the error of [b64decode] leaves [main] and nothing is
    printed. *)
Lemma bad_base64_input_ends_the_run :
  main (Parsed {| input := bad_base64_url; file := false; output := None |})
    empty_world
  = (raise (binascii_Error
       "Invalid base64-encoded string: number of data characters (1) cannot be 1 more than a multiple of 4"),
     empty_world).
Proof. vm_compute. reflexivity. Qed.

Lemma report_layout_and_order_witness :
  (exists blocks,
     Forall2 (fun params block => decode_secrets_entry params = ok block)
       [scenario_entry] blocks
     /\ join (String "010" "") scenario_lines
        = join (String "010" "")
            ([ "version: 1"; "batch_size: 1"; "batch_index: 0"; "batch_id: 42";
               "otp_parameters:" ] ++ concat blocks))
  /\ [join (String "010" "") scenario_lines;
      join (String "010" "") scenario_lines]
     = reports_in_order
         [ scenario_url +:+ String "010" "";
           "http://example.com/?data=QQ%3D%3D" +:+ String "010" "";
           String "010" "";
           scenario_url ]
  /\ main (Parsed {| input := "batch.txt"; file := true; output := None |})
       rejected_batch_world
     = (ok tt,
        printed
          (logged rejected_batch_world
             [ "Only otpauth-migration URLs can be parsed";
               "Missing `data` field in query string" ]) "")
  /\ main (Parsed {| input := "batch.txt"; file := true;
                     output := Some "out.txt" |})
       rejected_batch_world
     = (ok tt,
        delivered
          (logged rejected_batch_world
             [ "Only otpauth-migration URLs can be parsed";
               "Missing `data` field in query string" ])
          (Some "out.txt") "")
  /\ main (Parsed {| input := "http://example.com/"; file := false;
                     output := None |})
       rejected_batch_world
     = (ok tt,
        printed
          (logged rejected_batch_world
             [ "Only otpauth-migration URLs can be parsed" ]) "").
Proof.
  destruct (report_layout_and_order rejected_batch_world)
    as (Hlayout & Horder & Hfile & Hsingle).
  assert (Hall : Forall fails_in_parse_url
                   (lines_of (universal_newlines
                      ("http://example.com/?data=QQ%3D%3D" +:+ String "010" ""
                       +:+ String "010" ""
                       +:+ "otpauth-migration://offline?date=QQ%3D%3D"
                       +:+ String "010" "")))).
  { replace (lines_of _)
      with [ "http://example.com/?data=QQ%3D%3D" +:+ String "010" "";
             String "010" "";
             "otpauth-migration://offline?date=QQ%3D%3D" +:+ String "010" "" ]
      by (vm_compute; reflexivity).
    apply List.Forall_cons; [right; eexists; vm_compute; reflexivity|].
    apply List.Forall_cons; [left; vm_compute; reflexivity|].
    apply List.Forall_cons; [right; eexists; vm_compute; reflexivity|].
    apply List.Forall_nil. }
  split; [|split; [|split; [|split]]].
  - apply (Hlayout scenario_payload). vm_compute. reflexivity.
  - apply (Horder _ _ (logged rejected_batch_world
                         ["Only otpauth-migration URLs can be parsed"])).
    vm_compute. reflexivity.
  - rewrite (Hfile {| input := "batch.txt"; file := true; output := None |}
               _ eq_refl eq_refl Hall).
    vm_compute. reflexivity.
  - rewrite (Hfile {| input := "batch.txt"; file := true;
                      output := Some "out.txt" |}
               _ eq_refl eq_refl Hall).
    vm_compute. reflexivity.
  - exact (Hsingle {| input := "http://example.com/"; file := false;
                      output := None |}
             (TypeError "Only otpauth-migration URLs can be parsed")
             eq_refl eq_refl).
Defined.

(** ** The links of the examples *)

(** The links used in the closed statements above have a plain authority:
    [parse_url] reads them the same whatever [ip_address] and
    [normalize_NFKC] are. *)
Lemma example_links_need_no_lookup (lookup : Unicodedata_Ipaddress) :
  map (@parse_url lookup)
    [ "http://example.com/"; "http://example.com/?data=QQ%3D%3D";
      "otpauth-migration://offline?date=QQ%3D%3D";
      "otpauth-migration://offline?data=";
      "otpauth-migration://offline?data=&date=QQ%3D%3D"; thrice_encoded_url;
      bad_base64_url; scenario_url ]
  = [ raise (TypeError "Only otpauth-migration URLs can be parsed");
      raise (TypeError "Only otpauth-migration URLs can be parsed");
      raise (ValueError "Missing `data` field in query string");
      raise (ValueError "Missing `data` field in query string");
      raise (ValueError "Missing `data` field in query string");
      ok "QQ%3D%3D"; ok "A";
      ok "CjAKCgAAAAAAAAAAAAASEWFsaWNlQGV4YW1wbGUuY29tGgdFeGFtcGxlIAEoATACOAAQARgBIAAoKg==" ].
Proof. vm_compute. reflexivity. Qed.

(** * Further properties of [parse.py] *)

(** ** What [process_url] does to the world and what leaves it *)

Lemma a2b_base64_go_raises (data : list byte) (quad_pos leftchar pads : Z)
    (bin_data : list byte) (e : exception) :
  a2b_base64_go quad_pos leftchar pads bin_data data = raise e ->
  exists msg, e = binascii_Error msg.
Proof.
  revert quad_pos leftchar pads bin_data.
  induction data as [|this_ch rest IH]; intros quad_pos leftchar pads bin_data.
  - cbn [a2b_base64_go].
    destruct (quad_pos =? 0); [discriminate|].
    destruct (quad_pos =? 1); intros [= <-]; eexists; reflexivity.
  - cbn [a2b_base64_go].
    destruct (byte_val this_ch =? 61).
    + destruct (_ && _); [discriminate|apply IH].
    + destruct (b64_value this_ch) as [v|]; [|apply IH].
      destruct (quad_pos =? 0); [apply IH|].
      destruct (quad_pos =? 1); [apply IH|].
      destruct (quad_pos =? 2); apply IH.
Qed.

(** [decode_qs] raises [binascii.Error] on text that is not base64 and
    [ValueError] on text that is not ASCII, and nothing else. *)
Lemma decode_qs_raises (data : string) (e : exception) :
  decode_qs data = raise e ->
  exists msg, e = binascii_Error msg \/ e = ValueError msg.
Proof.
  unfold decode_qs, b64decode.
  destruct (isascii (unquote data)).
  - intros Hraise. destruct (a2b_base64_go_raises _ _ _ _ _ _ Hraise) as [msg ->].
    exists msg. left. reflexivity.
  - intros [= <-]. eexists. right. reflexivity.
Qed.

Lemma enum_Name_raises (enum : string) (names : list (Z * string)) (number : Z)
    (e : exception) :
  enum_Name enum names number = raise e -> exists msg, e = ValueError msg.
Proof.
  unfold enum_Name. destruct (List.find _ names); [discriminate|].
  intros [= <-]. eexists. reflexivity.
Qed.

Lemma num_digits_raises (digit_count : Z) (e : exception) :
  num_digits digit_count = raise e -> exists msg, e = ValueError msg.
Proof.
  unfold num_digits.
  destruct (digit_count =? DigitCount.SIX); [discriminate|].
  destruct (digit_count =? DigitCount.EIGHT); [discriminate|].
  intros [= <-]. eexists. reflexivity.
Qed.

(** An entry that is not decoded fails with a [ValueError]: an enum number
    without a name, or a digit count that is not resolved. *)
Lemma decode_secrets_entry_raises (params : OtpParameter) (e : exception) :
  decode_secrets_entry params = raise e -> exists msg, e = ValueError msg.
Proof.
  unfold decode_secrets_entry. rewrite decode_b32encode.
  destruct (OtpType.Name (type params)) as [e1|type_name] eqn:Htype.
  { intros [= <-]. exact (enum_Name_raises _ _ _ _ Htype). }
  destruct (Algorithm.Name (algorithm params)) as [e2|algorithm_name] eqn:Halg.
  { intros [= <-]. exact (enum_Name_raises _ _ _ _ Halg). }
  destruct (num_digits (algorithm params)) as [e3|n] eqn:Hn.
  { intros [= <-]. exact (num_digits_raises _ _ Hn). }
  destruct (DigitCount.Name (digits params)) as [e4|digits_name] eqn:Hdigits.
  { intros [= <-]. exact (enum_Name_raises _ _ _ _ Hdigits). }
  discriminate.
Qed.

Lemma decode_secrets_loop_raises (l : list OtpParameter) (_data : list string)
    (e : exception) :
  decode_secrets_loop _data l = raise e -> exists msg, e = ValueError msg.
Proof.
  revert _data. induction l as [|params l IH]; intros _data; [discriminate|].
  cbn [decode_secrets_loop].
  destruct (decode_secrets_entry params) as [e'|block] eqn:Hentry.
  - intros [= <-]. exact (decode_secrets_entry_raises _ _ Hentry).
  - apply IH.
Qed.

Lemma decode_secrets_message_raises (payload : MigrationPayload) (e : exception) :
  decode_secrets (Message payload) = raise e -> exists msg, e = ValueError msg.
Proof.
  unfold decode_secrets. cbn [rbind ok].
  destruct (decode_secrets_loop _ _) as [e'|lines] eqn:Hloop; [|discriminate].
  intros [= <-]. exact (decode_secrets_loop_raises _ _ _ Hloop).
Qed.

Section ProcessUrl.

Context `{Unicodedata_Ipaddress}.

(** X1: [process_url] ends in one of three ways.  It returns a report and
    leaves the world as it was; or [parse_url] raised, and it returns
    nothing after one line, the text of that exception, went to the error
    stream; or a stage after [parse_url] raised, and the exception leaves
    it with the world as it was.  It never returns nothing without a
    diagnostic, never prints on the standard output and never touches a
    file. *)
Theorem process_url_outcomes (url : string) (w : world) :
  (exists report, process_url url w = (ok (Some report), w))
  \/ (exists e,
        parse_url url = raise e
        /\ process_url url w = (ok None, logged w [exception_str e]))
  \/ (exists e data,
        parse_url url = ok data /\ process_url url w = (raise e, w)).
Proof.
  destruct (parse_url url) as [e|data] eqn:Hurl.
  - right. left. exists e. split; [reflexivity|].
    apply process_url_parse_failure. exact Hurl.
  - rewrite (process_url_parsed url data w Hurl).
    destruct (decode_qs data) as [e|decoded_data]; cbn [rbind].
    { right. right. exists e, data. split; reflexivity. }
    destruct (FromString decoded_data) as [e|payload]; cbn [rbind].
    { right. right. exists e, data. split; reflexivity. }
    destruct (decode_secrets (Message payload)) as [e|report]; cbn [rbind].
    { right. right. exists e, data. split; reflexivity. }
    left. exists report. reflexivity.
Qed.

(** X2: an exception that leaves [process_url] comes from one of the
    three stages after [parse_url], and the world is as it was: from
    [decode_qs], and it is a [binascii.Error] or a [ValueError]; or from
    the wire decoder; or from [decode_secrets], and it is a [ValueError]
    (which the handler around [parse_url] does not see). *)
Theorem process_url_raises (url : string) (w w' : world) (e : exception) :
  process_url url w = (raise e, w') ->
  w' = w
  /\ exists data,
       parse_url url = ok data
       /\ ((decode_qs data = raise e
            /\ exists msg, e = binascii_Error msg \/ e = ValueError msg)
           \/ (exists decoded_data,
                 decode_qs data = ok decoded_data
                 /\ FromString decoded_data = raise e)
           \/ (exists decoded_data payload,
                 decode_qs data = ok decoded_data
                 /\ FromString decoded_data = ok payload
                 /\ decode_secrets (Message payload) = raise e
                 /\ exists msg, e = ValueError msg)).
Proof.
  destruct (parse_url url) as [e'|data] eqn:Hurl.
  - rewrite (process_url_parse_failure url e' w Hurl). discriminate.
  - rewrite (process_url_parsed url data w Hurl).
    destruct (decode_qs data) as [e1|decoded_data] eqn:Hqs; cbn [rbind].
    { intros [= <- <-]. split; [reflexivity|]. exists data.
      split; [reflexivity|]. left. split; [exact Hqs|].
      eapply decode_qs_raises. exact Hqs. }
    destruct (FromString decoded_data) as [e2|payload] eqn:Hwire; cbn [rbind].
    { intros [= <- <-]. split; [reflexivity|]. exists data.
      split; [reflexivity|]. right. left. exists decoded_data.
      split; [exact Hqs|exact Hwire]. }
    destruct (decode_secrets (Message payload)) as [e3|report] eqn:Hreport;
      cbn [rbind]; [|discriminate].
    intros [= <- <-]. split; [reflexivity|]. exists data.
    split; [reflexivity|]. right. right. exists decoded_data, payload.
    split; [exact Hqs|]. split; [exact Hwire|]. split; [exact Hreport|].
    eapply decode_secrets_message_raises. exact Hreport.
Qed.

End ProcessUrl.

Lemma process_url_raises_witness :
  empty_world = empty_world
  /\ exists data,
       parse_url bad_base64_url = ok data
       /\ ((decode_qs data
            = raise (binascii_Error
                "Invalid base64-encoded string: number of data characters (1) cannot be 1 more than a multiple of 4")
            /\ exists msg,
                 binascii_Error
                   "Invalid base64-encoded string: number of data characters (1) cannot be 1 more than a multiple of 4"
                 = binascii_Error msg
                 \/ binascii_Error
                      "Invalid base64-encoded string: number of data characters (1) cannot be 1 more than a multiple of 4"
                    = ValueError msg)
           \/ (exists decoded_data,
                 decode_qs data = ok decoded_data
                 /\ FromString decoded_data
                    = raise (binascii_Error
                        "Invalid base64-encoded string: number of data characters (1) cannot be 1 more than a multiple of 4"))
           \/ (exists decoded_data payload,
                 decode_qs data = ok decoded_data
                 /\ FromString decoded_data = ok payload
                 /\ decode_secrets (Message payload)
                    = raise (binascii_Error
                        "Invalid base64-encoded string: number of data characters (1) cannot be 1 more than a multiple of 4")
                 /\ exists msg,
                      binascii_Error
                        "Invalid base64-encoded string: number of data characters (1) cannot be 1 more than a multiple of 4"
                      = ValueError msg)).
Proof.
  apply (process_url_raises bad_base64_url empty_world empty_world).
  vm_compute. reflexivity.
Defined.

(** ** Which [data] field [parse_url] reads *)

Lemma split_at_separator (c : ascii) (s rest : string) :
  contains c s = false ->
  split c (s +:+ String c rest) = s :: split c rest.
Proof.
  induction s as [|a s IH]; intros Hs.
  - rewrite append_nil_l. cbn [split]. rewrite Ascii.eqb_refl. reflexivity.
  - cbn [contains] in Hs. rewrite append_cons. cbn [split].
    destruct (Ascii.eqb a c); [discriminate|].
    rewrite (IH Hs). reflexivity.
Qed.

Section FirstData.

Context `{Unicodedata_Ipaddress}.

(** X3: of a link with the right scheme [parse_url] reads the first field
    of the query whose decoded name is [data] and whose value is not
    empty, and returns its value decoded once more; fields that follow,
    other [data] fields included, play no part, and without such a field
    it raises the missing-data error.  So when the query starts with
    [data=raw&], what follows the [&] is ignored. *)
Theorem parse_url_reads_first_data (url : string) (parsed : ParseResult) :
  urlparse url = ok parsed ->
  scheme parsed = "otpauth-migration" ->
  parse_url url
  = match List.find (fun nv => String.eqb (fst nv) "data")
            (parse_qsl (query parsed)) with
    | Some nv => ok (unquote (snd nv))
    | None => raise (ValueError "Missing `data` field in query string")
    end
  /\ (forall raw rest,
        query parsed = "data=" +:+ raw +:+ String "&" rest ->
        raw <> "" -> contains "&" raw = false ->
        parse_url url = ok (unquote (unquote (replace "+" " " raw)))).
Proof.
  intros Hparsed Hscheme.
  pose proof (parse_url_parsed url parsed Hparsed) as Hurl.
  rewrite Hscheme in Hurl. cbn [String.eqb Ascii.eqb Bool.eqb negb] in Hurl.
  rewrite parse_qs_lookup in Hurl.
  assert (Hfirst : parse_url url
                   = match List.find (fun nv => String.eqb (fst nv) "data")
                           (parse_qsl (query parsed)) with
                     | Some nv => ok (unquote (snd nv))
                     | None => raise (ValueError "Missing `data` field in query string")
                     end).
  { pose proof (values_of_find "data" (parse_qsl (query parsed))) as Hfind.
    destruct (values_of "data" (parse_qsl (query parsed))) as [|v vs].
    - rewrite Hfind. exact Hurl.
    - destruct Hfind as [n ->]. exact Hurl. }
  split; [exact Hfirst|].
  intros raw rest Hquery Hraw Hamp. rewrite Hfirst, Hquery.
  unfold parse_qsl.
  change ("data=" +:+ raw +:+ String "&" rest)
    with (String "d" (String "a" (String "t" (String "a"
            (String "=" (raw +:+ String "&" rest)))))).
  change (String "d" (String "a" (String "t" (String "a"
            (String "=" (raw +:+ String "&" rest))))))
    with (("data=" +:+ raw) +:+ String "&" rest) at 2.
  rewrite split_at_separator by exact Hamp.
  destruct raw as [|c raw]; [contradiction|].
  cbn [flat_map app].
  change (partition "=" ("data=" +:+ String c raw))
    with (Some ("data", String c raw)).
  cbn [app List.find fst snd].
  change (unquote (replace "+" " " "data")) with "data".
  reflexivity.
Qed.

End FirstData.

Lemma parse_url_reads_first_data_witness :
  parse_url "otpauth-migration://offline?data=QQ%253D%253D&data=QUJD&x=1"
  = ok (unquote (unquote (replace "+" " " "QQ%253D%253D"))).
Proof.
  eapply (parse_url_reads_first_data
            "otpauth-migration://offline?data=QQ%253D%253D&data=QUJD&x=1").
  - vm_compute. reflexivity.
  - reflexivity.
  - reflexivity.
  - discriminate.
  - reflexivity.
Defined.

(** ** The digits parameter and the [digits] field *)

(** The entry [params] with another [digits] field. *)
Definition with_digits (d : Z) (params : OtpParameter) : OtpParameter :=
{| secret := secret params; name := name params; issuer := issuer params;
   algorithm := algorithm params; digits := d; type := type params;
   counter := counter params |}.

(** X4: the URI of an entry does not depend on its [digits] field: two
    entries that differ in that field only and are both decoded have the
    same URI line.  Its [digits=] parameter is 6 when the [algorithm]
    field holds the number of SIX and 8 when it holds the number of
    EIGHT, and no entry with another number in [algorithm] is decoded. *)
Theorem uri_ignores_digits_field (params : OtpParameter) (d : Z)
    (block block' : list string) :
  decode_secrets_entry params = ok block ->
  decode_secrets_entry (with_digits d params) = ok block' ->
  nth_error block 0 = nth_error block' 0
  /\ exists before,
       (algorithm params = DigitCount.SIX
        /\ nth_error block 0
           = Some (before +:+ "&digits=6&counter=" +:+ str_int (counter params)))
       \/ (algorithm params = DigitCount.EIGHT
           /\ nth_error block 0
              = Some (before +:+ "&digits=8&counter="
                      +:+ str_int (counter params))).
Proof.
  intros Hblock Hblock'.
  destruct (decode_secrets_entry_ok params block Hblock)
    as (type_name & algorithm_name & digits_name & n
        & Htype & Halg & _ & Hn & ->).
  destruct (decode_secrets_entry_ok _ block' Hblock')
    as (type_name' & algorithm_name' & digits_name' & n'
        & Htype' & Halg' & _ & Hn' & ->).
  cbn [with_digits type algorithm] in Htype', Halg', Hn'.
  rewrite Htype in Htype'. rewrite Halg in Halg'. rewrite Hn in Hn'.
  injection Htype' as <-. injection Halg' as <-. injection Hn' as <-.
  split; [reflexivity|].
  exists ("  otpauth://" +:+ lower type_name +:+ "/" +:+ quote (issuer params)
          +:+ ":" +:+ quote (name params) +:+ "?secret="
          +:+ text_of (b32encode (secret params)) +:+ "&issuer="
          +:+ quote (issuer params) +:+ "&algorithm=" +:+ lower algorithm_name).
  unfold num_digits in Hn.
  destruct (Z.eqb_spec (algorithm params) DigitCount.SIX) as [Hsix|_].
  - left. split; [exact Hsix|]. injection Hn as <-.
    cbn [nth_error]. unfold otpauth_uri. rewrite !append_assoc. reflexivity.
  - destruct (Z.eqb_spec (algorithm params) DigitCount.EIGHT) as [Height|_];
      [|discriminate].
    right. split; [exact Height|]. injection Hn as <-.
    cbn [nth_error]. unfold otpauth_uri. rewrite !append_assoc. reflexivity.
Qed.

Lemma uri_ignores_digits_field_witness :
  nth_error
    [ "  otpauth://totp/Example:alice%40example.com?secret=AAAAAAAAAAAAAAAA&issuer=Example&algorithm=sha256&digits=8&counter=0";
      "  secret: b'AAAAAAAAAAAAAAAA'"; "  name: alice@example.com";
      "  issuer: Example"; "  algorithm: SHA256"; "  digits: SIX";
      "  type: TOTP"; "  counter: 0" +:+ String "010" "" ] 0
  = nth_error
      [ "  otpauth://totp/Example:alice%40example.com?secret=AAAAAAAAAAAAAAAA&issuer=Example&algorithm=sha256&digits=8&counter=0";
        "  secret: b'AAAAAAAAAAAAAAAA'"; "  name: alice@example.com";
        "  issuer: Example"; "  algorithm: SHA256"; "  digits: EIGHT";
        "  type: TOTP"; "  counter: 0" +:+ String "010" "" ] 0.
Proof.
  exact (proj1 (uri_ignores_digits_field sha256_entry DigitCount.EIGHT _ _
                  eq_refl eq_refl)).
Defined.

(** ** All entries or none *)

(** An entry that [decode_secrets] can decode. *)
Definition decodes (params : OtpParameter) : Prop :=
exists block, decode_secrets_entry params = ok block.

Lemma decode_secrets_loop_ok (l : list OtpParameter) (_data : list string) :
  Forall decodes l -> exists lines, decode_secrets_loop _data l = ok lines.
Proof.
  intros Hall. revert _data.
  induction Hall as [|params l [block Hblock] _ IH]; intros _data.
  - eexists. reflexivity.
  - cbn [decode_secrets_loop]. rewrite Hblock. cbn [rbind]. apply IH.
Qed.

Lemma decode_secrets_loop_first_failure (l : list OtpParameter)
    (_data : list string) (e : exception) :
  decode_secrets_loop _data l = raise e <->
  exists decoded params rest,
    l = decoded ++ params :: rest
    /\ Forall decodes decoded
    /\ decode_secrets_entry params = raise e.
Proof.
  revert _data. induction l as [|params l IH]; intros _data.
  - split; [discriminate|].
    intros (decoded & p & rest & Hl & _). destruct decoded; discriminate.
  - cbn [decode_secrets_loop].
    destruct (decode_secrets_entry params) as [e'|block] eqn:Hentry;
      cbn [rbind].
    + split.
      * intros [= <-]. exists [], params, l.
        split; [reflexivity|]. split; [constructor|exact Hentry].
      * intros (decoded & p & rest & Hl & Hdecoded & Hp).
        destruct decoded as [|p0 decoded].
        -- injection Hl as <- <-. rewrite Hentry in Hp. exact Hp.
        -- injection Hl as <- _. apply List.Forall_inv in Hdecoded.
           destruct Hdecoded as [b Hb]. rewrite Hentry in Hb. discriminate.
    + rewrite IH. split.
      * intros (decoded & p & rest & -> & Hdecoded & Hp).
        exists (params :: decoded), p, rest.
        split; [reflexivity|]. split; [|exact Hp].
        constructor; [exists block; exact Hentry|exact Hdecoded].
      * intros (decoded & p & rest & Hl & Hdecoded & Hp).
        destruct decoded as [|p0 decoded].
        -- injection Hl as <- <-. rewrite Hentry in Hp. discriminate.
        -- injection Hl as <- ->. exists decoded, p, rest.
           split; [reflexivity|]. split; [|exact Hp].
           apply List.Forall_inv_tail in Hdecoded. exact Hdecoded.
Qed.

(** X5: a payload is reported whole or not at all.  [decode_secrets]
    returns a report exactly when every entry is decoded; otherwise it
    raises the exception of the first entry that is not, and the blocks of
    the entries before it are lost with the header. *)
Theorem decode_secrets_all_or_nothing (payload : MigrationPayload) :
  ((exists report, decode_secrets (Message payload) = ok report)
   <-> Forall decodes (otp_parameters payload))
  /\ (forall e,
        decode_secrets (Message payload) = raise e
        <-> exists decoded params rest,
              otp_parameters payload = decoded ++ params :: rest
              /\ Forall decodes decoded
              /\ decode_secrets_entry params = raise e).
Proof.
  unfold decode_secrets. cbn [rbind ok].
  match goal with
  | |- context [decode_secrets_loop ?h _] => set (header := h)
  end.
  split.
  - split.
    + intros [report Hreport].
      destruct (decode_secrets_loop header (otp_parameters payload))
        as [e|lines] eqn:Hloop; [discriminate|].
      destruct (decode_secrets_loop_blocks _ _ _ Hloop) as (blocks & Hblocks & _).
      clear Hloop Hreport. induction Hblocks as [|p b l bs Hp _ IH];
        constructor; [exists b; exact Hp|exact IH].
    + intros Hall.
      destruct (decode_secrets_loop_ok _ header Hall) as [lines ->].
      eexists. reflexivity.
  - intros e. rewrite <- (decode_secrets_loop_first_failure _ header).
    destruct (decode_secrets_loop header (otp_parameters payload));
      cbn [rbind]; unfold raise, ok; split; intros Heq;
      try discriminate; injection Heq as ->; reflexivity.
Qed.

Lemma decode_secrets_all_or_nothing_witness :
  decode_secrets
    (Message {| otp_parameters := [scenario_entry; sha512_entry; scenario_entry];
                version := 1; batch_size := 1; batch_index := 0;
                batch_id := 42 |})
  = raise (ValueError "Invalid DigitCount, expecting SIX or EIGHT").
Proof.
  apply (decode_secrets_all_or_nothing
           {| otp_parameters := [scenario_entry; sha512_entry; scenario_entry];
              version := 1; batch_size := 1; batch_index := 0;
              batch_id := 42 |}).
  exists [scenario_entry], sha512_entry, [scenario_entry].
  split; [reflexivity|]. split; [|reflexivity].
  constructor; [|constructor]. eexists. reflexivity.
Defined.

(** ** Where a report ends *)

Lemma join_last (sep : string) (l : list string) (y : string) :
  exists before, join sep (l ++ [y]) = before +:+ y.
Proof.
  induction l as [|x l [before IH]].
  - exists "". reflexivity.
  - exists (x +:+ sep +:+ before).
    change ((x :: l) ++ [y]) with (x :: (l ++ [y])).
    destruct (l ++ [y]) as [|z l'] eqn:Hl; [destruct l; discriminate|].
    change (join sep (x :: z :: l')) with (x +:+ sep +:+ join sep (z :: l')).
    rewrite IH, !append_assoc. reflexivity.
Qed.

(** X6: the report of a payload without entries is its five header lines
    and does not end with a newline; the report of a payload with entries
    ends with the newline that follows the counter of the last entry, so
    that joined with the report that follows it in the output, the two
    are a blank line apart. *)
Theorem report_ends_with_newline (payload : MigrationPayload) (report : string) :
  decode_secrets (Message payload) = ok report ->
  (otp_parameters payload = [] ->
   report
   = join (String "010" "")
       [ "version: " +:+ str_int (version payload);
         "batch_size: " +:+ str_int (batch_size payload);
         "batch_index: " +:+ str_int (batch_index payload);
         "batch_id: " +:+ str_int (batch_id payload);
         "otp_parameters:" ])
  /\ (otp_parameters payload <> [] ->
      exists body,
        report = body +:+ String "010" ""
        /\ forall next,
             join (String "010" "") [report; next]
             = body +:+ String "010" (String "010" next)).
Proof.
  unfold decode_secrets. cbn [rbind ok].
  destruct (decode_secrets_loop _ _) as [e|lines] eqn:Hloop; [discriminate|].
  cbn [rbind]. intros [= <-]. split.
  - intros Hnil. rewrite Hnil in Hloop. injection Hloop as <-. reflexivity.
  - intros Hentries.
    destruct (decode_secrets_loop_blocks _ _ _ Hloop) as (blocks & Hblocks & ->).
    assert (Hlast : exists l z, concat blocks = l ++ [z +:+ String "010" ""]).
    { clear Hloop. induction Hblocks as [|p b ps bs Hp Hrest IH];
        [contradiction|].
      destruct ps as [|p' ps].
      - inversion Hrest; subst.
        destruct (decode_secrets_entry_ok p b Hp)
          as (tn & an & dn & n & _ & _ & _ & _ & ->).
        cbn [concat]. rewrite app_nil_r.
        eexists [_; _; _; _; _; _; _], ("  counter: " +:+ str_int (counter p)).
        rewrite append_assoc. reflexivity.
      - destruct IH as (l & z & Hl); [discriminate|].
        cbn [concat]. rewrite Hl. exists (b ++ l), z.
        rewrite app_assoc. reflexivity. }
    destruct Hlast as (l & z & ->). rewrite app_assoc.
    match goal with
    | |- context [join _ (?a ++ [_])] =>
        destruct (join_last (String "010" "") a (z +:+ String "010" ""))
          as [before ->]
    end.
    exists (before +:+ z). split; [rewrite append_assoc; reflexivity|].
    intros next. cbn [join]. rewrite !append_assoc. reflexivity.
Qed.

Lemma report_ends_with_newline_witness :
  exists body,
    join (String "010" "") scenario_lines = body +:+ String "010" ""
    /\ forall next,
         join (String "010" "") [join (String "010" "") scenario_lines; next]
         = body +:+ String "010" (String "010" next).
Proof.
  apply (report_ends_with_newline scenario_payload).
  - vm_compute. reflexivity.
  - discriminate.
Defined.

(** ** The loop over the lines *)

(** A line that is not blank once stripped. *)
Definition not_blank (line : string) : bool :=
negb (String.eqb (strip line) "").

Section Loop.

Context `{Unicodedata_Ipaddress}.

(** X7: blank lines play no part in a batch: the loop gives the same
    results, the same diagnostics and the same exception with the lines
    that are empty once stripped taken out. *)
Theorem process_lines_skips_blank_lines (lines results : list string)
    (w : world) :
  process_lines results lines w
  = process_lines results (List.filter not_blank lines) w.
Proof.
  revert results w. induction lines as [|line lines IH]; intros results w;
    [reflexivity|].
  cbn [List.filter]. unfold not_blank at 1.
  destruct (String.eqb_spec (strip line) "") as [Hblank|Hline]; cbn [negb].
  - rewrite process_lines_blank by exact Hblank. apply IH.
  - rewrite !process_lines_step by exact Hline.
    destruct (process_url (strip line) w) as [[e|[report|]] w'];
      [reflexivity|apply IH|apply IH].
Qed.

(** The results so far are kept as they are: the loop started with
    [results] ends as the loop started with none, its results put after
    [results]. *)
Lemma process_lines_accumulates (lines results : list string) (w : world) :
  process_lines results lines w
  = match process_lines [] lines w with
    | (inl e, w') => (inl e, w')
    | (inr rs, w') => (inr (results ++ rs), w')
    end.
Proof.
  revert results w. induction lines as [|line lines IH]; intros results w.
  - cbn. rewrite app_nil_r. reflexivity.
  - destruct (String.eqb_spec (strip line) "") as [Hblank|Hline].
    + rewrite !process_lines_blank by exact Hblank. apply IH.
    + rewrite !process_lines_step by exact Hline.
      destruct (process_url (strip line) w) as [[e|[report|]] w'];
        [reflexivity| |apply IH].
      rewrite (IH (results ++ [report])), (IH ([] ++ [report])).
      destruct (process_lines [] lines w') as [[e|rs] w''];
        [reflexivity|].
      rewrite <- app_assoc. reflexivity.
Qed.

(** X8: a batch can be cut anywhere: the loop over [first ++ second] is
    the loop over [first] followed, when it raised nothing, by the loop
    over [second] in the world it left, the results of the two put one
    after the other; an exception in [first] ends the whole before
    [second] is read.  Results gathered before are kept in front, in
    their order. *)
Theorem process_lines_app (first second results : list string) (w : world) :
  process_lines results (first ++ second) w
  = match process_lines [] first w with
    | (inl e, w') => (inl e, w')
    | (inr rs1, w') =>
        match process_lines [] second w' with
        | (inl e, w'') => (inl e, w'')
        | (inr rs2, w'') => (inr (results ++ rs1 ++ rs2), w'')
        end
    end.
Proof.
  revert results w. induction first as [|line first IH]; intros results w.
  - cbn [app process_lines ret ok]. apply process_lines_accumulates.
  - change ((line :: first) ++ second) with (line :: (first ++ second)).
    destruct (String.eqb_spec (strip line) "") as [Hblank|Hline].
    + rewrite !process_lines_blank by exact Hblank. apply IH.
    + rewrite !process_lines_step by exact Hline.
      destruct (process_url (strip line) w) as [[e|[report|]] w'];
        [reflexivity| |apply IH].
      rewrite IH, (process_lines_accumulates first ([] ++ [report])).
      destruct (process_lines [] first w') as [[e|rs1] w'']; [reflexivity|].
      destruct (process_lines [] second w'') as [[e|rs2] w3]; [reflexivity|].
      cbn [app]. rewrite <- !app_assoc. reflexivity.
Qed.

End Loop.

(** ** What a run prints and writes *)

Section Run.

Context `{Unicodedata_Ipaddress}.

(** The loop changes the world by diagnostics only. *)
Lemma process_lines_logs (lines results : list string) (w w' : world)
    (r : result (list string)) :
  process_lines results lines w = (r, w') ->
  exists diagnostics, w' = logged w diagnostics.
Proof.
  revert results w. induction lines as [|line lines IH]; intros results w.
  - cbn. intros [= <- <-]. exists []. rewrite logged_nil. reflexivity.
  - destruct (String.eqb_spec (strip line) "") as [Hblank|Hline].
    + rewrite process_lines_blank by exact Hblank. apply IH.
    + rewrite process_lines_step by exact Hline.
      rewrite (process_url_outcome (strip line) w).
      destruct (fst (url_outcome (strip line))) as [e|[report|]].
      * intros [= <- <-]. eexists. reflexivity.
      * intros Hrest. destruct (IH _ _ Hrest) as [diagnostics ->].
        rewrite logged_logged. eexists. reflexivity.
      * intros Hrest. destruct (IH _ _ Hrest) as [diagnostics ->].
        rewrite logged_logged. eexists. reflexivity.
Qed.



End Run.


(** ** The exit code *)

Lemma read_fields_raises (fuel : nat) (bs : list byte) (e : exception) :
  read_fields fuel bs = raise e -> e = DecodeError "Error parsing message".
Proof.
  revert bs. induction fuel as [|fuel IH]; intros bs.
  - destruct bs; [discriminate|]. cbn. intros [= <-]. reflexivity.
  - destruct bs as [|b bs]; [discriminate|].
    cbn [read_fields]. destruct (read_field (b :: bs)) as [[f rest]|].
    + destruct (read_fields fuel rest) as [e'|fs] eqn:Hrest; cbn [rbind].
      * intros [= <-]. exact (IH _ Hrest).
      * discriminate.
    + intros [= <-]. reflexivity.
Qed.

Lemma parse_parameter_raises (bs : list byte) (e : exception) :
  parse_parameter bs = raise e -> e = DecodeError "Error parsing message".
Proof.
  unfold parse_parameter.
  destruct (read_fields _ bs) as [e'|fs] eqn:Hfields; cbn [rbind].
  - intros [= <-]. exact (read_fields_raises _ _ _ Hfields).
  - discriminate.
Qed.

Lemma set_payload_fields_raise (fs : list field) (r : result MigrationPayload)
    (e : exception) :
  (forall e', r = raise e' -> e' = DecodeError "Error parsing message") ->
  fold_left set_payload_field fs r = raise e ->
  e = DecodeError "Error parsing message".
Proof.
  revert r. induction fs as [|f fs IH]; intros r Hr; [apply Hr|].
  cbn [fold_left]. apply IH. intros e'.
  unfold set_payload_field. destruct r as [e0|m]; cbn [rbind].
  - apply Hr.
  - destruct f as [number value|number data].
    + destruct number as [|[[[]|[]|]|[[]|[]|]|]|]; discriminate.
    + destruct number as [|[| |]|]; try discriminate.
      destruct (parse_parameter data) as [e1|p] eqn:Hp; cbn [rbind].
      * intros [= <-]. exact (parse_parameter_raises _ _ Hp).
      * discriminate.
Qed.

(** The wire decoder raises [DecodeError] and nothing else. *)
Lemma FromString_raises (bs : list byte) (e : exception) :
  FromString bs = raise e -> e = DecodeError "Error parsing message".
Proof.
  unfold FromString.
  destruct (read_fields _ bs) as [e'|fs] eqn:Hfields; cbn [rbind].
  - intros [= <-]. exact (read_fields_raises _ _ _ Hfields).
  - apply set_payload_fields_raise. discriminate.
Qed.

Section Exit.

Context `{Unicodedata_Ipaddress}.

Lemma process_url_never_exits (url : string) (w w' : world) (code : Z) :
  process_url url w <> (raise (SystemExit code), w').
Proof.
  destruct (parse_url url) as [e'|data] eqn:Hurl.
  - rewrite (process_url_parse_failure url e' w Hurl). discriminate.
  - rewrite (process_url_parsed url data w Hurl).
    destruct (decode_qs data) as [e1|decoded_data] eqn:Hqs; cbn [rbind].
    { intros [= -> _]. apply decode_qs_raises in Hqs as [msg [?|?]];
        discriminate. }
    destruct (FromString decoded_data) as [e2|payload] eqn:Hwire; cbn [rbind].
    { intros [= -> _]. apply FromString_raises in Hwire. discriminate. }
    destruct (decode_secrets (Message payload)) as [e3|report] eqn:Hreport;
      cbn [rbind]; [|discriminate].
    intros [= -> _]. apply decode_secrets_message_raises in Hreport as [msg ?].
    discriminate.
Qed.

Lemma process_lines_never_exits (lines results : list string) (w w' : world)
    (code : Z) :
  process_lines results lines w <> (raise (SystemExit code), w').
Proof.
  revert results w. induction lines as [|line lines IH]; intros results w.
  - discriminate.
  - destruct (String.eqb_spec (strip line) "") as [Hblank|Hline].
    + rewrite process_lines_blank by exact Hblank. apply IH.
    + rewrite process_lines_step by exact Hline.
      destruct (process_url (strip line) w) as [[e|[report|]] w1] eqn:Hurl;
        [|apply IH|apply IH].
      intros [= -> ->]. exact (process_url_never_exits _ _ _ _ Hurl).
Qed.

(** X10: a run ends with [SystemExit] in exactly three ways: [argparse]
    printed its help (code 0); [argparse] rejected the command line
    (code 2, the usage and the error on the error stream); or [--file]
    is given and there is no file at the input path (code 4, the one
    diagnostic that names the path).  Nothing else has been printed or
    written, and no failure of a link ends a run that way. *)
Theorem main_exit_codes (argv : command_line) (w w' : world) (code : Z) :
  main argv w = (raise (SystemExit code), w')
  <-> (exists text, argv = Help text /\ code = 0 /\ w' = printed w text)
      \/ (exists usage message,
            argv = Rejected usage message
            /\ code = 2 /\ w' = logged w [usage; message])
      \/ (exists args,
            argv = Parsed args
            /\ file args = true
            /\ files w !! input args = None
            /\ code = 4
            /\ w' = logged w ["File not found: " +:+ input args]).
Proof.
  split.
  - destruct argv as [args|text|usage message].
    + rewrite main_gathers. intros Hexit. right. right. exists args.
      split; [reflexivity|]. revert Hexit.
      destruct (file args).
      * destruct (files w !! input args) as [text|].
        -- destruct (process_lines [] _ w) as [[e|results] w1] eqn:Hloop;
             [|discriminate].
           intros [= -> ->]. exfalso.
           exact (process_lines_never_exits _ _ _ _ _ Hloop).
        -- intros [= <- <-]. repeat split; reflexivity.
      * destruct (process_url (input args) w) as [[e|[report|]] w1] eqn:Hurl;
          [|discriminate|discriminate].
        intros [= -> ->]. exfalso.
        exact (process_url_never_exits _ _ _ _ Hurl).
    + rewrite (proj1 (main_unparsed w)). intros [= <- <-]. left.
      exists text. repeat split; reflexivity.
    + rewrite (proj2 (main_unparsed w)). intros [= <- <-]. right. left.
      exists usage, message. repeat split; reflexivity.
  - intros [(text & -> & -> & ->)
           |[(usage & message & -> & -> & ->)
            |(args & -> & Hfile & Hnone & -> & ->)]].
    + apply (proj1 (main_unparsed w)).
    + apply (proj2 (main_unparsed w)).
    + rewrite main_gathers, Hfile, Hnone. reflexivity.
Qed.

(** X11: what a run that ends normally hands over as its report: for a
    file of links, the reports of the lines that are decoded, in the
    order of the lines, joined by newlines; for one link, the report of
    that link, or the empty text when [parse_url] rejected it.  The link
    given on the command line is not stripped, and is diagnosed even when
    it is blank. *)
Theorem main_report_text (args : Namespace) (w w' : world) :
  main (Parsed args) w = (ok tt, w') ->
  output args = None ->
  (forall text,
     file args = true -> files w !! input args = Some text ->
     stdout w'
     = stdout w ++ [join (String "010" "")
                      (reports_in_order (lines_of (universal_newlines text)))])
  /\ (file args = false ->
      (exists report,
         process_url (input args) w = (ok (Some report), w)
         /\ stdout w' = stdout w ++ [report] /\ stderr w' = stderr w)
      \/ (exists e,
            parse_url (input args) = raise e
            /\ stdout w' = stdout w ++ [""]
            /\ stderr w' = stderr w ++ [exception_str e])).
Proof.
  rewrite main_gathers. intros Hmain Houtput. rewrite Houtput in Hmain.
  cbn [delivered] in Hmain. split.
  - intros text Hfile Htext. rewrite Hfile, Htext in Hmain.
    destruct (process_lines [] _ w) as [[e|results] w1] eqn:Hloop;
      [discriminate|].
    injection Hmain as <-.
    destruct (process_lines_logs _ _ _ _ _ Hloop) as [diagnostics ->].
    rewrite (process_lines_order _ _ _ _ _ Hloop). reflexivity.
  - intros Hfile. rewrite Hfile in Hmain.
    destruct (parse_url (input args)) as [e|data] eqn:Hurl.
    + right. exists e. split; [reflexivity|].
      rewrite (process_url_parse_failure _ e w Hurl) in Hmain.
      injection Hmain as <-. split; reflexivity.
    + left. rewrite (process_url_parsed _ data w Hurl) in Hmain |- *.
      destruct (decode_qs data) as [e|decoded_data]; cbn [rbind] in *;
        [discriminate|].
      destruct (FromString decoded_data) as [e|payload]; cbn [rbind] in *;
        [discriminate|].
      destruct (decode_secrets (Message payload)) as [e|report];
        cbn [rbind] in *; [discriminate|].
      injection Hmain as <-. exists report.
      split; [reflexivity|]. split; reflexivity.
Qed.

End Exit.

(** A world whose file [batch.txt] holds the scenario link, a blank line,
    a link with the scheme [http] and the scenario link again, the last
    line without a newline. *)
Definition mixed_batch_world : world :=
{| stderr := []; stdout := [];
   files := {[ "batch.txt" :=
               scenario_url +:+ String "010" ""
               +:+ "   " +:+ String "010" ""
               +:+ "http://example.com/?data=QQ%3D%3D" +:+ String "010" ""
               +:+ scenario_url ]} |}.

Lemma main_exit_codes_witness :
  main (Parsed {| input := "missing.txt"; file := true; output := None |})
    empty_world
  = (raise (SystemExit 4),
     logged empty_world ["File not found: missing.txt"]).
Proof.
  apply (main_exit_codes
           (Parsed {| input := "missing.txt"; file := true; output := None |})).
  right. right. eexists. repeat split; reflexivity.
Defined.

Lemma main_report_text_witness :
  stdout
    (printed
       (logged mixed_batch_world ["Only otpauth-migration URLs can be parsed"])
       (join (String "010" "")
          [ join (String "010" "") scenario_lines;
            join (String "010" "") scenario_lines ]))
  = stdout mixed_batch_world
    ++ [join (String "010" "")
          (reports_in_order
             (lines_of (universal_newlines
                (scenario_url +:+ String "010" ""
                 +:+ "   " +:+ String "010" ""
                 +:+ "http://example.com/?data=QQ%3D%3D" +:+ String "010" ""
                 +:+ scenario_url))))].
Proof.
  assert (Hmain : main (Parsed {| input := "batch.txt"; file := true;
                                  output := None |})
                    mixed_batch_world
                  = (ok tt,
                     printed
                       (logged mixed_batch_world
                          ["Only otpauth-migration URLs can be parsed"])
                       (join (String "010" "")
                          [ join (String "010" "") scenario_lines;
                            join (String "010" "") scenario_lines ])))
    by (vm_compute; reflexivity).
  destruct (main_report_text _ _ _ Hmain eq_refl) as [Hfile _].
  exact (Hfile _ eq_refl eq_refl).
Defined.

(** ** The separators of the URI *)

(** [s.count(c)] for a one-character [c]. *)
Fixpoint count_char (c : ascii) (s : string) : nat :=
match s with
| EmptyString => 0%nat
| String a s' => ((if Ascii.eqb a c then 1 else 0) + count_char c s')%nat
end.

(** The characters that delimit the parts of a URI, and the space. *)
Definition separators : list ascii := ["?"; "&"; ":"; "#"; "@"; " "]%char.

Lemma count_char_append (c : ascii) (s t : string) :
  count_char c (s +:+ t) = (count_char c s + count_char c t)%nat.
Proof.
  induction s as [|a s IH]; [reflexivity|].
  rewrite append_cons. cbn [count_char]. rewrite IH. lia.
Qed.

Lemma count_char_absent (c : ascii) (s : string) :
  contains c s = false -> count_char c s = 0%nat.
Proof.
  induction s as [|a s IH]; [reflexivity|].
  cbn [contains count_char]. destruct (Ascii.eqb a c); [discriminate|].
  exact IH.
Qed.

Lemma quoter_no_separator (c : ascii) (b : byte) :
  In c separators -> contains c (quoter b) = false.
Proof.
  intros Hc. unfold separators in Hc. cbn [In] in Hc.
  destruct Hc as [<-|[<-|[<-|[<-|[<-|[<-|[]]]]]]]; destruct b;
    vm_compute; reflexivity.
Qed.

Lemma quote_no_separator (c : ascii) (s : string) :
  In c separators -> contains c (quote s) = false.
Proof.
  intros Hc. unfold quote.
  rewrite quote_from_bytes_bytewise, contains_concat.
  apply not_true_is_false. intros Hex.
  apply existsb_exists in Hex as (q & Hq & Hcq).
  apply in_map_iff in Hq as (b & <- & _).
  rewrite (quoter_no_separator c b Hc) in Hcq. discriminate.
Qed.

Lemma b32_text_no_separator (c : ascii) (bs : list byte) :
  In c separators -> Forall b32_char bs -> contains c (text_of bs) = false.
Proof.
  intros Hc Hbs. induction Hbs as [|b bs Hb _ IH]; [reflexivity|].
  change (text_of (b :: bs)) with (String (ascii_of_byte b) (text_of bs)).
  cbn [contains]. rewrite IH.
  replace (Ascii.eqb (ascii_of_byte b) c) with false; [reflexivity|].
  symmetry. unfold separators in Hc. cbn [In] in Hc.
  destruct Hc as [<-|[<-|[<-|[<-|[<-|[<-|[]]]]]]]; b32_cases b Hb.
Qed.

Lemma uint_no_separator (c : ascii) (d : Decimal.uint) :
  In c separators -> contains c (NilEmpty.string_of_uint d) = false.
Proof.
  intros Hc. unfold separators in Hc. cbn [In] in Hc.
  destruct Hc as [<-|[<-|[<-|[<-|[<-|[<-|[]]]]]]];
    induction d; cbn; auto.
Qed.

Lemma str_int_no_separator (c : ascii) (n : Z) :
  In c separators -> contains c (str_int n) = false.
Proof.
  intros Hc. unfold str_int, NilZero.string_of_int.
  destruct (Z.to_int n) as [d|d].
  - unfold NilZero.string_of_uint.
    pose proof (uint_no_separator c d Hc) as Hd.
    destruct d; try exact Hd.
    unfold separators in Hc. cbn [In] in Hc.
    destruct Hc as [<-|[<-|[<-|[<-|[<-|[<-|[]]]]]]]; reflexivity.
  - unfold NilZero.string_of_uint.
    pose proof (uint_no_separator c d Hc) as Hd.
    assert (Hminus : Ascii.eqb "-" c = false).
    { unfold separators in Hc. cbn [In] in Hc.
      destruct Hc as [<-|[<-|[<-|[<-|[<-|[<-|[]]]]]]]; reflexivity. }
    destruct d; cbn [contains]; rewrite Hminus; try exact Hd.
    unfold separators in Hc. cbn [In] in Hc.
    destruct Hc as [<-|[<-|[<-|[<-|[<-|[<-|[]]]]]]]; reflexivity.
Qed.

Lemma enum_Name_in (enum : string) (names : list (Z * string)) (number : Z)
    (s : string) :
  enum_Name enum names number = ok s -> In s (map snd names).
Proof.
  unfold enum_Name. destruct (List.find _ names) as [p|] eqn:Hfind;
    [|discriminate].
  intros [= <-]. apply find_some in Hfind as [Hin _].
  apply in_map. exact Hin.
Qed.

Lemma enum_name_no_separator (c : ascii) (s : string) :
  In c separators ->
  In s [ "UNSPECIFIED"; "SHA1"; "SHA256"; "SHA512"; "MD5"; "HOTP"; "TOTP" ] ->
  contains c (lower s) = false.
Proof.
  intros Hc Hs. unfold separators in Hc. cbn [In] in Hc, Hs.
  destruct Hc as [<-|[<-|[<-|[<-|[<-|[<-|[]]]]]]];
    destruct Hs as [<-|[<-|[<-|[<-|[<-|[<-|[<-|[]]]]]]]]; reflexivity.
Qed.

(** X12: whatever the issuer, the name and the secret of an entry, its
    URI has one ['?'], four ['&'], two [':'] (after the scheme and between
    issuer and name), and no ['#'], ['@'] or space: the label and the
    five parameters [secret], [issuer], [algorithm], [digits] and
    [counter] are delimited without ambiguity, and no text of the entry
    can add a parameter. *)
Theorem uri_separators (params : OtpParameter) (block : list string) :
  decode_secrets_entry params = ok block ->
  exists uri,
    nth_error block 0 = Some ("  " +:+ uri)
    /\ count_char "?" uri = 1%nat
    /\ count_char "&" uri = 4%nat
    /\ count_char ":" uri = 2%nat
    /\ count_char "#" uri = 0%nat
    /\ count_char "@" uri = 0%nat
    /\ count_char " " uri = 0%nat.
Proof.
  intros Hblock.
  destruct (decode_secrets_entry_ok params block Hblock)
    as (type_name & algorithm_name & digits_name & n
        & Htype & Halg & _ & _ & ->).
  exists (otpauth_uri type_name algorithm_name n params).
  split; [reflexivity|].
  assert (Hcount : forall c, In c separators ->
            count_char c (otpauth_uri type_name algorithm_name n params)
            = count_char c
                "otpauth:///:?secret=&issuer=&algorithm=&digits=&counter=").
  { intros c Hc. unfold otpauth_uri. rewrite !count_char_append.
    rewrite !(count_char_absent c (quote _)) by (apply quote_no_separator, Hc).
    rewrite !(count_char_absent c (str_int _))
      by (apply str_int_no_separator, Hc).
    rewrite (count_char_absent c (text_of _))
      by (apply b32_text_no_separator; [exact Hc|apply b32encode_chars]).
    rewrite (count_char_absent c (lower type_name)).
    2:{ apply enum_name_no_separator; [exact Hc|].
        apply enum_Name_in in Htype. cbn [map snd In] in Htype |- *. tauto. }
    rewrite (count_char_absent c (lower algorithm_name)).
    2:{ apply enum_name_no_separator; [exact Hc|].
        apply enum_Name_in in Halg. cbn [map snd In] in Halg |- *. tauto. }
    unfold separators in Hc. cbn [In] in Hc.
    destruct Hc as [<-|[<-|[<-|[<-|[<-|[<-|[]]]]]]]; reflexivity. }
  repeat split; rewrite Hcount; try reflexivity; unfold separators; cbn [In];
    tauto.
Qed.

Lemma uri_separators_witness :
  exists uri,
    nth_error
      [ "  otpauth://totp/a%3Fb%26c%3Dd:x%20%23y%40z?secret=ME======&issuer=a%3Fb%26c%3Dd&algorithm=sha1&digits=6&counter=0";
        "  secret: b'ME======'"; "  name: x #y@z"; "  issuer: a?b&c=d";
        "  algorithm: SHA1"; "  digits: SIX"; "  type: TOTP";
        "  counter: 0" +:+ String "010" "" ] 0
    = Some ("  " +:+ uri)
    /\ count_char "?" uri = 1%nat
    /\ count_char "&" uri = 4%nat
    /\ count_char ":" uri = 2%nat
    /\ count_char "#" uri = 0%nat
    /\ count_char "@" uri = 0%nat
    /\ count_char " " uri = 0%nat.
Proof.
  exact (uri_separators
           {| secret := [Byte.x61]; name := "x #y@z"; issuer := "a?b&c=d";
              algorithm := Algorithm.SHA1; digits := DigitCount.SIX;
              type := OtpType.TOTP; counter := 0 |} _ eq_refl).
Defined.

(** ** Percent-encoding is undone by percent-decoding *)

Definition scanned (o : option (list byte)) : bool :=
match o with
| Some _ => true
| None => false
end.

Definition scanned_bytes (o : option (list byte)) : list byte :=
match o with
| Some c => c
| None => REPLACEMENT
end.

(** When the scan meets no ill-formed sequence, its pieces are the bytes
    it read. *)
Lemma utf8_scan_well_formed (bs pend : list byte) (need : nat) (lo hi : Z) :
  forallb scanned (utf8_scan pend need lo hi bs) = true ->
  concat (map scanned_bytes (utf8_scan pend need lo hi bs)) = pend ++ bs.
Proof.
  revert pend need lo hi. induction bs as [|b bs IH]; intros pend need lo hi.
  - destruct pend; [reflexivity|discriminate].
  - assert (Hfresh : forall l : list (option (list byte)),
              l = (if byte_val b <? 128 then Some [b] :: utf8_scan [] 0 0 0 bs
                   else match utf8_lead (byte_val b) with
                        | Some (n, l0, h) => utf8_scan [b] n l0 h bs
                        | None => None :: utf8_scan [] 0 0 0 bs
                        end) ->
              forallb scanned l = true ->
              concat (map scanned_bytes l) = b :: bs).
    { intros l ->. destruct (byte_val b <? 128).
      - cbn [forallb scanned andb map concat scanned_bytes].
        intros Hrest. rewrite (IH _ _ _ _ Hrest). reflexivity.
      - destruct (utf8_lead (byte_val b)) as [[[n l0] h]|].
        + intros Hrest. rewrite (IH _ _ _ _ Hrest). reflexivity.
        + discriminate. }
    cbn [utf8_scan]. destruct pend as [|p pend].
    + apply Hfresh. reflexivity.
    + destruct ((lo <=? byte_val b) && (byte_val b <=? hi)).
      * destruct need as [|[|need]].
        -- intros Hrest. rewrite (IH _ _ _ _ Hrest), <- app_assoc. reflexivity.
        -- cbn [forallb scanned andb map concat scanned_bytes].
           intros Hrest. rewrite (IH _ _ _ _ Hrest), <- app_assoc. reflexivity.
        -- intros Hrest. rewrite (IH _ _ _ _ Hrest), <- app_assoc. reflexivity.
      * discriminate.
Qed.

(** Decoding well-formed UTF-8 with [errors='replace'] replaces
    nothing. *)
Lemma decode_replace_well_formed (s : string) :
  decode (encode s) = ok s -> decode_replace (encode s) = s.
Proof.
  unfold decode, decode_replace.
  change (fun o : option (list byte) =>
            match o with Some _ => true | None => false end) with scanned.
  change (fun o : option (list byte) =>
            match o with Some c => c | None => REPLACEMENT end)
    with scanned_bytes.
  destruct (forallb scanned _) eqn:Hscan; [|discriminate].
  intros _. rewrite (utf8_scan_well_formed _ _ _ _ _ Hscan).
  cbn [app]. apply string_of_list_byte_of_string.
Qed.

Lemma split_nonempty (c : ascii) (s : string) :
  exists first items, split c s = first :: items.
Proof.
  destruct s as [|a s]; [exists "", []; reflexivity|].
  cbn [split]. destruct (Ascii.eqb a c); [eexists; eexists; reflexivity|].
  destruct (split c s); eexists; eexists; reflexivity.
Qed.

(** A character other than ['%'] is kept by [unquote_to_bytes]. *)
Lemma unquote_to_bytes_plain (a : ascii) (t : string) :
  Ascii.eqb a "%" = false ->
  unquote_to_bytes (String a t) = byte_of_ascii a :: unquote_to_bytes t.
Proof.
  intros Ha. unfold unquote_to_bytes. cbn [split]. rewrite Ha.
  destruct (split_nonempty "%" t) as (first & items & ->). reflexivity.
Qed.

(** An escape of two hex digits is read as the byte it stands for. *)
Lemma unquote_to_bytes_escape (x y : ascii) (h l : Z) (t : string) :
  hexval x = Some h -> hexval y = Some l ->
  unquote_to_bytes (String "%" (String x (String y t)))
  = byte_of_Z (16 * h + l) :: unquote_to_bytes t.
Proof.
  intros Hx Hy.
  assert (Hx' : Ascii.eqb x "%" = false).
  { destruct (Ascii.eqb_spec x "%") as [->|]; [discriminate|reflexivity]. }
  assert (Hy' : Ascii.eqb y "%" = false).
  { destruct (Ascii.eqb_spec y "%") as [->|]; [discriminate|reflexivity]. }
  unfold unquote_to_bytes. cbn [split]. rewrite Ascii.eqb_refl, Hx', Hy'.
  destruct (split_nonempty "%" t) as (first & items & ->).
  cbn [map concat unquote_item app encode]. rewrite Hx, Hy. reflexivity.
Qed.

Lemma quoter_unquoted (b : byte) (t : string) :
  unquote_to_bytes (quoter b +:+ t) = b :: unquote_to_bytes t.
Proof.
  unfold quoter. destruct (is_safe b) eqn:Hsafe.
  - rewrite append_cons, append_nil_l, unquote_to_bytes_plain.
    + rewrite byte_of_ascii_of_byte. reflexivity.
    + destruct b; try reflexivity; discriminate.
  - rewrite !append_cons, append_nil_l.
    assert (Hhex : forall n, 0 <= n < 16 -> hexval (hexdigit n) = Some n).
    { intros n Hn.
      assert (Hall : forallb (fun k => match hexval (hexdigit (Z.of_nat k)) with
                                       | Some v => v =? Z.of_nat k
                                       | None => false
                                       end) (seq 0 16) = true) by reflexivity.
      rewrite forallb_forall in Hall.
      specialize (Hall (Z.to_nat n)). rewrite Z2Nat.id in Hall by lia.
      destruct (hexval (hexdigit n)) as [v|].
      - f_equal. apply Z.eqb_eq, Hall, in_seq. lia.
      - discriminate Hall. apply in_seq. lia. }
    pose proof (byte_val_range b) as Hb.
    rewrite (unquote_to_bytes_escape _ _ (byte_val b / 16) (byte_val b mod 16))
      by (apply Hhex; lia).
    replace (16 * (byte_val b / 16) + byte_val b mod 16) with (byte_val b)
      by lia.
    f_equal. unfold byte_of_Z, byte_val. rewrite N2Z.id, Byte.of_to_N.
    reflexivity.
Qed.

Lemma concat_cons (x : string) (l : list string) :
  String.concat "" (x :: l) = x +:+ String.concat "" l.
Proof.
  destruct l as [|y l]; [cbn; rewrite append_nil_r; reflexivity|reflexivity].
Qed.

(** Reading the escapes of a quoted text gives its bytes back. *)
Lemma unquote_to_bytes_quote (bs : list byte) :
  unquote_to_bytes (String.concat "" (map quoter bs)) = bs.
Proof.
  induction bs as [|b bs IH]; [reflexivity|].
  cbn [map]. rewrite concat_cons, quoter_unquoted, IH. reflexivity.
Qed.

Lemma isascii_append (s t : string) :
  isascii (s +:+ t) = isascii s && isascii t.
Proof.
  induction s as [|a s IH]; [reflexivity|].
  rewrite append_cons. cbn [isascii]. rewrite IH, andb_assoc. reflexivity.
Qed.

Lemma quoter_ascii (b : byte) : isascii (quoter b) = true.
Proof. destruct b; vm_compute; reflexivity. Qed.

Lemma quote_ascii (s : string) : isascii (quote s) = true.
Proof.
  unfold quote. rewrite quote_from_bytes_bytewise.
  induction (encode s) as [|b bs IH]; [reflexivity|].
  cbn [map]. rewrite concat_cons, isascii_append, quoter_ascii, IH.
  reflexivity.
Qed.

Lemma ascii_runs_ascii (s : string) :
  isascii s = true -> s <> "" -> ascii_runs s = [(true, s)].
Proof.
  induction s as [|a s IH]; [contradiction|].
  cbn [isascii ascii_runs]. intros Hs _.
  apply andb_true_iff in Hs as [Ha Hs]. rewrite Ha.
  destruct s as [|a' s]; [reflexivity|].
  rewrite (IH Hs) by discriminate. reflexivity.
Qed.

(** On ASCII text [unquote] reads the escapes and decodes the bytes. *)
Lemma unquote_ascii (s : string) :
  isascii s = true -> unquote s = decode_replace (unquote_to_bytes s).
Proof.
  intros Hs. unfold unquote. destruct (contains "%" s) eqn:Hpercent.
  - rewrite ascii_runs_ascii; [|exact Hs|].
    + cbn. reflexivity.
    + intros ->. discriminate.
  - unfold unquote_to_bytes. rewrite split_without_separator by exact Hpercent.
    cbn [map concat]. rewrite app_nil_r.
    unfold decode_replace. rewrite utf8_scan_ascii.
    + assert (Hid : forall l : list byte,
                concat (map (fun o : option (list byte) =>
                               match o with
                               | Some c => c
                               | None => REPLACEMENT
                               end) (map (fun b : byte => Some [b]) l)) = l).
      { induction l as [|b l IH]; [reflexivity|].
        cbn [map concat app]. rewrite IH. reflexivity. }
      rewrite Hid. symmetry. apply string_of_list_byte_of_string.
    + clear Hpercent. induction s as [|a s IH]; [constructor|].
      cbn [isascii] in Hs. apply andb_true_iff in Hs as [Ha Hs].
      change (encode (String a s)) with (byte_of_ascii a :: encode s).
      constructor; [|exact (IH Hs)].
      unfold is_ascii_char, ord in Ha. unfold byte_val.
      rewrite <- Ha. f_equal. f_equal.
      rewrite <- (ascii_of_byte_of_ascii a) at 2.
      destruct (byte_of_ascii a); reflexivity.
Qed.

(** X13: the percent-encoding [decode_secrets] applies to the issuer and
    the name is undone by the percent-decoding [parse_url] and [decode_qs]
    apply: for every text (well-formed UTF-8), [unquote (quote s)] is [s]
    again, and the encoded text is ASCII. *)
Theorem unquote_quote (s : string) :
  decode (encode s) = ok s ->
  unquote (quote s) = s /\ isascii (quote s) = true.
Proof.
  intros Hs. split; [|apply quote_ascii].
  rewrite unquote_ascii by apply quote_ascii.
  unfold quote. rewrite quote_from_bytes_bytewise, unquote_to_bytes_quote.
  apply decode_replace_well_formed, Hs.
Qed.

Lemma unquote_quote_witness :
  unquote (quote (of_codes [97; 58; 195; 169; 32; 226; 130; 172; 37; 52; 49]))
  = of_codes [97; 58; 195; 169; 32; 226; 130; 172; 37; 52; 49]
  /\ isascii (quote (of_codes [97; 58; 195; 169; 32; 226; 130; 172; 37; 52; 49]))
     = true.
Proof.
  apply (unquote_quote
           (of_codes [97; 58; 195; 169; 32; 226; 130; 172; 37; 52; 49])).
  vm_compute. reflexivity.
Defined.

(** ** Characters outside the base64 alphabet *)

(** A byte that [a2b_base64] reads: a digit of the alphabet or the pad. *)
Definition b64_significant (c : byte) : bool :=
(byte_val c =? 61)
|| match b64_value c with
   | Some _ => true
   | None => false
   end.

Lemma a2b_base64_go_skips (data : list byte) (quad_pos leftchar pads : Z)
    (bin_data : list byte) :
  a2b_base64_go quad_pos leftchar pads bin_data (List.filter b64_significant data)
  = a2b_base64_go quad_pos leftchar pads bin_data data.
Proof.
  revert quad_pos leftchar pads bin_data.
  induction data as [|c data IH]; intros quad_pos leftchar pads bin_data;
    [reflexivity|].
  cbn [List.filter]. unfold b64_significant at 1.
  destruct (byte_val c =? 61) eqn:Hpad; cbn [orb].
  - cbn [a2b_base64_go]. rewrite Hpad.
    destruct (_ && _); [reflexivity|apply IH].
  - destruct (b64_value c) as [v|] eqn:Hv.
    + cbn [a2b_base64_go]. rewrite Hpad, Hv.
      destruct (quad_pos =? 0); [apply IH|].
      destruct (quad_pos =? 1); [apply IH|].
      destruct (quad_pos =? 2); apply IH.
    + cbn [a2b_base64_go]. rewrite Hpad, Hv. apply IH.
Qed.

(** X14: [decode_qs] decodes with the default, lenient [b64decode]: every
    character of the ASCII text that is neither a digit of the standard
    alphabet nor ['='] is dropped before decoding, without a diagnostic;
    the bytes, or the error, are those of the text without these
    characters.  Text that is not ASCII is rejected with a
    [ValueError]. *)
Theorem decode_qs_drops_foreign_characters (data : string) :
  (isascii (unquote data) = true ->
   decode_qs data
   = a2b_base64 (List.filter b64_significant (encode (unquote data))))
  /\ (isascii (unquote data) = false ->
      decode_qs data
      = raise (ValueError "string argument should contain only ASCII characters")).
Proof.
  unfold decode_qs, b64decode, a2b_base64.
  split; intros ->; [|reflexivity].
  symmetry. apply a2b_base64_go_skips.
Qed.

Lemma decode_qs_drops_foreign_characters_witness :
  decode_qs "Q U-J_D%0A"
  = a2b_base64 (List.filter b64_significant (encode (unquote "Q U-J_D%0A"))).
Proof.
  apply (decode_qs_drops_foreign_characters "Q U-J_D%0A"). reflexivity.
Defined.

(** ** A plus sign in the data *)

Lemma contains_replace (c a d : ascii) (s : string) :
  Ascii.eqb d c = false -> contains c s = false ->
  contains c (replace a d s) = false.
Proof.
  intros Hd. induction s as [|x s IH]; [reflexivity|].
  cbn [contains replace].
  destruct (Ascii.eqb x c) eqn:Hx; [discriminate|].
  intros Hs. destruct (Ascii.eqb x a); [rewrite Hd|rewrite Hx]; exact (IH Hs).
Qed.

Lemma isascii_replace (a d : ascii) (s : string) :
  is_ascii_char d = true -> isascii s = true -> isascii (replace a d s) = true.
Proof.
  intros Hd. induction s as [|x s IH]; [reflexivity|].
  cbn [isascii replace]. intros Hs.
  apply andb_true_iff in Hs as [Hx Hs]. rewrite (IH Hs).
  destruct (Ascii.eqb x a); [rewrite Hd|rewrite Hx]; reflexivity.
Qed.

Lemma unquote_without_escape (s : string) :
  contains "%" s = false -> unquote s = s.
Proof. intros Hs. unfold unquote. rewrite Hs. reflexivity. Qed.

(** A digit of the alphabet other than ['+'], or the pad. *)
Definition b64_kept (c : byte) : bool :=
b64_significant c && negb (byte_val c =? 43).

Lemma filter_plus_as_space (s : string) :
  List.filter b64_significant (encode (replace "+" " " s))
  = List.filter b64_kept (encode s).
Proof.
  induction s as [|x s IH]; [reflexivity|].
  cbn [replace].
  change (encode (String x s)) with (byte_of_ascii x :: encode s).
  change (encode (String ?y (replace "+" " " s)))
    with (byte_of_ascii y :: encode (replace "+" " " s)).
  cbn [List.filter]. rewrite IH.
  destruct (Ascii.eqb_spec x "+") as [->|Hx]; [reflexivity|].
  unfold b64_kept.
  replace (byte_val (byte_of_ascii x) =? 43) with false.
  - rewrite andb_true_r. reflexivity.
  - symmetry. apply Z.eqb_neq. intros Hval. apply Hx.
    rewrite <- (ascii_of_byte_of_ascii x).
    destruct (byte_of_ascii x); try discriminate. reflexivity.
Qed.

Section Plus.

Context `{Unicodedata_Ipaddress}.

(** X15: a plus sign written as it is in the data of a link is lost.
    [parse_qs] reads it as a space and the lenient [b64decode] drops the
    space: for a query [data=raw] whose [raw] is ASCII and has no escape,
    the bytes or the error of the pipeline are those of [raw] with its
    ['+'] digits taken out, although ['+'] is a digit of the base64
    alphabet. *)
Theorem unescaped_plus_is_dropped (url raw : string) (parsed : ParseResult) :
  urlparse url = ok parsed ->
  scheme parsed = "otpauth-migration" ->
  query parsed = "data=" +:+ raw ->
  raw <> "" -> contains "&" raw = false -> contains "%" raw = false ->
  isascii raw = true ->
  (data <- parse_url url ;; decode_qs data)%result
  = a2b_base64 (List.filter b64_kept (encode raw)).
Proof.
  intros Hparsed Hscheme Hquery Hraw Hamp Hpercent Hascii.
  rewrite (parse_url_parsed url parsed Hparsed), Hscheme, Hquery.
  cbn [String.eqb Ascii.eqb Bool.eqb negb].
  rewrite (parse_qs_data_field raw Hraw Hamp). unfold ok. cbn [rbind].
  assert (Hplain : contains "%" (replace "+" " " raw) = false)
    by (apply contains_replace; [reflexivity|exact Hpercent]).
  unfold decode_qs. rewrite !(unquote_without_escape _ Hplain).
  unfold b64decode, a2b_base64.
  rewrite isascii_replace by (try reflexivity; exact Hascii).
  rewrite <- filter_plus_as_space. symmetry. apply a2b_base64_go_skips.
Qed.

End Plus.

Lemma unescaped_plus_is_dropped_witness :
  (data <- parse_url "otpauth-migration://offline?data=+/+/" ;;
   decode_qs data)%result
  = a2b_base64 (List.filter b64_kept (encode "+/+/")).
Proof.
  eapply (unescaped_plus_is_dropped "otpauth-migration://offline?data=+/+/").
  - vm_compute. reflexivity.
  - reflexivity.
  - reflexivity.
  - discriminate.
  - reflexivity.
  - reflexivity.
  - reflexivity.
Defined.

(** ** The letter case of the scheme *)

Lemma remove_append (c : ascii) (s t : string) :
  remove c (s +:+ t) = remove c s +:+ remove c t.
Proof.
  induction s as [|a s IH]; [reflexivity|].
  rewrite append_cons. cbn [remove].
  destruct (Ascii.eqb a c); [exact IH|rewrite append_cons, IH; reflexivity].
Qed.

Lemma remove_absent (c : ascii) (s : string) :
  contains c s = false -> remove c s = s.
Proof.
  induction s as [|a s IH]; [reflexivity|].
  cbn [contains remove]. destruct (Ascii.eqb a c); [discriminate|].
  intros Hs. rewrite (IH Hs). reflexivity.
Qed.

Lemma partition_at (c : ascii) (s rest : string) :
  contains c s = false ->
  partition c (s +:+ String c rest) = Some (s, rest).
Proof.
  induction s as [|a s IH]; intros Hs.
  - rewrite append_nil_l. cbn [partition]. rewrite Ascii.eqb_refl. reflexivity.
  - cbn [contains] in Hs. rewrite append_cons. cbn [partition].
    destruct (Ascii.eqb a c); [discriminate|]. rewrite (IH Hs). reflexivity.
Qed.

(** A text of scheme characters holds no tab, no line break and no
    colon. *)
Lemma scheme_chars_plain (c : ascii) (s : string) :
  scheme_chars c = false -> all_chars scheme_chars s = true ->
  contains c s = false.
Proof.
  intros Hc. induction s as [|a s IH]; [reflexivity|].
  cbn [all_chars contains]. intros Hs.
  apply andb_true_iff in Hs as [Ha Hs].
  destruct (Ascii.eqb_spec a c) as [->|_]; [congruence|exact (IH Hs)].
Qed.

Section Scheme.

Context `{Unicodedata_Ipaddress}.

(** The scheme [urlparse] gives is the one [split_scheme] finds in the
    link once its leading blanks and its tabs and line breaks are
    removed. *)
Lemma urlparse_scheme (url : string) (parsed : ParseResult) :
  urlparse url = ok parsed ->
  scheme parsed
  = fst (split_scheme
           (remove "010" (remove "013" (remove "009" (lstrip_C0 url))))).
Proof.
  unfold urlparse, urlsplit.
  destruct (split_scheme _) as [sch rest]. cbn [fst].
  destruct (if startswith "//" rest then _ else _) as [e|[netloc rest']];
    cbn [rbind]; [discriminate|].
  destruct (match partition "#" rest' with
            | Some (u, f) => (u, f)
            | None => (rest', "")
            end) as [u fragment].
  destruct (match partition "?" u with
            | Some (u0, q) => (u0, q)
            | None => (u, "")
            end) as [u' query].
  destruct (checknetloc netloc) as [e|[]]; unfold ok; cbn [rbind];
    [discriminate|].
  destruct (if existsb (String.eqb sch) uses_params && contains ";" u'
            then splitparams u' else (u', "")) as [path params].
  intros [= <-]. reflexivity.
Qed.

(** X16: the scheme test of [parse_url] does not depend on the letter
    case: for a link that starts with a scheme (an ASCII letter followed
    by letters, digits, ['+'], ['-'] or ['.']) and a colon, the parsed
    scheme is the scheme in lower case, so a link whose scheme is
    [otpauth-migration] in any letter case never fails with the scheme
    error. *)
Theorem scheme_test_ignores_case (a : ascii) (s rest : string) :
  is_ascii_alpha a = true ->
  all_chars scheme_chars (String a s) = true ->
  (forall parsed,
     urlparse (String a s +:+ String ":" rest) = ok parsed ->
     scheme parsed = lower (String a s))
  /\ (lower (String a s) = "otpauth-migration" ->
      parse_url (String a s +:+ String ":" rest)
      <> raise (TypeError "Only otpauth-migration URLs can be parsed")).
Proof.
  intros Halpha Hchars.
  assert (Hscheme : forall parsed,
             urlparse (String a s +:+ String ":" rest) = ok parsed ->
             scheme parsed = lower (String a s)).
  { intros parsed Hparsed. rewrite (urlparse_scheme _ _ Hparsed).
    rewrite append_cons.
    assert (Hkeep : lstrip_C0 (String a (s +:+ String ":" rest))
                    = String a (s +:+ String ":" rest)).
    { cbn [lstrip_C0]. replace (ord a <=? 32) with false; [reflexivity|].
      symmetry. apply Z.leb_gt. unfold is_ascii_alpha in Halpha. lia. }
    rewrite Hkeep, <- append_cons.
    assert (Hclean : forall c, scheme_chars c = false -> Ascii.eqb ":" c = false ->
               forall t, remove c (String a s +:+ String ":" t)
                         = String a s +:+ String ":" (remove c t)).
    { intros c Hc Hcolon t. rewrite remove_append.
      rewrite (remove_absent c (String a s))
        by (apply scheme_chars_plain; assumption).
      cbn [remove]. rewrite Hcolon. reflexivity. }
    rewrite !Hclean by reflexivity.
    unfold split_scheme.
    rewrite partition_at by (apply scheme_chars_plain; [reflexivity|exact Hchars]).
    rewrite Halpha, Hchars.
    replace (is_ascii_char a) with true; [reflexivity|].
    symmetry. unfold is_ascii_char. apply Z.ltb_lt.
    unfold is_ascii_alpha in Halpha. lia. }
  split; [exact Hscheme|].
  intros Hlower.
  destruct (urlparse (String a s +:+ String ":" rest)) as [e|parsed] eqn:Hparsed.
  - pose proof (urlparse_raises (String a s +:+ String ":" rest)) as Hraises.
    rewrite Hparsed in Hraises. unfold parse_url. rewrite Hparsed. cbn [rbind].
    destruct e; try contradiction. discriminate.
  - rewrite (parse_url_parsed _ _ Hparsed), (Hscheme _ eq_refl), Hlower.
    cbn [String.eqb Ascii.eqb Bool.eqb negb].
    destruct (parse_qs (query parsed) !! "data") as [[|v values]|]; discriminate.
Qed.

End Scheme.

Lemma scheme_test_ignores_case_witness :
  parse_url ("OTPauth-Migration" +:+ String ":" "//offline?data=QQ%3D%3D")
  <> raise (TypeError "Only otpauth-migration URLs can be parsed").
Proof.
  apply (scheme_test_ignores_case "O" "TPauth-Migration"
           "//offline?data=QQ%3D%3D"); reflexivity.
Defined.

(** ** The block of an entry can be read back

    Nothing of an entry is lost in the lines [decode_secrets] appends for
    it: [b32encode] is injective, [str] is injective on integers, the
    names of an enum are distinct, and every field has a line of its
    own. *)

(** The eight digits of a quantum, from the values of its five bytes. *)
Definition b32_digits (v0 v1 v2 v3 v4 : Z) : list Z :=
  [ v0 / 8; (v0 mod 8) * 4 + v1 / 64; (v1 / 2) mod 32;
    (v1 mod 2) * 16 + v2 / 16; (v2 mod 16) * 2 + v3 / 128;
    (v3 / 4) mod 32; (v3 mod 4) * 8 + v4 / 32; v4 mod 32 ].

Lemma b32_quantum_bytes (b0 b1 b2 b3 b4 : byte) :
  b32_quantum (from_bytes [b0; b1; b2; b3; b4])
  = map b32tab (b32_digits (byte_val b0) (byte_val b1) (byte_val b2)
                  (byte_val b3) (byte_val b4)).
Proof.
  pose proof (byte_val_range b0). pose proof (byte_val_range b1).
  pose proof (byte_val_range b2). pose proof (byte_val_range b3).
  pose proof (byte_val_range b4).
  unfold b32_quantum, b32tab2, from_bytes, b32_digits. cbn [fold_left map app].
  generalize dependent (byte_val b0). generalize dependent (byte_val b1).
  generalize dependent (byte_val b2). generalize dependent (byte_val b3).
  generalize dependent (byte_val b4). intros v4 H4 v3 H3 v2 H2 v1 H1 v0 H0.
  change 1023 with (Z.ones 10).
  rewrite !Z.land_ones, !Z.shiftr_div_pow2 by lia.
  change (2 ^ 30) with 1073741824. change (2 ^ 20) with 1048576.
  change (2 ^ 10) with 1024.
  repeat (apply (f_equal2 cons); [f_equal; lia|]). reflexivity.
Qed.

Lemma b32_digits_range (v0 v1 v2 v3 v4 : Z) :
  0 <= v0 < 256 -> 0 <= v1 < 256 -> 0 <= v2 < 256 -> 0 <= v3 < 256 ->
  0 <= v4 < 256 ->
  Forall (fun d => 0 <= d < 32) (b32_digits v0 v1 v2 v3 v4).
Proof.
  intros. unfold b32_digits. repeat (constructor; [lia|]). constructor.
Qed.


Lemma b32_digits_byte0 (v0 v1 w0 w1 : Z) :
  0 <= v0 < 256 -> 0 <= v1 < 256 -> 0 <= w0 < 256 -> 0 <= w1 < 256 ->
  v0 / 8 = w0 / 8 ->
  (v0 mod 8) * 4 + v1 / 64 = (w0 mod 8) * 4 + w1 / 64 ->
  v0 = w0 /\ v1 / 64 = w1 / 64.
Proof. lia. Qed.

Lemma b32_digits_byte1 (v1 v2 w1 w2 : Z) :
  0 <= v1 < 256 -> 0 <= v2 < 256 -> 0 <= w1 < 256 -> 0 <= w2 < 256 ->
  v1 / 64 = w1 / 64 ->
  (v1 / 2) mod 32 = (w1 / 2) mod 32 ->
  (v1 mod 2) * 16 + v2 / 16 = (w1 mod 2) * 16 + w2 / 16 ->
  v1 = w1 /\ v2 / 16 = w2 / 16.
Proof. lia. Qed.

Lemma b32_digits_byte2 (v2 v3 w2 w3 : Z) :
  0 <= v2 < 256 -> 0 <= v3 < 256 -> 0 <= w2 < 256 -> 0 <= w3 < 256 ->
  v2 / 16 = w2 / 16 ->
  (v2 mod 16) * 2 + v3 / 128 = (w2 mod 16) * 2 + w3 / 128 ->
  v2 = w2 /\ v3 / 128 = w3 / 128.
Proof. lia. Qed.

Lemma b32_digits_byte3 (v3 v4 w3 w4 : Z) :
  0 <= v3 < 256 -> 0 <= v4 < 256 -> 0 <= w3 < 256 -> 0 <= w4 < 256 ->
  v3 / 128 = w3 / 128 ->
  (v3 / 4) mod 32 = (w3 / 4) mod 32 ->
  (v3 mod 4) * 8 + v4 / 32 = (w3 mod 4) * 8 + w4 / 32 ->
  v3 = w3 /\ v4 / 32 = w4 / 32.
Proof. lia. Qed.

Lemma b32_digits_byte4 (v4 w4 : Z) :
  v4 / 32 = w4 / 32 -> v4 mod 32 = w4 mod 32 -> v4 = w4.
Proof. lia. Qed.

Lemma b32tab_inj (i j : Z) :
  0 <= i < 32 -> 0 <= j < 32 -> b32tab i = b32tab j -> i = j.
Proof.
  intros Hi Hj Heq.
  assert (Hall : forallb (fun a => forallb (fun b =>
                    implb (byte_val (b32tab (Z.of_nat a))
                           =? byte_val (b32tab (Z.of_nat b)))
                          (Nat.eqb a b)) (seq 0 32)) (seq 0 32) = true)
    by (vm_compute; reflexivity).
  rewrite forallb_forall in Hall.
  assert (Hin : forall k, 0 <= k < 32 -> In (Z.to_nat k) (seq 0 32))
    by (intros k Hk; apply in_seq; lia).
  specialize (Hall (Z.to_nat i) (Hin i Hi)). rewrite forallb_forall in Hall.
  specialize (Hall (Z.to_nat j) (Hin j Hj)).
  rewrite !Z2Nat.id, Heq, Z.eqb_refl in Hall by lia.
  apply Nat.eqb_eq in Hall. lia.
Qed.

Lemma byte_val_inj (a b : byte) : byte_val a = byte_val b -> a = b.
Proof.
  unfold byte_val. intros Heq. apply N2Z.inj in Heq.
  assert (Hsome : Some a = Some b)
    by (rewrite <- (Byte.of_to_N a), <- (Byte.of_to_N b), Heq; reflexivity).
  injection Hsome as ->. reflexivity.
Qed.

Lemma pad_not_digit : ~ In Byte.x3d b32alphabet.
Proof. cbn. intuition discriminate. Qed.

(** A text of digits followed by pad characters is cut in one way only. *)
Lemma padded_text_unique (body body' : list byte) (p p' : nat) :
  Forall (fun d => In d b32alphabet) body ->
  Forall (fun d => In d b32alphabet) body' ->
  body ++ replicate p Byte.x3d = body' ++ replicate p' Byte.x3d ->
  body = body' /\ p = p'.
Proof.
  intros Hbody. revert body'.
  induction Hbody as [|d body Hd Hbody IH]; intros body' Hbody' Heq.
  - destruct Hbody' as [|d' body' Hd' Hbody'].
    + split; [reflexivity|].
      apply (f_equal (@length byte)) in Heq.
      cbn [app] in Heq. rewrite !length_replicate in Heq. exact Heq.
    + destruct p; [discriminate|]. cbn in Heq. injection Heq as <- _.
      destruct (pad_not_digit Hd').
  - destruct Hbody' as [|d' body' Hd' Hbody'].
    + destruct p'; [discriminate|]. cbn in Heq. injection Heq as -> _.
      destruct (pad_not_digit Hd).
    + cbn [app] in Heq. injection Heq as -> Heq.
      destruct (IH _ Hbody' Heq) as [-> ->]. split; reflexivity.
Qed.

Lemma b32encode_length_inj (s s' : list byte) :
  b32encode s = b32encode s' -> length s = length s'.
Proof.
  intros Heq.
  destruct (b32encode_shape s) as [Hlen (body & Hs & Hbody)].
  destruct (b32encode_shape s') as [Hlen' (body' & Hs' & Hbody')].
  rewrite Heq in Hlen. rewrite Hlen' in Hlen.
  rewrite Heq, Hs' in Hs.
  destruct (padded_text_unique _ _ _ _ Hbody' Hbody Hs) as [_ Hpad].
  assert (Hmod : (length s mod 5 = length s' mod 5)%nat).
  { pose proof (Nat.mod_upper_bound (length s) 5 ltac:(lia)) as Hlt.
    pose proof (Nat.mod_upper_bound (length s') 5 ltac:(lia)) as Hlt'.
    destruct (length s mod 5)%nat as [|[|[|[|[|l]]]]];
      destruct (length s' mod 5)%nat as [|[|[|[|[|l']]]]];
      cbn [b32_padding] in Hpad; lia. }
  lia.
Qed.

(** A whole quantum at the head is encoded on its own. *)
Lemma b32encode_quantum (b0 b1 b2 b3 b4 : byte) (rest : list byte) :
  b32encode (b0 :: b1 :: b2 :: b3 :: b4 :: rest)
  = b32_quantum (from_bytes [b0; b1; b2; b3; b4]) ++ b32encode rest.
Proof.
  unfold b32encode.
  assert (Hmod : (length (b0 :: b1 :: b2 :: b3 :: b4 :: rest) mod 5
                  = length rest mod 5)%nat) by (cbn [length]; lia).
  rewrite Hmod.
  pose proof (Nat.mod_upper_bound (length rest) 5 ltac:(lia)) as Hlt.
  remember (length rest mod 5)%nat as leftover eqn:Hleft.
  set (padded := if (leftover =? 0)%nat then rest
                 else rest ++ replicate (5 - leftover) Byte.x00).
  assert (Hcons : (if (leftover =? 0)%nat
                   then b0 :: b1 :: b2 :: b3 :: b4 :: rest
                   else (b0 :: b1 :: b2 :: b3 :: b4 :: rest)
                        ++ replicate (5 - leftover) Byte.x00)
                  = b0 :: b1 :: b2 :: b3 :: b4 :: padded)
    by (subst padded; destruct (leftover =? 0)%nat; reflexivity).
  rewrite Hcons.
  change (b32_quanta (b0 :: b1 :: b2 :: b3 :: b4 :: padded))
    with (b32_quantum (from_bytes [b0; b1; b2; b3; b4]) ++ b32_quanta padded).
  set (q := b32_quantum (from_bytes [b0; b1; b2; b3; b4])).
  assert (Hq : length q = 8%nat) by reflexivity.
  assert (Hlen : leftover <> 0%nat -> (8 <= length (b32_quanta padded))%nat).
  { intros Hne.
    destruct (b32_quanta_digits (length padded) padded (Nat.le_refl _))
      as [-> _].
    assert (Hpadded : (5 <= length padded)%nat).
    { subst padded. destruct (Nat.eqb_spec leftover 0); [contradiction|].
      rewrite length_app, length_replicate. lia. }
    pose proof (Nat.div_le_lower_bound (length padded) 5 1). lia. }
  assert (Htail : forall k, (k <= 8)%nat -> leftover <> 0%nat ->
             set_tail k (q ++ b32_quanta padded)
             = q ++ set_tail k (b32_quanta padded)).
  { intros k Hk Hne. specialize (Hlen Hne). unfold set_tail.
    rewrite length_app, Hq, take_app_ge, Hq, <- app_assoc by lia.
    do 3 f_equal. lia. }
  destruct leftover as [|[|[|[|[|l]]]]]; try reflexivity; apply Htail; lia.
Qed.

Ltac b32_short :=
  unfold b32encode;
  cbn [length Nat.modulo Nat.divmod fst snd Nat.eqb Nat.sub replicate app
       b32_quanta];
  rewrite b32_quantum_bytes; reflexivity.

Lemma b32encode_1 (b0 : byte) :
  b32encode [b0]
  = map b32tab (take 2 (b32_digits (byte_val b0) 0 0 0 0))
    ++ replicate 6 Byte.x3d.
Proof. b32_short. Qed.

Lemma b32encode_2 (b0 b1 : byte) :
  b32encode [b0; b1]
  = map b32tab (take 4 (b32_digits (byte_val b0) (byte_val b1) 0 0 0))
    ++ replicate 4 Byte.x3d.
Proof. b32_short. Qed.

Lemma b32encode_3 (b0 b1 b2 : byte) :
  b32encode [b0; b1; b2]
  = map b32tab
      (take 5 (b32_digits (byte_val b0) (byte_val b1) (byte_val b2) 0 0))
    ++ replicate 3 Byte.x3d.
Proof. b32_short. Qed.

Lemma b32encode_4 (b0 b1 b2 b3 : byte) :
  b32encode [b0; b1; b2; b3]
  = map b32tab
      (take 7 (b32_digits (byte_val b0) (byte_val b1) (byte_val b2)
                 (byte_val b3) 0))
    ++ replicate 1 Byte.x3d.
Proof. b32_short. Qed.

Lemma map_b32tab_inj (l l' : list Z) :
  Forall (fun d => 0 <= d < 32) l -> Forall (fun d => 0 <= d < 32) l' ->
  map b32tab l = map b32tab l' -> l = l'.
Proof.
  intros Hl. revert l'. induction Hl as [|d l Hd Hl IH]; intros l' Hl' Heq.
  - destruct l'; [reflexivity|discriminate].
  - destruct Hl' as [|d' l' Hd' Hl']; [discriminate|].
    cbn [map] in Heq. injection Heq as Hhead Htail.
    rewrite (b32tab_inj d d' Hd Hd' Hhead), (IH l' Hl' Htail). reflexivity.
Qed.

(** The digits that are kept of a quantum, read back. *)
Lemma b32_digits_inj (m : nat) (b0 b1 b2 b3 b4 c0 c1 c2 c3 c4 : byte) :
  map b32tab (take m (b32_digits (byte_val b0) (byte_val b1) (byte_val b2)
                        (byte_val b3) (byte_val b4)))
  = map b32tab (take m (b32_digits (byte_val c0) (byte_val c1) (byte_val c2)
                          (byte_val c3) (byte_val c4))) ->
  ((2 <= m)%nat -> b0 = c0 /\ byte_val b1 / 64 = byte_val c1 / 64)
  /\ ((4 <= m)%nat -> b1 = c1 /\ byte_val b2 / 16 = byte_val c2 / 16)
  /\ ((5 <= m)%nat -> b2 = c2 /\ byte_val b3 / 128 = byte_val c3 / 128)
  /\ ((7 <= m)%nat -> b3 = c3 /\ byte_val b4 / 32 = byte_val c4 / 32)
  /\ ((8 <= m)%nat -> b4 = c4).
Proof.
  pose proof (byte_val_range b0) as Hb0. pose proof (byte_val_range b1) as Hb1.
  pose proof (byte_val_range b2) as Hb2. pose proof (byte_val_range b3) as Hb3.
  pose proof (byte_val_range b4) as Hb4.
  pose proof (byte_val_range c0) as Hc0. pose proof (byte_val_range c1) as Hc1.
  pose proof (byte_val_range c2) as Hc2. pose proof (byte_val_range c3) as Hc3.
  pose proof (byte_val_range c4) as Hc4.
  intros Heq. apply map_b32tab_inj in Heq;
    [|apply Forall_take, b32_digits_range; assumption..].
  unfold b32_digits in Heq.
  assert (H0 : (2 <= m)%nat ->
               b0 = c0 /\ byte_val b1 / 64 = byte_val c1 / 64).
  { intros Hm. do 2 (destruct m as [|m]; [clear -Hm; lia|]). cbn [take firstn] in Heq.
    injection Heq as Hd7 Hd6 _.
    destruct (b32_digits_byte0 _ _ _ _ Hb0 Hb1 Hc0 Hc1 Hd7 Hd6) as [E Q].
    split; [apply byte_val_inj, E|exact Q]. }
  assert (H1 : (4 <= m)%nat ->
               b1 = c1 /\ byte_val b2 / 16 = byte_val c2 / 16).
  { intros Hm. destruct (H0 ltac:(clear -Hm; lia)) as [_ Q0].
    do 4 (destruct m as [|m]; [clear -Hm; lia|]). cbn [take firstn] in Heq.
    injection Heq as _ _ Hd5 Hd4 _.
    destruct (b32_digits_byte1 _ _ _ _ Hb1 Hb2 Hc1 Hc2 Q0 Hd5 Hd4) as [E Q].
    split; [apply byte_val_inj, E|exact Q]. }
  assert (H2 : (5 <= m)%nat ->
               b2 = c2 /\ byte_val b3 / 128 = byte_val c3 / 128).
  { intros Hm. destruct (H1 ltac:(clear -Hm; lia)) as [_ Q1].
    do 5 (destruct m as [|m]; [clear -Hm; lia|]). cbn [take firstn] in Heq.
    injection Heq as _ _ _ _ Hd3 _.
    destruct (b32_digits_byte2 _ _ _ _ Hb2 Hb3 Hc2 Hc3 Q1 Hd3) as [E Q].
    split; [apply byte_val_inj, E|exact Q]. }
  assert (H3 : (7 <= m)%nat ->
               b3 = c3 /\ byte_val b4 / 32 = byte_val c4 / 32).
  { intros Hm. destruct (H2 ltac:(clear -Hm; lia)) as [_ Q2].
    do 7 (destruct m as [|m]; [clear -Hm; lia|]). cbn [take firstn] in Heq.
    injection Heq as _ _ _ _ _ Hd2 Hd1 _.
    destruct (b32_digits_byte3 _ _ _ _ Hb3 Hb4 Hc3 Hc4 Q2 Hd2 Hd1) as [E Q].
    split; [apply byte_val_inj, E|exact Q]. }
  repeat (split; [assumption|]).
  intros Hm. destruct (H3 ltac:(clear -Hm; lia)) as [_ Q3].
  do 8 (destruct m as [|m]; [clear -Hm; lia|]). cbn [take firstn] in Heq.
  injection Heq as _ _ _ _ _ _ _ Hd0.
  apply byte_val_inj, (b32_digits_byte4 _ _ Q3 Hd0).
Qed.

Lemma b32encode_inj_bounded (n : nat) (s s' : list byte) :
  (length s <= n)%nat -> length s = length s' ->
  b32encode s = b32encode s' -> s = s'.
Proof.
  revert s s'. induction n as [|n IH]; intros s s' Hn Hlen Heq.
  - destruct s; [|cbn in Hn; lia]. destruct s'; [reflexivity|discriminate].
  - destruct s as [|b0 [|b1 [|b2 [|b3 [|b4 rest]]]]];
      destruct s' as [|c0 [|c1 [|c2 [|c3 [|c4 rest']]]]];
      try discriminate Hlen.
    + reflexivity.
    + rewrite !b32encode_1 in Heq. apply app_inv_tail in Heq.
      change 0 with (byte_val Byte.x00) in Heq.
      apply b32_digits_inj in Heq as (H0 & _).
      destruct (H0 (Nat.le_refl _)) as [-> _]. reflexivity.
    + rewrite !b32encode_2 in Heq. apply app_inv_tail in Heq.
      change 0 with (byte_val Byte.x00) in Heq.
      apply b32_digits_inj in Heq as (H0 & H1 & _).
      destruct (H0 ltac:(repeat constructor)) as [-> _].
      destruct (H1 (Nat.le_refl _)) as [-> _]. reflexivity.
    + rewrite !b32encode_3 in Heq. apply app_inv_tail in Heq.
      change 0 with (byte_val Byte.x00) in Heq.
      apply b32_digits_inj in Heq as (H0 & H1 & H2 & _).
      destruct (H0 ltac:(repeat constructor)) as [-> _].
      destruct (H1 ltac:(repeat constructor)) as [-> _].
      destruct (H2 (Nat.le_refl _)) as [-> _]. reflexivity.
    + rewrite !b32encode_4 in Heq. apply app_inv_tail in Heq.
      change 0 with (byte_val Byte.x00) in Heq.
      apply b32_digits_inj in Heq as (H0 & H1 & H2 & H3 & _).
      destruct (H0 ltac:(repeat constructor)) as [-> _].
      destruct (H1 ltac:(repeat constructor)) as [-> _].
      destruct (H2 ltac:(repeat constructor)) as [-> _].
      destruct (H3 (Nat.le_refl _)) as [-> _]. reflexivity.
    + rewrite !b32encode_quantum, !b32_quantum_bytes in Heq.
      apply app_inj_1 in Heq as [Hq Hrest]; [|reflexivity].
      change (b32_digits ?a ?b ?c ?d ?e) with (take 8 (b32_digits a b c d e))
        in Hq.
      apply b32_digits_inj in Hq as (H0 & H1 & H2 & H3 & H4).
      destruct (H0 ltac:(repeat constructor)) as [-> _].
      destruct (H1 ltac:(repeat constructor)) as [-> _].
      destruct (H2 ltac:(repeat constructor)) as [-> _].
      destruct (H3 ltac:(repeat constructor)) as [-> _].
      rewrite (H4 (Nat.le_refl _)).
      cbn [length] in Hn, Hlen.
      rewrite (IH rest rest'); [reflexivity|lia|lia|exact Hrest].
Qed.

Lemma b32encode_inj (s s' : list byte) :
  b32encode s = b32encode s' -> s = s'.
Proof.
  intros Heq.
  exact (b32encode_inj_bounded (length s) s s' (Nat.le_refl _)
           (b32encode_length_inj s s' Heq) Heq).
Qed.

Lemma str_int_inj (n n' : Z) : str_int n = str_int n' -> n = n'.
Proof.
  assert (Hread : forall z, NilZero.int_of_string (str_int z)
                            = Some (Z.to_int z)).
  { intros z. unfold str_int.
    pose proof (DecimalZ.to_of (Z.to_int z)) as Hnorm.
    rewrite DecimalZ.of_to in Hnorm.
    apply NilZero.isi; rewrite Hnorm; destruct (Z.to_int z) as [d|d];
      cbn [Decimal.norm]; try discriminate.
    - intros [= Hnil]. exact (DecimalFacts.unorm_nonnil d Hnil).
    - destruct (Decimal.nzhead d); discriminate.
    - destruct (Decimal.nzhead d); discriminate. }
  intros Heq. apply DecimalZ.to_int_inj.
  pose proof (Hread n) as Hn. rewrite Heq, Hread in Hn.
  injection Hn as <-. reflexivity.
Qed.

Lemma text_of_inj (bs bs' : list byte) : text_of bs = text_of bs' -> bs = bs'.
Proof.
  unfold text_of. intros Heq.
  rewrite <- (list_byte_of_string_of_list_byte bs),
          <- (list_byte_of_string_of_list_byte bs'), Heq.
  reflexivity.
Qed.

Lemma append_inv_head (s t t' : string) : s +:+ t = s +:+ t' -> t = t'.
Proof.
  induction s as [|a s IH]; [exact (fun H => H)|].
  rewrite !append_cons. intros [= Heq]. exact (IH Heq).
Qed.

Lemma length_append (s t : string) :
  String.length (s +:+ t) = (String.length s + String.length t)%nat.
Proof.
  induction s as [|a s IH]; [reflexivity|].
  rewrite append_cons. cbn [String.length]. rewrite IH. reflexivity.
Qed.

Lemma append_inv_tail (s s' t : string) : s +:+ t = s' +:+ t -> s = s'.
Proof.
  revert s'. induction s as [|a s IH]; intros [|a' s'] Heq.
  - reflexivity.
  - apply (f_equal String.length) in Heq.
    rewrite !length_append in Heq. cbn [String.length] in Heq. lia.
  - apply (f_equal String.length) in Heq.
    rewrite !length_append in Heq. cbn [String.length] in Heq. lia.
  - rewrite !append_cons in Heq. injection Heq as -> Heq.
    rewrite (IH _ Heq). reflexivity.
Qed.

(** An enum whose names are distinct gives a name to one number only. *)
Lemma enum_Name_inj (enum : string) (names : list (Z * string))
    (n n' : Z) (s : string) :
  List.NoDup (map snd names) ->
  enum_Name enum names n = ok s -> enum_Name enum names n' = ok s -> n = n'.
Proof.
  intros Hdistinct. unfold enum_Name.
  destruct (List.find (fun p => fst p =? n) names) as [p|] eqn:Hp;
    [|discriminate].
  destruct (List.find (fun p => fst p =? n') names) as [p'|] eqn:Hp';
    [|discriminate].
  intros [= Hs] [= Hs'].
  apply find_some in Hp as [Hin Hn]. apply find_some in Hp' as [Hin' Hn'].
  apply Z.eqb_eq in Hn, Hn'. subst n n'. f_equal.
  clear - Hdistinct Hin Hin' Hs Hs'. subst s.
  induction names as [|q names IH]; [destruct Hin|].
  cbn [map] in Hdistinct.
  apply List.NoDup_cons_iff in Hdistinct as [Hq Hdistinct].
  destruct Hin as [->|Hin], Hin' as [->|Hin'].
  - reflexivity.
  - destruct Hq. rewrite <- Hs'. apply in_map, Hin'.
  - destruct Hq. rewrite Hs'. apply in_map, Hin.
  - exact (IH Hdistinct Hin Hin').
Qed.

Lemma enum_names_distinct :
  List.NoDup [ "UNSPECIFIED"; "SHA1"; "SHA256"; "SHA512"; "MD5" ]
  /\ List.NoDup [ "UNSPECIFIED"; "SIX"; "EIGHT" ]
  /\ List.NoDup [ "UNSPECIFIED"; "HOTP"; "TOTP" ].
Proof.
  repeat split; repeat (constructor; [cbn [In]; intuition discriminate|]);
    constructor.
Qed.

(** X17: the block of an entry loses nothing.  Two entries for which
    [decode_secrets] appends the same lines are the same entry: the
    secret is read back from its base32 text, name and issuer from their
    lines, the three enum fields from their names and the counter from
    its decimal text. *)
Theorem entry_block_is_lossless (params params' : OtpParameter)
    (block : list string) :
  decode_secrets_entry params = ok block ->
  decode_secrets_entry params' = ok block ->
  params = params'.
Proof.
  intros Hblock Hblock'.
  destruct (decode_secrets_entry_ok _ _ Hblock)
    as (type_name & algorithm_name & digits_name & n
        & Htype & Halg & Hdigits & _ & Hlines).
  destruct (decode_secrets_entry_ok _ _ Hblock')
    as (type_name' & algorithm_name' & digits_name' & n'
        & Htype' & Halg' & Hdigits' & _ & Hlines').
  rewrite Hlines in Hlines'.
  pose proof (fun i => f_equal (fun l => nth i l "") Hlines') as Hline.
  cbv beta in Hline. clear Hlines Hlines'.
  pose proof (Hline 1%nat) as Hsecret. pose proof (Hline 2%nat) as Hname.
  pose proof (Hline 3%nat) as Hissuer. pose proof (Hline 4%nat) as Halgorithm.
  pose proof (Hline 5%nat) as Hdigit. pose proof (Hline 6%nat) as Htyp.
  pose proof (Hline 7%nat) as Hcounter. clear Hline.
  cbn [nth] in Hsecret, Hname, Hissuer, Halgorithm, Hdigit, Htyp, Hcounter.
  apply append_inv_head in Hname, Hissuer, Halgorithm, Hdigit, Htyp.
  rewrite <- !append_assoc in Hsecret.
  apply append_inv_tail, append_inv_head, text_of_inj, b32encode_inj
    in Hsecret.
  apply append_inv_head, append_inv_tail, str_int_inj in Hcounter.
  subst algorithm_name' digits_name' type_name'.
  destruct enum_names_distinct as (Halgs & Hcounts & Htypes).
  pose proof (fun H => enum_Name_inj _ _ _ _ _ H Halg Halg') as Ha.
  pose proof (fun H => enum_Name_inj _ _ _ _ _ H Hdigits Hdigits') as Hd.
  pose proof (fun H => enum_Name_inj _ _ _ _ _ H Htype Htype') as Ht.
  specialize (Ha Halgs). specialize (Hd Hcounts). specialize (Ht Htypes).
  destruct params, params'. cbn in *. congruence.
Qed.

Lemma entry_block_is_lossless_witness :
  with_digits DigitCount.SIX scenario_entry = scenario_entry.
Proof.
  apply (entry_block_is_lossless _ _
           (match decode_secrets_entry scenario_entry with
            | inr block => block
            | inl _ => []
            end)); vm_compute; reflexivity.
Defined.
